(** * The rspack resolver plugin of embroider: request model, context
    tracker and fallback resolver

    Shallow embedding of [packages/rspack/src/rspack-resolver-plugin.ts]
    (the factory-level tap, module [FactoryTap]) and of the second variant of
    the same file (the compilation-level tap, module [CompilationTap]),
    together with the parts of the JavaScript platform they call:
    strings, the posix [path] module of Node.js and [URLSearchParams].

    How the program is modelled:
    - a string is the list of its UTF-16 code units;
    - the record of the host is mutable and shared by every request made
      during one resolution: it is threaded through the functions as the
      store, and so is the context tracker;
    - a function that may throw returns which of its outcomes happened;
    - the promise of the fallback resolver is the value it resolves to
      (the native resolver is taken to call back, once);
    - what the fallback resolver asks of its environment (native
      resolver, file system) is answered by a [World] and recorded, in
      order, in a list of events. *)

From Stdlib Require Import String Ascii List NArith ZArith Bool Lia.
Import ListNotations.
Local Open Scope N_scope.

(** ** JavaScript strings

    A JavaScript string is a sequence of 16-bit code units.  All the string
    primitives the plugin uses ([includes], [startsWith], [split], regular
    expressions without the [u] flag) work on code units. *)

Definition JsString := list N.

(** The string whose code units are the bytes of an ASCII literal. *)
Definition lit (s : string) : JsString :=
  map N_of_ascii (list_ascii_of_string s).

Fixpoint str_eqb (a b : JsString) : bool :=
  match a, b with
  | [], [] => true
  | x :: a', y :: b' => (x =? y) && str_eqb a' b'
  | _, _ => false
  end.

(** [is_empty s] is [!s] for a string [s]. *)
Definition is_empty (s : JsString) : bool :=
  match s with [] => true | _ => false end.

(** [s.startsWith(p)] *)
Fixpoint startsWith (s p : JsString) {struct p} : bool :=
  match p with
  | [] => true
  | c :: p' =>
      match s with
      | [] => false
      | d :: s' => (d =? c) && startsWith s' p'
      end
  end.

(** [s.includes(p)] *)
Fixpoint includes (s p : JsString) : bool :=
  startsWith s p ||
  match s with
  | [] => false
  | _ :: s' => includes s' p
  end.

(** [s.split(sep)] for a one-unit separator. *)
Fixpoint split_on (sep : N) (s : JsString) : list JsString :=
  match s with
  | [] => [[]]
  | c :: s' =>
      if c =? sep then [] :: split_on sep s'
      else match split_on sep s' with
           | h :: t => (c :: h) :: t
           | [] => [[c]]
           end
  end.

(** [parts.join(sep)] *)
Fixpoint join_with (sep : JsString) (parts : list JsString) : JsString :=
  match parts with
  | [] => []
  | [p] => p
  | p :: rest => p ++ sep ++ join_with sep rest
  end.

(** The longest prefix of units satisfying [p], and what follows it. *)
Fixpoint span (p : N -> bool) (s : JsString) : JsString * JsString :=
  match s with
  | [] => ([], [])
  | c :: s' =>
      if p c then let (a, b) := span p s' in (c :: a, b) else ([], s)
  end.

Definition CHAR_FORWARD_SLASH : N := 47.
Definition CHAR_BANG : N := 33.
Definition CHAR_QUESTION : N := 63.
Definition CHAR_AT : N := 64.

Definition is_slash (c : N) : bool := c =? CHAR_FORWARD_SLASH.

(** Line terminators, which [.] does not match in a regular expression
    without the [s] flag: LF, CR, U+2028 and U+2029. *)
Definition is_line_terminator (c : N) : bool :=
  (c =? 10) || (c =? 13) || (c =? 8232) || (c =? 8233).

(** ** The posix [path] module of Node.js *)

Module Path.

(** The backwards scan of [dirname]: [rev_rest] is the path without its
    first unit, reversed, so that its head is the unit at index
    [length rev_rest]; the result is [end], if the loop sets it. *)
Fixpoint dirname_scan (rev_rest : list N) (matchedSlash : bool) : option nat :=
  match rev_rest with
  | [] => None
  | c :: more =>
      if is_slash c then
        if matchedSlash then dirname_scan more matchedSlash
        else Some (length rev_rest)
      else dirname_scan more false
  end.

Definition dirname (path : JsString) : JsString :=
  match path with
  | [] => lit "."
  | c0 :: rest =>
      let hasRoot := is_slash c0 in
      match dirname_scan (rev rest) true with
      | None => if hasRoot then lit "/" else lit "."
      | Some e =>
          if hasRoot && Nat.eqb e 1 then lit "//" else firstn e path
      end
  end.

(** One segment of [normalizeString]: the segments kept so far are a
    stack, last segment first. *)
Definition normalize_segment (allowAboveRoot : bool)
    (stack : list JsString) (seg : JsString) : list JsString :=
  if is_empty seg || str_eqb seg (lit ".") then stack
  else if str_eqb seg (lit "..") then
    match stack with
    | top :: below =>
        if str_eqb top (lit "..")
        then (if allowAboveRoot then seg :: stack else stack)
        else below
    | [] => if allowAboveRoot then [seg] else []
    end
  else seg :: stack.

Definition normalizeString (path : JsString) (allowAboveRoot : bool) : JsString :=
  join_with (lit "/")
    (rev (fold_left (normalize_segment allowAboveRoot)
                    (split_on CHAR_FORWARD_SLASH path) [])).

Definition normalize (path : JsString) : JsString :=
  match path with
  | [] => lit "."
  | c0 :: _ =>
      let isAbsolute := is_slash c0 in
      let trailingSeparator := is_slash (last path 0) in
      let p := normalizeString path (negb isAbsolute) in
      if is_empty p then
        if isAbsolute then lit "/"
        else if trailingSeparator then lit "./" else lit "."
      else
        let p := if trailingSeparator then p ++ lit "/" else p in
        if isAbsolute then lit "/" ++ p else p
  end.

(** [path.join(...args)] *)
Definition join (args : list JsString) : JsString :=
  match filter (fun a => negb (is_empty a)) args with
  | [] => lit "."
  | parts => normalize (join_with (lit "/") parts)
  end.

(** The right-to-left loop of [path.resolve]: [args] is given last
    argument first, and ends with the working directory. *)
Fixpoint resolve_loop (rev_args : list JsString) (resolvedPath : JsString)
    : JsString * bool :=
  match rev_args with
  | [] => (resolvedPath, false)
  | p :: more =>
      match p with
      | [] => resolve_loop more resolvedPath
      | c0 :: _ =>
          let resolvedPath := p ++ lit "/" ++ resolvedPath in
          if is_slash c0 then (resolvedPath, true)
          else resolve_loop more resolvedPath
      end
  end.

(** [path.resolve(...args)] in a process whose working directory is
    [cwd]. *)
Definition resolve (cwd : JsString) (args : list JsString) : JsString :=
  let (resolvedPath, resolvedAbsolute) := resolve_loop (rev args ++ [cwd]) [] in
  let p := normalizeString resolvedPath (negb resolvedAbsolute) in
  if resolvedAbsolute then lit "/" ++ p
  else if is_empty p then lit "." else p.

End Path.

(** ** [URLSearchParams]

    The parameters are kept as an ordered list of name/value pairs, as the
    URL standard does.  Strings entering the object are converted to scalar
    value strings (unpaired surrogates become U+FFFD); the serializer is the
    [application/x-www-form-urlencoded] serializer over UTF-8, the parser
    its parser. *)

Module Url.

Definition is_high_surrogate (c : N) : bool := (0xD800 <=? c) && (c <=? 0xDBFF).
Definition is_low_surrogate (c : N) : bool := (0xDC00 <=? c) && (c <=? 0xDFFF).

Definition REPLACEMENT : N := 0xFFFD.

(** The code points of a string, an unpaired surrogate read as U+FFFD. *)
Fixpoint utf16_decode (s : JsString) : list N :=
  match s with
  | [] => []
  | c :: s' =>
      if is_high_surrogate c then
        match s' with
        | d :: s'' =>
            if is_low_surrogate d
            then (0x10000 + (c - 0xD800) * 0x400 + (d - 0xDC00)) :: utf16_decode s''
            else REPLACEMENT :: utf16_decode s'
        | [] => [REPLACEMENT]
        end
      else if is_low_surrogate c then REPLACEMENT :: utf16_decode s'
      else c :: utf16_decode s'
  end.

Definition utf16_encode_cp (cp : N) : JsString :=
  if cp <? 0x10000 then [cp]
  else [0xD800 + (cp - 0x10000) / 0x400; 0xDC00 + (cp - 0x10000) mod 0x400].

Definition utf16_encode (cps : list N) : JsString := flat_map utf16_encode_cp cps.

Definition utf8_encode_cp (cp : N) : list N :=
  if cp <? 0x80 then [cp]
  else if cp <? 0x800 then [0xC0 + cp / 64; 0x80 + cp mod 64]
  else if cp <? 0x10000 then
    [0xE0 + cp / 4096; 0x80 + (cp / 64) mod 64; 0x80 + cp mod 64]
  else
    [0xF0 + cp / 262144; 0x80 + (cp / 4096) mod 64;
     0x80 + (cp / 64) mod 64; 0x80 + cp mod 64].

Definition utf8_encode (cps : list N) : list N := flat_map utf8_encode_cp cps.

(** The UTF-8 decoder of the Encoding standard, with replacement of
    malformed input.  A pending sequence records the code point so far,
    the number of continuation bytes still needed and the bounds of the
    next one. *)
Inductive Utf8Pending : Type :=
  Pending (code_point : N) (needed : nat) (lower upper : N).

Inductive Utf8Lead : Type :=
| LeadEmit (cp : N)
| LeadPending (p : Utf8Pending)
| LeadError.

Definition utf8_lead (b : N) : Utf8Lead :=
  if b <=? 0x7F then LeadEmit b
  else if (0xC2 <=? b) && (b <=? 0xDF)
  then LeadPending (Pending (N.land b 0x1F) 1 0x80 0xBF)
  else if (0xE0 <=? b) && (b <=? 0xEF)
  then LeadPending (Pending (N.land b 0xF) 2
                      (if b =? 0xE0 then 0xA0 else 0x80)
                      (if b =? 0xED then 0x9F else 0xBF))
  else if (0xF0 <=? b) && (b <=? 0xF4)
  then LeadPending (Pending (N.land b 0x7) 3
                      (if b =? 0xF0 then 0x90 else 0x80)
                      (if b =? 0xF4 then 0x8F else 0xBF))
  else LeadError.

Fixpoint utf8_decode_from (st : option Utf8Pending) (bs : list N) : list N :=
  match bs with
  | [] => match st with None => [] | Some _ => [REPLACEMENT] end
  | b :: bs' =>
      let fresh :=
        match utf8_lead b with
        | LeadEmit cp => cp :: utf8_decode_from None bs'
        | LeadPending p => utf8_decode_from (Some p) bs'
        | LeadError => REPLACEMENT :: utf8_decode_from None bs'
        end in
      match st with
      | None => fresh
      | Some (Pending cp n lo hi) =>
          if (lo <=? b) && (b <=? hi) then
            let cp' := N.lor (N.shiftl cp 6) (N.land b 0x3F) in
            match n with
            | S (S m) => utf8_decode_from (Some (Pending cp' (S m) 0x80 0xBF)) bs'
            | _ => cp' :: utf8_decode_from None bs'
            end
          else REPLACEMENT :: fresh
      end
  end.

Definition utf8_decode (bs : list N) : list N := utf8_decode_from None bs.

(** Conversion of a JavaScript string to a scalar value string. *)
Definition toUSVString (s : JsString) : JsString := utf16_encode (utf16_decode s).

(** *** The serializer *)

Definition is_form_safe (b : N) : bool :=
  (b =? 0x2A) || (b =? 0x2D) || (b =? 0x2E) || (b =? 0x5F) ||
  ((0x30 <=? b) && (b <=? 0x39)) ||
  ((0x41 <=? b) && (b <=? 0x5A)) ||
  ((0x61 <=? b) && (b <=? 0x7A)).

Definition hex_digit (n : N) : N := if n <? 10 then 0x30 + n else 0x37 + n.

Definition serialize_byte (b : N) : JsString :=
  if b =? 0x20 then [0x2B]
  else if is_form_safe b then [b]
  else [0x25; hex_digit (b / 16); hex_digit (b mod 16)].

Definition serialize_string (s : JsString) : JsString :=
  flat_map serialize_byte (utf8_encode (utf16_decode s)).

Definition URLSearchParams := list (JsString * JsString).

Definition serialize_pair (nv : JsString * JsString) : JsString :=
  serialize_string (fst nv) ++ lit "=" ++ serialize_string (snd nv).

(** [params.toString()] *)
Definition toString (params : URLSearchParams) : JsString :=
  join_with (lit "&") (map serialize_pair params).

(** [params.set(name, value)]: the first pair named [name] takes the
    value and the later ones go; without one, the pair is appended. *)
Fixpoint set_first (n v : JsString) (params : URLSearchParams) : option URLSearchParams :=
  match params with
  | [] => None
  | (n', v') :: rest =>
      if str_eqb n' n
      then Some ((n', v) :: filter (fun p => negb (str_eqb (fst p) n)) rest)
      else option_map (cons (n', v')) (set_first n v rest)
  end.

Definition set (params : URLSearchParams) (name value : JsString) : URLSearchParams :=
  let n := toUSVString name in
  let v := toUSVString value in
  match set_first n v params with
  | Some params' => params'
  | None => params ++ [(n, v)]
  end.

(** [params.get(name)]; [None] is [null]. *)
Fixpoint get (params : URLSearchParams) (name : JsString) : option JsString :=
  match params with
  | [] => None
  | (n, v) :: rest => if str_eqb n (toUSVString name) then Some v else get rest name
  end.

(** *** The parser *)

Definition is_hex (c : N) : bool :=
  ((0x30 <=? c) && (c <=? 0x39)) ||
  ((0x41 <=? c) && (c <=? 0x46)) ||
  ((0x61 <=? c) && (c <=? 0x66)).

Definition hex_value (c : N) : N :=
  if c <=? 0x39 then c - 0x30
  else if c <=? 0x46 then c - 0x37
  else c - 0x57.

Fixpoint percent_decode (bs : list N) : list N :=
  match bs with
  | [] => []
  | b :: bs' =>
      if b =? 0x25 then
        match bs' with
        | h1 :: h2 :: rest =>
            if is_hex h1 && is_hex h2
            then (hex_value h1 * 16 + hex_value h2) :: percent_decode rest
            else b :: percent_decode bs'
        | _ => b :: percent_decode bs'
        end
      else b :: percent_decode bs'
  end.

Definition plus_to_space (bs : list N) : list N :=
  map (fun b => if b =? 0x2B then 0x20 else b) bs.

Definition decode_component (bs : list N) : JsString :=
  utf16_encode (utf8_decode (percent_decode (plus_to_space bs))).

(** One [&]-separated sequence: the name is what precedes its first [=]. *)
Definition parse_pair (bs : list N) : JsString * JsString :=
  let (name, rest) := span (fun b => negb (b =? 0x3D)) bs in
  (decode_component name, decode_component (tl rest)).

Definition parse_bytes (bs : list N) : URLSearchParams :=
  map parse_pair
      (filter (fun seq => negb (is_empty seq)) (split_on 0x26 bs)).

(** [new URLSearchParams(init)] for a string [init]: a leading [?] is
    dropped. *)
Definition of_string (init : JsString) : URLSearchParams :=
  let input := match init with
               | c :: rest => if c =? CHAR_QUESTION then rest else init
               | [] => init
               end in
  parse_bytes (utf8_encode (utf16_decode input)).

End Url.

(** ** The request model, shared by the two variants of the plugin *)

Definition virtualLoaderName : JsString := lit "@embroider/rspack/src/virtual-loader".

(** [virtualLoaderPath], for the directory [__dirname] of the module. *)
Definition virtualLoaderPath (cwd __dirname : JsString) : JsString :=
  Path.resolve cwd [__dirname; lit "./virtual-loader.js"].

(** A value of type [any], as far as [typeof v === 'string'] tells. *)
Inductive Any : Type :=
| Str (s : JsString)
| NotStr.

(** [Record<string, any>] *)
Definition Meta := list (JsString * Any).

(** [state.contextInfo], with the fields the plugin reads, at the type the
    constructor declares: the issuer is a string, empty when there is
    none. *)
Record ContextInfo : Type := {
  issuer : JsString;
  _embroiderMeta : option Meta
}.

(** The resolution record the host hands to the hook.  The hook receives it
    untyped ([S := Any], [contextInfo] possibly missing); the constructor of
    the request declares it as [{request: string; context: string;
    contextInfo: {...}}]. *)
Record ResolveData (S C : Type) : Type := {
  request : S;
  context : S;
  contextInfo : C
}.
Arguments request {S C} _.
Arguments context {S C} _.
Arguments contextInfo {S C} _.

Definition RawState := ResolveData Any (option ContextInfo).
Definition State := ResolveData JsString ContextInfo.

(** An instance of the class.  Its [state] field is a reference to the
    host's record: every instance made during one resolution refers to the
    same record, which the functions below therefore take and return as the
    store. *)
Record RspackModuleRequest : Type := {
  babelLoaderPrefix : JsString;
  appRoot : JsString;
  isVirtual : bool;
  specifier : JsString;
  fromFile : JsString;
  meta : option Meta
}.

(** [new RspackModuleRequest(babelLoaderPrefix, appRoot, state, isVirtual)] *)
Definition new_RspackModuleRequest (prefix root : JsString) (state : State)
    (virt : bool) : RspackModuleRequest :=
  {| babelLoaderPrefix := prefix;
     appRoot := root;
     isVirtual := virt;
     specifier := request state;
     fromFile := issuer (contextInfo state);
     meta := _embroiderMeta (contextInfo state) |}.

Definition set_request {C} (state : ResolveData JsString C) (v : JsString) :=
  {| request := v; context := context state; contextInfo := contextInfo state |}.

Definition alias (this : RspackModuleRequest) (newSpecifier : JsString)
    (state : State) : RspackModuleRequest * State :=
  let state := set_request state newSpecifier in
  (new_RspackModuleRequest (babelLoaderPrefix this) (appRoot this) state false, state).

Definition rehome (this : RspackModuleRequest) (newFromFile : JsString)
    (state : State) : RspackModuleRequest * State :=
  if str_eqb (fromFile this) newFromFile then (this, state)
  else
    let state :=
      {| request := request state;
         context := Path.dirname newFromFile;
         contextInfo := {| issuer := newFromFile;
                           _embroiderMeta := _embroiderMeta (contextInfo state) |} |} in
    (new_RspackModuleRequest (babelLoaderPrefix this) (appRoot this) state false, state).

Definition virtualize (this : RspackModuleRequest) (filename : JsString)
    (state : State) : RspackModuleRequest * State :=
  let params := Url.set [] (lit "f") filename in
  let params := Url.set params (lit "a") (appRoot this) in
  let (next, state) :=
    alias this (babelLoaderPrefix this ++ virtualLoaderName ++ lit "?" ++
                Url.toString params ++ lit "!") state in
  ({| babelLoaderPrefix := babelLoaderPrefix next;
      appRoot := appRoot next;
      isVirtual := true;
      specifier := specifier next;
      fromFile := fromFile next;
      meta := meta next |}, state).

Definition withMeta (this : RspackModuleRequest) (m : option Meta)
    (state : State) : RspackModuleRequest * State :=
  let state :=
    {| request := request state;
       context := context state;
       contextInfo := {| issuer := issuer (contextInfo state);
                         _embroiderMeta := m |} |} in
  (new_RspackModuleRequest (babelLoaderPrefix this) (appRoot this) state false, state).

(** What [from] does with a record. *)
Inductive Construction : Type :=
| Declined
| Constructed (r : RspackModuleRequest) (state : State)
| Thrown.

(** *** Outcomes *)

Record Error : Type := { message : JsString }.

(** [Resolution<null, null | Error>] *)
Inductive Resolution : Type :=
| found
| not_found (err : option Error).

(** How the promise of the resolver engine settles. *)
Inductive Settled : Type :=
| Fulfilled (resolution : Resolution)
| Rejected (err : Error).

(** The arguments of one call of the host's completion callback. *)
Inductive CallbackArgs : Type :=
| NoArgs
| WithNull
| WithError (err : Error).

(** What the tap does with a record. *)
Inductive HookResult : Type :=
| Called (args : CallbackArgs)
| Delegated (state : RawState)
| Uncaught.

(** ** The context tracker: a [Map<string, string>] in insertion order *)

Definition Tracker := list (JsString * JsString).

Fixpoint map_set (m : Tracker) (k v : JsString) : Tracker :=
  match m with
  | [] => [(k, v)]
  | (k', v') :: m' =>
      if str_eqb k' k then (k', v) :: m' else (k', v') :: map_set m' k v
  end.

Fixpoint map_get (m : Tracker) (k : JsString) : option JsString :=
  match m with
  | [] => None
  | (k', v') :: m' => if str_eqb k' k then Some v' else map_get m' k
  end.

(** The body of the two [try] blocks that record a virtual module: parse
    the query, and when it has a non-empty [f], map its directory to it. *)
Definition track_virtual_module (query : JsString) (virtualModuleContexts : Tracker)
    : Tracker :=
  match Url.get (Url.of_string query) (lit "f") with
  | Some filename =>
      if is_empty filename then virtualModuleContexts
      else map_set virtualModuleContexts (Path.dirname filename) filename
  | None => virtualModuleContexts
  end.

Definition not_bang (c : N) : bool := negb (c =? CHAR_BANG).

(** The record of a constructed request, seen again as the host sees it. *)
Definition to_raw (state : State) : RawState :=
  {| request := Str (request state);
     context := Str (context state);
     contextInfo := Some (contextInfo state) |}.

(** [state.contextInfo.issuer = v], after [if (!state.contextInfo)
    state.contextInfo = { issuer: '' }]. *)
Definition set_issuer (state : RawState) (v : JsString) : RawState :=
  {| request := request state;
     context := context state;
     contextInfo :=
       Some {| issuer := v;
               _embroiderMeta :=
                 match contextInfo state with
                 | Some ci => _embroiderMeta ci
                 | None => None
                 end |} |}.

(** ** The factory-level tap: [rspack-resolver-plugin.ts] *)

Module FactoryTap.

(** [s.match(/\?([^!]+)/)]: the capture group of the leftmost match. *)
Fixpoint queryMatch (s : JsString) : option JsString :=
  match s with
  | [] => None
  | c :: s' =>
      if c =? CHAR_QUESTION then
        let run := fst (span not_bang s') in
        if is_empty run then queryMatch s' else Some run
      else queryMatch s'
  end.

Definition is_implicit_modules_file (filename : JsString) : bool :=
  includes filename (lit "rewritten-app") &&
  includes filename (lit "-embroider-implicit-modules.js").

(** The loop over [virtualModuleContexts.entries()] and the heuristic on
    the context that follows it. *)
Definition fallbackIssuer (ctx : JsString) (virtualModuleContexts : Tracker)
    : option JsString :=
  match find (fun e => is_implicit_modules_file (snd e)) virtualModuleContexts with
  | Some (_, filename) => Some filename
  | None =>
      if includes ctx (lit "rewritten-app")
      then Some (ctx ++ lit "/-embroider-implicit-modules.js")
      else None
  end.

(** The block that fixes a missing issuer; [None] is its
    [return undefined]. *)
Definition fix_missing_issuer (req ctx : JsString) (state : RawState)
    (virtualModuleContexts : Tracker) : option RawState :=
  let missing :=
    match contextInfo state with
    | None => true
    | Some ci => is_empty (issuer ci)
    end in
  if missing then
    if includes req (lit "-embroider-implicit-") then
      match fallbackIssuer ctx virtualModuleContexts with
      | Some f => Some (set_issuer state f)
      | None => Some state
      end
    else
      match map_get virtualModuleContexts ctx with
      | Some virtualModule =>
          if is_empty virtualModule then None
          else Some (set_issuer state virtualModule)
      | None => None
      end
  else Some state.

Definition from (state : RawState) (babelLoaderPrefix appRoot : JsString)
    (virtualModuleContexts : Tracker) : Construction * RawState * Tracker :=
  match request state, context state with
  | Str req, Str ctx =>
      if includes req virtualLoaderName then
        let tracked :=
          match queryMatch req with
          | Some q => track_virtual_module q virtualModuleContexts
          | None => virtualModuleContexts
          end in
        (Declined, state, tracked)
      else if startsWith req (lit "!") then
        (Declined, state, virtualModuleContexts)
      else
        match fix_missing_issuer req ctx state virtualModuleContexts with
        | None => (Declined, state, virtualModuleContexts)
        | Some state =>
            let hasValidIssuer :=
              match contextInfo state with
              | Some ci => negb (is_empty (issuer ci))
              | None => false
              end in
            let isImplicitModulesRequest :=
              includes req (lit "-embroider-implicit-") in
            if hasValidIssuer || isImplicitModulesRequest then
              match contextInfo state with
              | Some ci =>
                  let typed := {| request := req; context := ctx; contextInfo := ci |} in
                  (Constructed
                     (new_RspackModuleRequest babelLoaderPrefix appRoot typed false)
                     typed,
                   state, virtualModuleContexts)
              | None => (Thrown, state, virtualModuleContexts)
              end
            else (Declined, state, virtualModuleContexts)
        end
  | _, _ => (Declined, state, virtualModuleContexts)
  end.

(** *** The fallback resolver *)

(** The second argument the native resolver gives its callback. *)
Inductive NativeResult : Type :=
| ResolvedTo (path : JsString)
| ResultFalse
| ResultUndefined.

Definition result_is_falsy (r : NativeResult) : bool :=
  match r with
  | ResolvedTo p => is_empty p
  | _ => true
  end.

(** A field of a parsed manifest: missing, a string, or another JSON
    value, of which only the truthiness matters. *)
Inductive Field : Type :=
| Absent
| Text (s : JsString)
| Other (truthy : bool).

Record PackageJson : Type := {
  module : Field;
  main : Field
}.

(** What the fallback resolver reads from its environment: the host's
    [normal] resolver, the file system and the working directory.
    [readPackageJson p] is [JSON.parse(fs.readFileSync(p, 'utf-8'))] as
    far as the two fields go, [None] when that throws (also when a
    property of a [null] manifest is read). *)
Record World : Type := {
  resolver : JsString -> JsString -> option Error * NativeResult;
  existsSync : JsString -> bool;
  readPackageJson : JsString -> option PackageJson;
  cwd : JsString
}.

(** What the fallback resolver asks of its environment, in order. *)
Inductive Event : Type :=
| NativeResolve (context request : JsString)
| ExistsSync (path : JsString)
| ReadFile (path : JsString).

Definition not_slash (c : N) : bool := negb (is_slash c).
Definition not_line_terminator (c : N) : bool := negb (is_line_terminator c).

(** [[^/]+\/[^/]+] at the start of [s]: the text matched and the rest. *)
Definition two_segments (s : JsString) : option (JsString * JsString) :=
  let (a, r) := span not_slash s in
  match a, r with
  | _ :: _, c :: r' =>
      let (b, r'') := span not_slash r' in
      if is_empty b then None else Some (a ++ [c] ++ b, r'')
  | _, _ => None
  end.

(** [(@?[^/]+\/[^/]+)] followed by [tail]: first with the [@] taken by
    [@?], then without. *)
Definition package_then {A} (tail : JsString -> option A) (s : JsString)
    : option (JsString * A) :=
  let attempt (at_sign s' : JsString) :=
    match two_segments s' with
    | Some (pkg, r) =>
        match tail r with
        | Some x => Some (at_sign ++ pkg, x)
        | None => None
        end
    | None => None
    end in
  let with_at :=
    match s with
    | c :: s' => if c =? CHAR_AT then attempt [c] s' else None
    | [] => None
    end in
  match with_at with
  | Some m => Some m
  | None => attempt [] s
  end.

(** [/^(@?[^/]+\/[^/]+)\/(.+)$/]: package name and subpath. *)
Definition subpathMatch (s : JsString) : option (JsString * JsString) :=
  package_then
    (fun r =>
       match r with
       | c :: rest =>
           if is_slash c && negb (is_empty rest) && forallb not_line_terminator rest
           then Some rest else None
       | [] => None
       end) s.

(** [/^(@?[^/]+\/[^/]+)$/]: package name. *)
Definition rootMatch (s : JsString) : option JsString :=
  option_map fst
    (package_then (fun r => if is_empty r then Some tt else None) s).

Definition candidatePackageDirs (context packageName : JsString) : list JsString :=
  [ Path.join [context; lit "node_modules"; packageName];
    Path.join [context; lit ".."; lit "node_modules"; packageName];
    Path.join [context; lit ".."; lit ".."; lit "node_modules"; packageName] ].

Definition candidatePaths (packageDir subpath : JsString) : list JsString :=
  [ Path.join [packageDir; lit "src"; subpath ++ lit ".js"];
    Path.join [packageDir; lit "src"; subpath ++ lit ".ts"];
    Path.join [packageDir; lit "src"; subpath; lit "index.js"];
    Path.join [packageDir; lit "src"; subpath; lit "index.ts"];
    Path.join [packageDir; subpath ++ lit ".js"];
    Path.join [packageDir; subpath ++ lit ".ts"];
    Path.join [packageDir; subpath; lit "index.js"];
    Path.join [packageDir; subpath; lit "index.ts"] ].

(** [for (const candidatePath of candidatePaths)]: the first existing
    path, and the probes made. *)
Fixpoint probe_paths (w : World) (paths : list JsString)
    : option JsString * list Event :=
  match paths with
  | [] => (None, [])
  | p :: rest =>
      if existsSync w p then (Some p, [ExistsSync p])
      else let (r, t) := probe_paths w rest in (r, ExistsSync p :: t)
  end.

(** [for (const packageDir of candidatePackageDirs)] of a subpath import. *)
Fixpoint probe_subpath (w : World) (dirs : list JsString) (subpath : JsString)
    : option JsString * list Event :=
  match dirs with
  | [] => (None, [])
  | packageDir :: rest =>
      if existsSync w packageDir then
        match probe_paths w (candidatePaths packageDir subpath) with
        | (Some p, t) => (Some p, ExistsSync packageDir :: t)
        | (None, t) =>
            let (r, t') := probe_subpath w rest subpath in
            (r, ExistsSync packageDir :: t ++ t')
        end
      else
        let (r, t') := probe_subpath w rest subpath in
        (r, ExistsSync packageDir :: t')
  end.

(** [Boolean(v)] for a field of the manifest. *)
Definition truthy (f : Field) : bool :=
  match f with
  | Absent => false
  | Text s => negb (is_empty s)
  | Other b => b
  end.

Definition entryPoints (packageJson : PackageJson) : list Field :=
  filter truthy
    [ module packageJson; main packageJson;
      Text (lit "src/index.js"); Text (lit "src/index.ts");
      Text (lit "index.js"); Text (lit "index.ts") ].

(** [for (const entryPoint of entryPoints)]; [path.resolve] throws on an
    entry that is not a string, which ends the [try] block. *)
Fixpoint probe_entry_points (w : World) (packageDir : JsString)
    (entries : list Field) : option JsString * list Event :=
  match entries with
  | Text entryPoint :: rest =>
      let entryPath := Path.resolve (cwd w) [packageDir; entryPoint] in
      if existsSync w entryPath then (Some entryPath, [ExistsSync entryPath])
      else
        let (r, t) := probe_entry_points w packageDir rest in
        (r, ExistsSync entryPath :: t)
  | _ => (None, [])
  end.

(** The body of the loop of a root import for one existing [packageDir]. *)
Definition probe_manifest (w : World) (packageDir : JsString)
    : option JsString * list Event :=
  let packageJsonPath := Path.join [packageDir; lit "package.json"] in
  if existsSync w packageJsonPath then
    match readPackageJson w packageJsonPath with
    | Some packageJson =>
        let (r, t) := probe_entry_points w packageDir (entryPoints packageJson) in
        (r, ExistsSync packageJsonPath :: ReadFile packageJsonPath :: t)
    | None => (None, [ExistsSync packageJsonPath; ReadFile packageJsonPath])
    end
  else (None, [ExistsSync packageJsonPath]).

(** [for (const packageDir of candidatePackageDirs)] of a root import. *)
Fixpoint probe_root (w : World) (dirs : list JsString)
    : option JsString * list Event :=
  match dirs with
  | [] => (None, [])
  | packageDir :: rest =>
      if existsSync w packageDir then
        match probe_manifest w packageDir with
        | (Some p, t) => (Some p, ExistsSync packageDir :: t)
        | (None, t) =>
            let (r, t') := probe_root w rest in
            (r, ExistsSync packageDir :: t ++ t')
        end
      else
        let (r, t') := probe_root w rest in
        (r, ExistsSync packageDir :: t')
  end.

(** [err && err.message && err.message.includes('PackagePathNotExported')] *)
Definition is_PackagePathNotExported (err : option Error) : bool :=
  match err with
  | Some e =>
      negb (is_empty (message e)) &&
      includes (message e) (lit "PackagePathNotExported")
  | None => false
  end.

(** [err || new Error(`Module not found: ${requestToResolve}`)] *)
Definition err_or_module_not_found (err : option Error)
    (requestToResolve : JsString) : Error :=
  match err with
  | Some e => e
  | None => {| message := lit "Module not found: " ++ requestToResolve |}
  end.

(** [s.match(new RegExp(escapeRegExp(virtualLoaderName) + '\\?([^!]+)'))] *)
Fixpoint virtualLoaderMatch (s : JsString) : option JsString :=
  let prefix := virtualLoaderName ++ lit "?" in
  let here :=
    if startsWith s prefix then
      let run := fst (span not_bang (skipn (length prefix) s)) in
      if is_empty run then None else Some run
    else None in
  match here with
  | Some q => Some q
  | None =>
      match s with
      | [] => None
      | _ :: s' => virtualLoaderMatch s'
      end
  end.

(** What one call of the fallback resolver leaves behind: the value its
    promise resolves to, the record, the tracker, and what it asked of
    its environment. *)
Record Fallback : Type := {
  resolution : Resolution;
  state_after : State;
  tracker_after : Tracker;
  events : list Event
}.

(** The manual resolution after a [PackagePathNotExported] failure;
    [None] when the specifier matches neither pattern. *)
Definition manual_resolution (w : World) (context requestToResolve : JsString)
    (err : option Error) (state : State) (virtualModuleContexts : Tracker)
    (before : list Event) : option Fallback :=
  let finish (r : option JsString * list Event) :=
    match r with
    | (Some p, t) =>
        {| resolution := found;
           state_after := set_request state p;
           tracker_after := virtualModuleContexts;
           events := before ++ t |}
    | (None, t) =>
        {| resolution := not_found (Some (err_or_module_not_found err requestToResolve));
           state_after := state;
           tracker_after := virtualModuleContexts;
           events := before ++ t |}
    end in
  match subpathMatch requestToResolve with
  | Some (packageName, subpath) =>
      Some (finish (probe_subpath w (candidatePackageDirs context packageName) subpath))
  | None =>
      match rootMatch requestToResolve with
      | Some packageName =>
          Some (finish (probe_root w (candidatePackageDirs context packageName)))
      | None => None
      end
  end.

Definition getAdaptedResolve (w : World) (req : RspackModuleRequest)
    (state : State) (virtualModuleContexts : Tracker) : Fallback :=
  let context := Path.dirname (fromFile req) in
  let requestToResolve := request state in
  if includes requestToResolve (lit "!") then
    let tracked :=
      if includes requestToResolve virtualLoaderName then
        match virtualLoaderMatch requestToResolve with
        | Some q => track_virtual_module q virtualModuleContexts
        | None => virtualModuleContexts
        end
      else virtualModuleContexts in
    {| resolution := found;
       state_after := state;
       tracker_after := tracked;
       events := [] |}
  else
    let (err, result) := resolver w context requestToResolve in
    let asked := [NativeResolve context requestToResolve] in
    let failed :=
      {| resolution := not_found (Some (err_or_module_not_found err requestToResolve));
         state_after := state;
         tracker_after := virtualModuleContexts;
         events := asked |} in
    if (match err with Some _ => true | None => false end) || result_is_falsy result
    then
      if is_PackagePathNotExported err then
        match manual_resolution w context requestToResolve err state
                virtualModuleContexts asked with
        | Some f => f
        | None => failed
        end
      else failed
    else
      {| resolution := found;
         state_after := state;
         tracker_after := virtualModuleContexts;
         events := asked |}.

(** The resolver engine of [@embroider/core], which the plugin only
    calls: given the fallback resolver, a request and the store, the way
    its promise settles and the store it leaves. *)
Definition Engine : Type :=
  (RspackModuleRequest -> State -> Tracker -> Fallback) ->
  RspackModuleRequest -> State -> Tracker -> Settled * State * Tracker.

(** The two continuations given to [then]. *)
Definition on_settled (s : Settled) : CallbackArgs :=
  match s with
  | Fulfilled (not_found _) => NoArgs
  | Fulfilled found => WithNull
  | Rejected err => WithError err
  end.

(** The function tapped on [normalModuleFactory.hooks.resolve]: what it
    does with the callback, and the record and tracker it leaves. *)
Definition resolve_tap (resolve : Engine) (w : World)
    (babelLoaderPrefix appRoot : JsString) (state : RawState)
    (virtualModuleContexts : Tracker) : HookResult * RawState * Tracker :=
  match from state babelLoaderPrefix appRoot virtualModuleContexts with
  | (Declined, state, tracker) => (Called NoArgs, state, tracker)
  | (Thrown, state, tracker) => (Uncaught, state, tracker)
  | (Constructed req typed, _, tracker) =>
      match resolve (getAdaptedResolve w) req typed tracker with
      | (settled, typed, tracker) =>
          (Called (on_settled settled), to_raw typed, tracker)
      end
  end.

End FactoryTap.

(** ** The compilation-level tap: the second variant of the plugin *)

Module CompilationTap.

(** [dep._parentModule?.userRequest] is all that is read of a dependency. *)
Record ParentModule : Type := { userRequest : JsString }.
Record Dependency : Type := { _parentModule : option ParentModule }.

(** [(?<query>.+)!] on a run without line terminators: the longest
    non-empty prefix that a [!] follows. *)
Fixpoint query_before_bang (run : JsString) : option JsString :=
  match run with
  | [] => None
  | c :: run' =>
      match query_before_bang run' with
      | Some q => Some (c :: q)
      | None =>
          match run' with
          | d :: _ => if d =? CHAR_BANG then Some [c] else None
          | [] => None
          end
      end
  end.

(** [virtualRequestPattern.exec(s)]: the [query] group of the leftmost
    match; the pattern is the escaped [path], [\?], [(?<query>.+)], [!]. *)
Fixpoint virtualRequestPattern_exec (path s : JsString) : option JsString :=
  let prefix := path ++ lit "?" in
  let here :=
    if startsWith s prefix then
      query_before_bang
        (fst (span (fun c => negb (is_line_terminator c))
                   (skipn (length prefix) s)))
    else None in
  match here with
  | Some q => Some q
  | None =>
      match s with
      | [] => None
      | _ :: s' => virtualRequestPattern_exec path s'
      end
  end.

(** The argument of [exec], converted to a string. *)
Definition exec_argument (dep : Dependency) : JsString :=
  match _parentModule dep with
  | Some m => userRequest m
  | None => lit "undefined"
  end.

(** [for (let dep of state.dependencies)]; [None] when an iteration
    throws: the record has no [contextInfo] to assign to, or the query
    has no [f] and [dirname] is given [null]. *)
Fixpoint adjust_issuer (path : JsString) (deps : list Dependency)
    (state : RawState) : option RawState :=
  match deps with
  | [] => Some state
  | dep :: rest =>
      match virtualRequestPattern_exec path (exec_argument dep) with
      | Some query =>
          match contextInfo state, Url.get (Url.of_string query) (lit "f") with
          | Some ci, Some f =>
              adjust_issuer path rest
                {| request := request state;
                   context := Str (Path.dirname f);
                   contextInfo :=
                     Some {| issuer := f; _embroiderMeta := _embroiderMeta ci |} |}
          | _, _ => None
          end
      | None => adjust_issuer path rest state
      end
  end.

(** The record as the same loop has left it when one of its iterations
    throws.  Without [contextInfo] the assignment itself throws, and the
    record is what the earlier iterations made of it.  With a query
    without [f] the issuer has been assigned ([null]: no string is stored,
    which the empty issuer stands for here, every test of the issuer
    treating the two alike) before [dirname] throws; the context is still
    that of the earlier iterations. *)
Fixpoint record_at_throw (path : JsString) (deps : list Dependency)
    (state : RawState) : RawState :=
  match deps with
  | [] => state
  | dep :: rest =>
      match virtualRequestPattern_exec path (exec_argument dep) with
      | Some query =>
          match contextInfo state, Url.get (Url.of_string query) (lit "f") with
          | Some ci, Some f =>
              record_at_throw path rest
                {| request := request state;
                   context := Str (Path.dirname f);
                   contextInfo :=
                     Some {| issuer := f; _embroiderMeta := _embroiderMeta ci |} |}
          | Some ci, None =>
              {| request := request state;
                 context := context state;
                 contextInfo :=
                   Some {| issuer := lit ""; _embroiderMeta := _embroiderMeta ci |} |}
          | None, _ => state
          end
      | None => record_at_throw path rest state
      end
  end.

(** [from], for a record whose [dependencies] field is [dependencies]
    ([None] when it is not an array).  With [Thrown] comes the record as
    the loop over the dependencies left it. *)
Definition from (virtualLoaderPath : JsString) (state : RawState)
    (dependencies : option (list Dependency))
    (babelLoaderPrefix appRoot : JsString) : Construction * RawState :=
  let missing :=
    match contextInfo state with
    | None => true
    | Some ci => is_empty (issuer ci)
    end in
  let adjusted :=
    match dependencies with
    | Some deps => if missing then adjust_issuer virtualLoaderPath deps state else Some state
    | None => Some state
    end in
  match adjusted with
  | None =>
      (Thrown,
       match dependencies with
       | Some deps => record_at_throw virtualLoaderPath deps state
       | None => state
       end)
  | Some state =>
      match request state, context state, contextInfo state with
      | Str req, Str ctx, Some ci =>
          if negb (is_empty (issuer ci)) &&
             negb (includes req virtualLoaderName) &&
             negb (startsWith req (lit "!"))
          then
            let typed := {| request := req; context := ctx; contextInfo := ci |} in
            (Constructed
               (new_RspackModuleRequest babelLoaderPrefix appRoot typed false) typed,
             state)
          else (Declined, state)
      | _, _, _ => (Declined, state)
      end
  end.

(** The host's own tap, found by [getDefaultResolveHook]: the error it
    gives its callback, and the record as it leaves it. *)
Definition DefaultResolve : Type := State -> option Error * State.

Definition getAdaptedResolve (defaultResolve : DefaultResolve)
    (req : RspackModuleRequest) (state : State) : Resolution * State :=
  match defaultResolve state with
  | (Some err, state) => (not_found (Some err), state)
  | (None, state) => (found, state)
  end.

Definition Engine : Type :=
  (RspackModuleRequest -> State -> Resolution * State) ->
  RspackModuleRequest -> State -> Settled * State.

(** The two continuations given to [then]. *)
Definition on_settled (s : Settled) : CallbackArgs :=
  match s with
  | Fulfilled (not_found (Some err)) => WithError err
  | Fulfilled (not_found None) => WithNull
  | Fulfilled found => WithNull
  | Rejected err => WithError err
  end.

(** The function tapped on [normalModuleFactory.hooks.resolve]; a
    declined record goes to the host's own tap with the callback. *)
Definition resolve_tap (resolve : Engine) (defaultResolve : DefaultResolve)
    (virtualLoaderPath babelLoaderPrefix appRoot : JsString)
    (state : RawState) (dependencies : option (list Dependency))
    : HookResult * RawState :=
  match from virtualLoaderPath state dependencies babelLoaderPrefix appRoot with
  | (Declined, state) => (Delegated state, state)
  | (Thrown, state) => (Uncaught, state)
  | (Constructed req typed, _) =>
      match resolve (getAdaptedResolve defaultResolve) req typed with
      | (settled, typed) => (Called (on_settled settled), to_raw typed)
      end
  end.

End CompilationTap.


(** ** Concrete environments, used to run the definitions *)

Module Examples.



(** A world with the files [files], where every manifest parses to
    [manifest] and the native resolver fails every request with [err]. *)
Definition failing_world (files : list JsString)
    (manifest : FactoryTap.PackageJson) (err : Error) : FactoryTap.World :=
  {| FactoryTap.resolver := fun _ _ => (Some err, FactoryTap.ResultUndefined);
     FactoryTap.existsSync := fun p => existsb (str_eqb p) files;
     FactoryTap.readPackageJson := fun _ => Some manifest;
     FactoryTap.cwd := lit "/cwd" |}.

Definition no_manifest : FactoryTap.PackageJson :=
  {| FactoryTap.module := FactoryTap.Absent; FactoryTap.main := FactoryTap.Absent |}.

Definition cannot_resolve : Error := {| message := lit "Can't resolve module" |}.

Definition not_exported : Error :=
  {| message := lit "PackagePathNotExported: path is not exported" |}.

(** A record for the import of [req] by the file [from_file]. *)
Definition import (req from_file : JsString) : State :=
  {| request := req;
     context := Path.dirname from_file;
     contextInfo := {| issuer := from_file; _embroiderMeta := None |} |}.

Definition request_of (state : State) : RspackModuleRequest :=
  new_RspackModuleRequest (lit "babel-loader!") (lit "/app") state false.

End Examples.

(** ** Notions used to state the properties *)

(** Every filename the plugin records is non-empty: the trackers it
    builds satisfy [tracker_ok]. *)
Definition tracker_ok (m : Tracker) : Prop :=
  forall k v, map_get m k = Some v -> is_empty v = false.

(** All the candidate files of a subpath import, in the order of the two
    nested loops: for each candidate package directory that exists, its
    candidate paths. *)
Definition subpath_candidates (w : FactoryTap.World) (dirs : list JsString)
    (subpath : JsString) : list JsString :=
  flat_map (fun packageDir =>
              if FactoryTap.existsSync w packageDir
              then FactoryTap.candidatePaths packageDir subpath
              else []) dirs.

Definition missing (w : FactoryTap.World) (p : JsString) : bool :=
  negb (FactoryTap.existsSync w p).

(** The units of a string are 16-bit. *)
Definition code_units (s : JsString) : bool :=
  forallb (fun c => c <? 0x10000) s.

(** [s.isWellFormed()]: no surrogate of [s] is unpaired. *)
Fixpoint isWellFormed (s : JsString) : bool :=
  match s with
  | [] => true
  | c :: s' =>
      if Url.is_high_surrogate c then
        match s' with
        | d :: s'' => Url.is_low_surrogate d && isWellFormed s''
        | [] => false
        end
      else negb (Url.is_low_surrogate c) && isWellFormed s'
  end.

(** Unicode scalar values: the code points that are not surrogates. *)
Definition is_scalar_value (cp : N) : bool :=
  (cp <? 0xD800) || ((0xDFFF <? cp) && (cp <? 0x110000)).

Definition is_byte (b : N) : bool := b <? 256.

(** The units a serialized string is made of: [+], [%] and the units the
    serializer leaves as they are. *)
Definition form_unit (c : N) : bool :=
  (c =? 0x2B) || (c =? 0x25) || Url.is_form_safe c.

(** The units of one serialized pair: ASCII, and neither [&] nor [?]. *)
Definition pair_unit (c : N) : bool :=
  (c <? 0x80) && negb (c =? 0x26) && negb (c =? CHAR_QUESTION).

(** A segment that [normalizeString] keeps as it is. *)
Definition normal_segment (seg : JsString) : bool :=
  negb (is_empty seg) && negb (str_eqb seg (lit ".")) &&
  negb (str_eqb seg (lit "..")) && forallb FactoryTap.not_slash seg.

(** An absolute path in normal form: [/] and then segments that
    [normalizeString] keeps, separated by one [/] each. *)
Definition normal_absolute (p : JsString) : bool :=
  match p with
  | c :: rest => is_slash c && forallb normal_segment (split_on CHAR_FORWARD_SLASH rest)
  | [] => false
  end.

(** The query of a virtualized specifier for the file [filename] of the
    app [root]. *)
Definition virtual_query (filename root : JsString) : JsString :=
  lit "f=" ++ Url.serialize_string filename ++
  lit "&a=" ++ Url.serialize_string root.

(** ** Setting the plugin up *)

Module Setup.

(** [compiler.options.resolveLoader.alias]: an array of entries, an object
    from names to aliases (its keys in insertion order), or a falsy
    value. *)
Inductive LoaderAlias : Type :=
| AliasArray (entries : list (JsString * JsString))
| AliasObject (entries : list (JsString * JsString))
| AliasFalsy.

(** [#addLoaderAlias(compiler, name, alias)], the same in both variants:
    what it leaves in [resolveLoader.alias]. *)
Definition addLoaderAlias (current : LoaderAlias) (name alias : JsString)
    : LoaderAlias :=
  match current with
  | AliasArray entries => AliasArray (entries ++ [(name, alias)])
  | AliasObject entries => AliasObject (map_set entries name alias)
  | AliasFalsy => AliasObject [(name, alias)]
  end.

(** A tap of a hook, with the function it registered. *)
Record Tap (F : Type) : Type := {
  name : JsString;
  fn : F
}.
Arguments name {F} _.
Arguments fn {F} _.

(** [getDefaultResolveHook(taps)] of the compilation-level tap; [None]
    when [taps.find] finds nothing and the destructuring of [undefined]
    throws. *)
Definition getDefaultResolveHook {F} (taps : list (Tap F)) : option F :=
  option_map fn
    (find (fun t => str_eqb (name t) (lit "NormalModuleFactory")) taps).

End Setup.

(** The instance reflects the record: its snapshot fields are the current
    fields of the record. *)
Definition in_sync (r : RspackModuleRequest) (state : State) : Prop :=
  specifier r = request state /\
  fromFile r = issuer (contextInfo state) /\
  meta r = _embroiderMeta (contextInfo state).

(** Every key of [m] is a key of [m']. *)
Definition keys_kept (m m' : Tracker) : Prop :=
  forall k v, map_get m k = Some v -> exists v', map_get m' k = Some v'.

(** The tracker [m'] is [m], or [m] after recording one non-empty
    filename under its directory. *)
Definition tracked_at_most_one (m m' : Tracker) : Prop :=
  m' = m \/
  exists filename,
    is_empty filename = false /\ m' = map_set m (Path.dirname filename) filename.

Definition not_question (c : N) : bool := negb (c =? CHAR_QUESTION).

(** The record has no issuer: [!state.contextInfo?.issuer]. *)
Definition issuer_missing (state : RawState) : bool :=
  match contextInfo state with
  | Some ci => is_empty (issuer ci)
  | None => true
  end.

(** A specifier that passes the guards of [from] before the issuer is
    looked at. *)
Definition ordinary_specifier (req : JsString) : bool :=
  negb (includes req virtualLoaderName) && negb (startsWith req (lit "!")).

(** * Properties *)

(** ** Strings and the tracker *)

Lemma str_eqb_eq (a b : JsString) : str_eqb a b = true <-> a = b.
Proof.
  revert b; induction a as [|x a IH]; intros [|y b]; simpl; split;
    try congruence; try discriminate; auto.
  - intros H. apply andb_true_iff in H as [Hx Hab].
    apply N.eqb_eq in Hx. apply IH in Hab. congruence.
  - intros H. injection H as -> ->. rewrite N.eqb_refl. simpl. now apply IH.
Qed.

Lemma str_eqb_refl (a : JsString) : str_eqb a a = true.
Proof. now apply str_eqb_eq. Qed.



Lemma is_empty_app_r (a b : JsString) : is_empty b = false -> is_empty (a ++ b) = false.
Proof. destruct a; simpl; auto. Qed.

Lemma startsWith_app (s p q : JsString) :
  startsWith s (p ++ q) = true -> startsWith s p = true.
Proof.
  revert s; induction p as [|c p IH]; intros s; simpl; [reflexivity|].
  destruct s as [|d s]; [discriminate|].
  intros H. apply andb_true_iff in H as [-> H]. simpl. now apply IH.
Qed.

Lemma map_get_set_same (m : Tracker) (k v : JsString) :
  map_get (map_set m k v) k = Some v.
Proof.
  induction m as [|[k' v'] m IH]; simpl.
  - now rewrite str_eqb_refl.
  - destruct (str_eqb k' k) eqn:E; simpl; rewrite E; auto.
Qed.

Lemma tracker_ok_nil : tracker_ok [].
Proof. intros k v H; discriminate. Qed.

Lemma map_get_set_other (m : Tracker) (k k' v : JsString) :
  str_eqb k k' = false -> map_get (map_set m k v) k' = map_get m k'.
Proof.
  intros Hk. induction m as [|[k0 v0] m IH]; simpl.
  - now rewrite Hk.
  - destruct (str_eqb k0 k) eqn:E; simpl.
    + apply str_eqb_eq in E. subst k0. now rewrite Hk.
    + now rewrite IH.
Qed.

Lemma tracker_ok_set (m : Tracker) (k v : JsString) :
  tracker_ok m -> is_empty v = false -> tracker_ok (map_set m k v).
Proof.
  intros Hm Hv k' v' H.
  destruct (str_eqb k k') eqn:E.
  - apply str_eqb_eq in E. subst k'. rewrite map_get_set_same in H. congruence.
  - rewrite map_get_set_other in H by exact E. eauto.
Qed.

Lemma tracker_ok_track (q : JsString) (m : Tracker) :
  tracker_ok m -> tracker_ok (track_virtual_module q m).
Proof.
  intros Hm. unfold track_virtual_module.
  destruct (Url.get _ _) as [f|]; [|exact Hm].
  destruct (is_empty f) eqn:E; [exact Hm|].
  now apply tracker_ok_set.
Qed.

(** ** The platform, on examples *)

Example dirname_examples :
  map Path.dirname
      [lit "/app/foo.js"; lit "/a"; lit "a"; lit ""; lit "//a"; lit "a//b";
       lit "/a/b/"; lit "a/b///"; lit "/"]
  = [lit "/app"; lit "/"; lit "."; lit "."; lit "//"; lit "a/";
     lit "/a"; lit "a"; lit "/"].
Proof. reflexivity. Qed.

Example join_examples :
  Path.join [lit "/app/lib"; lit ".."; lit "node_modules"; lit "@scope/pkg"]
    = lit "/app/node_modules/@scope/pkg" /\
  Path.join [lit "/"; lit ".."; lit ".."; lit "node_modules"; lit "pkg"]
    = lit "/node_modules/pkg" /\
  Path.join [lit "."; lit ".."; lit "node_modules"; lit "pkg"]
    = lit "../node_modules/pkg" /\
  Path.join [lit "/p"; lit "src"; lit "../../x" ++ lit ".js"] = lit "/x.js".
Proof. repeat split. Qed.

Example resolve_examples :
  Path.resolve (lit "/cwd") [lit "/p/pkg"; lit "./index.js"] = lit "/p/pkg/index.js" /\
  Path.resolve (lit "/cwd") [lit "/p/pkg"; lit "/abs/main.js"] = lit "/abs/main.js" /\
  Path.resolve (lit "/cwd") [lit "node_modules/pkg"; lit "dist/../main.js"]
    = lit "/cwd/node_modules/pkg/main.js".
Proof. repeat split. Qed.

Example URLSearchParams_examples :
  Url.toString (Url.set (Url.set [] (lit "f") (lit "/app/foo bar.js"))
                        (lit "a") (lit "/app+&=%~"))
    = lit "f=%2Fapp%2Ffoo+bar.js&a=%2Fapp%2B%26%3D%25%7E" /\
  Url.toString (Url.set [] (lit "f") [0xE9; 0x20AC; 0xD83D; 0xDE00])
    = lit "f=%C3%A9%E2%82%AC%F0%9F%98%80" /\
  Url.of_string (lit "?f=%C3%A9%ff%zz&&x&=y&f=2")
    = [(lit "f", [0xE9; 0xFFFD; 0x25; 0x7A; 0x7A]); (lit "x", []);
       ([], lit "y"); (lit "f", lit "2")] /\
  Url.get (Url.of_string (lit "f=/app/foo.js&a=/app")) (lit "f") = Some (lit "/app/foo.js").
Proof. repeat split. Qed.

Example pattern_examples :
  FactoryTap.subpathMatch (lit "@scope/pkg/deep/path")
    = Some (lit "@scope/pkg", lit "deep/path") /\
  FactoryTap.rootMatch (lit "@scope/pkg") = Some (lit "@scope/pkg") /\
  FactoryTap.subpathMatch (lit "@scope/pkg") = None /\
  FactoryTap.rootMatch (lit "@scope/pkg/deep") = None /\
  FactoryTap.queryMatch (lit "a?!b?f=1&a=2!c") = Some (lit "f=1&a=2") /\
  CompilationTap.virtualRequestPattern_exec (lit "/l.js") (lit "x!/l.js?f=1!y!z")
    = Some (lit "f=1!y").
Proof. repeat split. Qed.

(** ** The completion callback *)




(** ** Failures of the native resolver *)

(** C5.  A failure of the native resolver whose error is not a
    [PackagePathNotExported] one is reported as [not_found] with that very
    error (with a [Module not found] error made for the occasion when the
    native resolver failed without one); the native resolver is all the
    fallback resolver asked of its environment (no file was probed or
    read), and the record and the tracker are as they were. *)
Theorem other_failures_pass_through
    (w : FactoryTap.World) (req : RspackModuleRequest) (state : State)
    (tracker : Tracker) (err : option Error) (r : FactoryTap.NativeResult) :
  includes (request state) (lit "!") = false ->
  FactoryTap.resolver w (Path.dirname (fromFile req)) (request state) = (err, r) ->
  err <> None \/ FactoryTap.result_is_falsy r = true ->
  FactoryTap.is_PackagePathNotExported err = false ->
  let f := FactoryTap.getAdaptedResolve w req state tracker in
  FactoryTap.resolution f
    = not_found
        (Some match err with
              | Some e => e
              | None => {| message := lit "Module not found: " ++ request state |}
              end) /\
  FactoryTap.events f
    = [FactoryTap.NativeResolve (Path.dirname (fromFile req)) (request state)] /\
  FactoryTap.state_after f = state /\
  FactoryTap.tracker_after f = tracker.
Proof.
  intros Hbang Hnative Hfailed Hsig. unfold FactoryTap.getAdaptedResolve.
  rewrite Hbang, Hnative, Hsig.
  assert (Htest : (match err with Some _ => true | None => false end
                   || FactoryTap.result_is_falsy r) = true).
  { destruct Hfailed as [Hfailed | ->]; [|apply orb_true_r].
    destruct err; [reflexivity | congruence]. }
  rewrite Htest. cbn. auto.
Qed.

Lemma other_failures_pass_through_witness :
  let w := Examples.failing_world [] Examples.no_manifest Examples.cannot_resolve in
  let state := Examples.import (lit "@scope/pkg/deep/path") (lit "/app/main.js") in
  let f := FactoryTap.getAdaptedResolve w (Examples.request_of state) state [] in
  FactoryTap.resolution f = not_found (Some Examples.cannot_resolve) /\
  FactoryTap.events f
    = [FactoryTap.NativeResolve (lit "/app") (lit "@scope/pkg/deep/path")] /\
  FactoryTap.state_after f = state /\
  FactoryTap.tracker_after f = [].
Proof.
  intros w state.
  apply (other_failures_pass_through w (Examples.request_of state) state []
           (Some Examples.cannot_resolve) FactoryTap.ResultUndefined).
  - reflexivity.
  - reflexivity.
  - left. discriminate.
  - reflexivity.
Defined.

(** ** Classification of the specifier *)

Lemma span_all (p : N -> bool) (s : JsString) :
  forallb p s = true -> span p s = (s, []).
Proof.
  induction s as [|c s IH]; simpl; [reflexivity|].
  intros H. apply andb_true_iff in H as [-> H]. now rewrite IH.
Qed.

Lemma span_app (p : N -> bool) (a : JsString) (c : N) (r : JsString) :
  forallb p a = true -> p c = false -> span p (a ++ c :: r) = (a, c :: r).
Proof.
  intros Ha Hc. induction a as [|x a IH]; simpl.
  - now rewrite Hc.
  - simpl in Ha. apply andb_true_iff in Ha as [-> Ha]. now rewrite IH.
Qed.

Lemma two_segments_single (s : JsString) :
  forallb FactoryTap.not_slash s = true -> FactoryTap.two_segments s = None.
Proof.
  intros H. unfold FactoryTap.two_segments. rewrite (span_all _ _ H).
  now destruct s.
Qed.

Lemma two_segments_pair (a b : JsString) :
  forallb FactoryTap.not_slash a = true -> is_empty a = false ->
  forallb FactoryTap.not_slash b = true -> is_empty b = false ->
  FactoryTap.two_segments (a ++ CHAR_FORWARD_SLASH :: b)
    = Some (a ++ CHAR_FORWARD_SLASH :: b, []).
Proof.
  intros Ha Hane Hb Hbne. unfold FactoryTap.two_segments.
  rewrite (span_app FactoryTap.not_slash a CHAR_FORWARD_SLASH b Ha eq_refl),
    (span_all _ _ Hb).
  destruct a; [discriminate|]. now rewrite Hbne.
Qed.

(** C2 (what the code does).  A specifier without any [/], such as
    [lodash], matches neither pattern: it is classified neither as a root
    import nor as a subpath import, and the manual resolution probes
    nothing.  A specifier of two segments, such as [lodash/fp], matches the
    root pattern with both segments as the package name, and not the
    subpath pattern. *)
Theorem unscoped_specifiers_classified :
  (forall name,
      forallb FactoryTap.not_slash name = true ->
      FactoryTap.subpathMatch name = None /\ FactoryTap.rootMatch name = None) /\
  (forall name rest,
      forallb FactoryTap.not_slash name = true -> is_empty name = false ->
      forallb FactoryTap.not_slash rest = true -> is_empty rest = false ->
      FactoryTap.subpathMatch (name ++ CHAR_FORWARD_SLASH :: rest) = None /\
      FactoryTap.rootMatch (name ++ CHAR_FORWARD_SLASH :: rest)
        = Some (name ++ CHAR_FORWARD_SLASH :: rest)) /\
  (let w := Examples.failing_world
              [lit "/app/node_modules/lodash"; lit "/app/node_modules/lodash/package.json";
               lit "/app/node_modules/lodash/index.js"]
              Examples.no_manifest Examples.not_exported in
   let state := Examples.import (lit "lodash") (lit "/app/main.js") in
   let f := FactoryTap.getAdaptedResolve w (Examples.request_of state) state [] in
   FactoryTap.resolution f = not_found (Some Examples.not_exported) /\
   FactoryTap.events f = [FactoryTap.NativeResolve (lit "/app") (lit "lodash")]).
Proof.
  split; [|split].
  - intros name H.
    assert (Htl : forall c s, name = c :: s -> FactoryTap.two_segments s = None).
    { intros c s ->. simpl in H. apply andb_true_iff in H as [_ H].
      now apply two_segments_single. }
    unfold FactoryTap.subpathMatch, FactoryTap.rootMatch, FactoryTap.package_then.
    rewrite (two_segments_single _ H).
    destruct name as [|c s]; [split; reflexivity|].
    rewrite (Htl c s eq_refl). destruct (c =? CHAR_AT); split; reflexivity.
  - intros name rest Hn Hnne Hr Hrne.
    pose proof (two_segments_pair name rest Hn Hnne Hr Hrne) as Hpair.
    unfold FactoryTap.subpathMatch, FactoryTap.rootMatch, FactoryTap.package_then.
    destruct name as [|c name']; [discriminate|].
    cbn [app] in *. rewrite Hpair.
    destruct (c =? CHAR_AT) eqn:Eat.
    + apply N.eqb_eq in Eat. subst c.
      simpl in Hn.
      destruct name' as [|d name''].
      * cbn. split; reflexivity.
      * rewrite (two_segments_pair (d :: name'') rest Hn eq_refl Hr Hrne).
        cbn. split; reflexivity.
    + cbn. split; reflexivity.
  - vm_compute. split; reflexivity.
Qed.

Lemma unscoped_specifiers_classified_witness :
  (FactoryTap.subpathMatch (lit "lodash") = None /\
   FactoryTap.rootMatch (lit "lodash") = None) /\
  (FactoryTap.subpathMatch (lit "lodash/fp") = None /\
   FactoryTap.rootMatch (lit "lodash/fp") = Some (lit "lodash/fp")).
Proof.
  destruct unscoped_specifiers_classified as (Hbare & Hpair & _).
  split.
  - apply (Hbare (lit "lodash")). reflexivity.
  - apply (Hpair (lit "lodash") (lit "fp")); reflexivity.
Defined.

(** ** Construction *)

Lemma from_constructed_contextInfo state prefix root tracker req typed raw tracker' :
  FactoryTap.from state prefix root tracker = (Constructed req typed, raw, tracker') ->
  contextInfo raw = Some (contextInfo typed).
Proof.
  unfold FactoryTap.from.
  destruct (request state) as [rq|]; [|discriminate].
  destruct (context state) as [ctx|]; [|discriminate].
  destruct (includes rq virtualLoaderName); [discriminate|].
  destruct (startsWith rq (lit "!")); [discriminate|].
  destruct (FactoryTap.fix_missing_issuer rq ctx state tracker) as [st|]; [|discriminate].
  destruct (_ || _); [|discriminate].
  destruct (contextInfo st) as [ci|] eqn:E; [|discriminate].
  intros H. injection H as <- <- <- <-. exact E.
Qed.

(** C10 (what the code does).  A request for an implicit-modules file
    whose record has no [contextInfo], while nothing supplies a fallback
    issuer (no tracked implicit-modules file of the rewritten app, a
    context outside of it), passes every test of [from]; [from] goes on to
    construct the request and the constructor reads
    [state.contextInfo.issuer] of a record without [contextInfo]. *)
Theorem implicit_modules_request_without_contextInfo
    (req ctx prefix root : JsString) (tracker : Tracker) :
  includes req virtualLoaderName = false ->
  startsWith req (lit "!") = false ->
  includes req (lit "-embroider-implicit-") = true ->
  FactoryTap.fallbackIssuer ctx tracker = None ->
  let state := {| request := Str req; context := Str ctx; contextInfo := None |} in
  FactoryTap.from state prefix root tracker = (Thrown, state, tracker).
Proof.
  intros Hvirtual Hbang Himplicit Hfallback state.
  subst state. unfold FactoryTap.from, FactoryTap.fix_missing_issuer.
  cbn [request context contextInfo].
  rewrite Hvirtual, Hbang, Himplicit, Hfallback.
  cbn [contextInfo]. rewrite orb_true_r. reflexivity.
Qed.

Lemma implicit_modules_request_without_contextInfo_witness :
  let state := {| request := Str (lit "./-embroider-implicit-modules.js");
                  context := Str (lit "/app");
                  contextInfo := None |} in
  FactoryTap.from state (lit "babel-loader!") (lit "/app") [] = (Thrown, state, []).
Proof.
  apply (implicit_modules_request_without_contextInfo
           (lit "./-embroider-implicit-modules.js") (lit "/app")
           (lit "babel-loader!") (lit "/app") []);
    reflexivity.
Defined.


Lemma adjust_issuer_no_match (path : JsString) (deps : list CompilationTap.Dependency)
    (state : RawState) :
  existsb (fun dep =>
             match CompilationTap.virtualRequestPattern_exec path
                     (CompilationTap.exec_argument dep) with
             | Some _ => true
             | None => false
             end) deps = false ->
  CompilationTap.adjust_issuer path deps state = Some state.
Proof.
  induction deps as [|dep deps IH]; simpl; [reflexivity|].
  destruct (CompilationTap.virtualRequestPattern_exec _ _); [discriminate|].
  exact IH.
Qed.




(** C8 (as amended).  A record with string specifier and context, without
    issuer, whose specifier does not name the virtual loader, does not
    start with [!] and is not an implicit-modules one: when the tracker
    (as the plugin builds it) has an entry for the context directory, the
    issuer of the record becomes the tracked filename and a request from
    that file is constructed; without an entry the record is declined
    untouched. *)
Theorem empty_issuer_repaired_from_tracker
    (state : RawState) (req ctx prefix root : JsString) (tracker : Tracker) :
  request state = Str req ->
  context state = Str ctx ->
  match contextInfo state with
  | Some ci => is_empty (issuer ci) = true
  | None => True
  end ->
  includes req virtualLoaderName = false ->
  startsWith req (lit "!") = false ->
  includes req (lit "-embroider-implicit-") = false ->
  tracker_ok tracker ->
  match map_get tracker ctx with
  | Some virtualModule =>
      exists r typed,
        FactoryTap.from state prefix root tracker
          = (Constructed r typed, set_issuer state virtualModule, tracker) /\
        fromFile r = virtualModule /\
        specifier r = req /\
        issuer (contextInfo typed) = virtualModule /\
        request typed = req /\ context typed = ctx
  | None => FactoryTap.from state prefix root tracker = (Declined, state, tracker)
  end.
Proof.
  intros Hreq Hctx Hmissing Hvirtual Hbang Himplicit Hok.
  unfold FactoryTap.from, FactoryTap.fix_missing_issuer.
  rewrite Hreq, Hctx, Hvirtual, Hbang, Himplicit.
  assert (Hm : match contextInfo state with
               | Some ci => is_empty (issuer ci)
               | None => true
               end = true).
  { destruct (contextInfo state); auto. }
  rewrite Hm.
  destruct (map_get tracker ctx) as [vm|] eqn:E; [|reflexivity].
  rewrite (Hok _ _ E). cbn [set_issuer contextInfo issuer].
  rewrite (Hok _ _ E). cbn [negb orb].
  eexists _, _. split; [reflexivity|]. cbn. auto.
Qed.

Lemma empty_issuer_repaired_from_tracker_witness :
  let state := {| request := Str (lit "./helper");
                  context := Str (lit "/app");
                  contextInfo := Some {| issuer := lit ""; _embroiderMeta := None |} |} in
  let tracker := [(Path.dirname (lit "/app/foo.js"), lit "/app/foo.js")] in
  exists r typed,
    FactoryTap.from state (lit "babel-loader!") (lit "/app") tracker
      = (Constructed r typed, set_issuer state (lit "/app/foo.js"), tracker) /\
    fromFile r = lit "/app/foo.js".
Proof.
  intros state tracker.
  assert (Hok : tracker_ok tracker).
  { apply (tracker_ok_set [] (Path.dirname (lit "/app/foo.js")) (lit "/app/foo.js"));
      [apply tracker_ok_nil | reflexivity]. }
  destruct (empty_issuer_repaired_from_tracker state (lit "./helper") (lit "/app")
              (lit "babel-loader!") (lit "/app") tracker
              eq_refl eq_refl eq_refl eq_refl eq_refl eq_refl Hok)
    as (r & typed & Hfrom & Hfile & _).
  exists r, typed. split; [exact Hfrom | exact Hfile].
Defined.

(** C8 (counterexample).  A loader request without issuer, from a context
    directory the tracker knows: it is not an implicit-modules request, the
    tracker has an entry for its context, and [from] declines it. *)
Lemma tracked_context_declined :
  let state := {| request := Str (lit "!!raw-loader!./data.txt");
                  context := Str (lit "/app");
                  contextInfo := Some {| issuer := lit ""; _embroiderMeta := None |} |} in
  let tracker := [(lit "/app", lit "/app/foo.js")] in
  includes (lit "!!raw-loader!./data.txt") (lit "-embroider-implicit-") = false /\
  map_get tracker (lit "/app") = Some (lit "/app/foo.js") /\
  FactoryTap.from state (lit "babel-loader!") (lit "/app") tracker
    = (Declined, state, tracker).
Proof.
  repeat split.
Qed.


(** ** Encodings *)

#[local] Ltac Zify.zify_post_hook ::= Z.to_euclidean_division_equations.

Lemma lor_shiftl_6 (cp b : N) :
  N.lor (N.shiftl cp 6) (N.land b 0x3F) = cp * 64 + b mod 64.
Proof.
  change 0x3F with (N.ones 6). rewrite N.land_ones, N.shiftl_mul_pow2.
  change (2 ^ 6) with 64.
  rewrite <- N.lxor_lor, <- N.add_nocarry_lxor; try reflexivity.
  all: apply N.bits_inj; intros n; rewrite N.land_spec, N.bits_0;
    destruct (N.lt_ge_cases n 6) as [H|H].
  all: try (change 64 with (2 ^ 6);
            rewrite N.mul_pow2_bits_low by exact H; reflexivity).
  all: change 64 with (2 ^ 6) at 2;
    rewrite N.mod_pow2_bits_high by exact H; apply andb_false_r.
Qed.

Lemma land_low (b : N) (k : N) :
  N.land b (N.ones k) = b mod 2 ^ k.
Proof. apply N.land_ones. Qed.

(** Decides the comparisons of the goal one by one, closing by arithmetic
    the branches that cannot be. *)
Ltac decide_tests :=
  repeat match goal with
         | |- context [?a <=? ?b] =>
             destruct (N.leb_spec a b); try lia
         | |- context [?a <? ?b] =>
             destruct (N.ltb_spec a b); try lia
         | |- context [?a =? ?b] =>
             destruct (N.eqb_spec a b); try lia
         end.

Lemma utf8_lead_ascii (b : N) (bs : list N) :
  b <= 0x7F ->
  Url.utf8_decode_from None (b :: bs) = b :: Url.utf8_decode_from None bs.
Proof.
  intros H. cbn [Url.utf8_decode_from]. unfold Url.utf8_lead.
  decide_tests. reflexivity.
Qed.

Lemma utf8_lead_2 (b : N) (bs : list N) :
  0xC2 <= b <= 0xDF ->
  Url.utf8_decode_from None (b :: bs)
  = Url.utf8_decode_from (Some (Url.Pending (b mod 32) 1 0x80 0xBF)) bs.
Proof.
  intros H. cbn [Url.utf8_decode_from]. unfold Url.utf8_lead.
  change 0x1F with (N.ones 5). rewrite land_low. change (2 ^ 5) with 32.
  decide_tests. reflexivity.
Qed.

Lemma utf8_lead_3 (b : N) (bs : list N) :
  0xE0 <= b <= 0xEF ->
  Url.utf8_decode_from None (b :: bs)
  = Url.utf8_decode_from
      (Some (Url.Pending (b mod 16) 2
               (if b =? 0xE0 then 0xA0 else 0x80)
               (if b =? 0xED then 0x9F else 0xBF))) bs.
Proof.
  intros H. cbn [Url.utf8_decode_from]. unfold Url.utf8_lead.
  change 0xF with (N.ones 4). rewrite land_low. change (2 ^ 4) with 16.
  destruct (b <=? 0x7F) eqn:E1; [apply N.leb_le in E1; lia|].
  destruct ((0xC2 <=? b) && (b <=? 0xDF)) eqn:E2.
  { apply andb_true_iff in E2 as [_ E2]. apply N.leb_le in E2. lia. }
  destruct ((0xE0 <=? b) && (b <=? 0xEF)) eqn:E3; [reflexivity|].
  apply andb_false_iff in E3 as [E3|E3]; apply N.leb_gt in E3; lia.
Qed.

Lemma utf8_lead_4 (b : N) (bs : list N) :
  0xF0 <= b <= 0xF4 ->
  Url.utf8_decode_from None (b :: bs)
  = Url.utf8_decode_from
      (Some (Url.Pending (b mod 8) 3
               (if b =? 0xF0 then 0x90 else 0x80)
               (if b =? 0xF4 then 0x8F else 0xBF))) bs.
Proof.
  intros H. cbn [Url.utf8_decode_from]. unfold Url.utf8_lead.
  change 0x7 with (N.ones 3). rewrite land_low. change (2 ^ 3) with 8.
  destruct (b <=? 0x7F) eqn:E1; [apply N.leb_le in E1; lia|].
  destruct ((0xC2 <=? b) && (b <=? 0xDF)) eqn:E2.
  { apply andb_true_iff in E2 as [_ E2]. apply N.leb_le in E2. lia. }
  destruct ((0xE0 <=? b) && (b <=? 0xEF)) eqn:E3.
  { apply andb_true_iff in E3 as [_ E3]. apply N.leb_le in E3. lia. }
  destruct ((0xF0 <=? b) && (b <=? 0xF4)) eqn:E4; [reflexivity|].
  apply andb_false_iff in E4 as [E4|E4]; apply N.leb_gt in E4; lia.
Qed.

Lemma utf8_continue_last (cp lo hi b : N) (bs : list N) :
  lo <= b <= hi ->
  Url.utf8_decode_from (Some (Url.Pending cp 1 lo hi)) (b :: bs)
  = (cp * 64 + b mod 64) :: Url.utf8_decode_from None bs.
Proof.
  intros [Hlo Hhi]. cbn [Url.utf8_decode_from].
  apply N.leb_le in Hlo, Hhi. rewrite Hlo, Hhi. cbn [andb].
  now rewrite lor_shiftl_6.
Qed.

Lemma utf8_continue_more (cp lo hi b : N) (m : nat) (bs : list N) :
  lo <= b <= hi ->
  Url.utf8_decode_from (Some (Url.Pending cp (S (S m)) lo hi)) (b :: bs)
  = Url.utf8_decode_from
      (Some (Url.Pending (cp * 64 + b mod 64) (S m) 0x80 0xBF)) bs.
Proof.
  intros [Hlo Hhi]. cbn [Url.utf8_decode_from].
  apply N.leb_le in Hlo, Hhi. rewrite Hlo, Hhi. cbn [andb].
  now rewrite lor_shiftl_6.
Qed.

Lemma is_scalar_value_spec (cp : N) :
  is_scalar_value cp = true <-> cp < 0xD800 \/ 0xDFFF < cp < 0x110000.
Proof.
  unfold is_scalar_value.
  rewrite orb_true_iff, andb_true_iff, !N.ltb_lt. tauto.
Qed.

(** The UTF-8 decoder reads back what the encoder wrote of a scalar
    value. *)
Lemma utf8_decode_encode_cp (cp : N) (rest : list N) :
  is_scalar_value cp = true ->
  Url.utf8_decode_from None (Url.utf8_encode_cp cp ++ rest)
  = cp :: Url.utf8_decode_from None rest.
Proof.
  intros H. apply is_scalar_value_spec in H. unfold Url.utf8_encode_cp.
  destruct (N.ltb_spec cp 0x80) as [H1|H1].
  { cbn [app]. rewrite utf8_lead_ascii by lia. reflexivity. }
  destruct (N.ltb_spec cp 0x800) as [H2|H2].
  { cbn [app]. rewrite utf8_lead_2 by lia.
    rewrite utf8_continue_last by lia. f_equal. lia. }
  destruct (N.ltb_spec cp 0x10000) as [H3|H3].
  { cbn [app]. rewrite utf8_lead_3 by lia.
    rewrite utf8_continue_more
      by (destruct (N.eqb_spec (0xE0 + cp / 4096) 0xE0);
          destruct (N.eqb_spec (0xE0 + cp / 4096) 0xED); lia).
    rewrite utf8_continue_last by lia. f_equal. lia. }
  cbn [app]. rewrite utf8_lead_4 by lia.
  rewrite utf8_continue_more
    by (destruct (N.eqb_spec (0xF0 + cp / 262144) 0xF0);
        destruct (N.eqb_spec (0xF0 + cp / 262144) 0xF4); lia).
  rewrite utf8_continue_more by lia.
  rewrite utf8_continue_last by lia. f_equal. lia.
Qed.

Lemma utf8_decode_encode (cps : list N) :
  forallb is_scalar_value cps = true ->
  Url.utf8_decode (Url.utf8_encode cps) = cps.
Proof.
  unfold Url.utf8_decode, Url.utf8_encode.
  induction cps as [|cp cps IH]; [reflexivity|].
  cbn [forallb flat_map]. intros H. apply andb_true_iff in H as [Hcp H].
  rewrite utf8_decode_encode_cp by exact Hcp. now rewrite IH.
Qed.

(** Turns the boolean tests among the hypotheses into propositions. *)
Ltac tests_in_hyps :=
  repeat match goal with
         | H : _ && _ = true |- _ => apply andb_true_iff in H as [? ?]
         | H : _ && _ = false |- _ => apply andb_false_iff in H as [H|H]
         | H : _ || _ = true |- _ => apply orb_true_iff in H as [H|H]
         | H : _ || _ = false |- _ => apply orb_false_iff in H as [? ?]
         | H : negb _ = true |- _ => apply negb_true_iff in H
         | H : negb _ = false |- _ => apply negb_false_iff in H
         | H : (_ <=? _) = true |- _ => apply N.leb_le in H
         | H : (_ <=? _) = false |- _ => apply N.leb_gt in H
         | H : (_ <? _) = true |- _ => apply N.ltb_lt in H
         | H : (_ <? _) = false |- _ => apply N.ltb_ge in H
         | H : (_ =? _) = true |- _ => apply N.eqb_eq in H
         | H : (_ =? _) = false |- _ => apply N.eqb_neq in H
         end.

Lemma pair_induction {A} (P : list A -> Prop) :
  P [] -> (forall x, P [x]) ->
  (forall x y l, P l -> P (y :: l) -> P (x :: y :: l)) ->
  forall l, P l.
Proof.
  intros H0 H1 H2 l.
  assert (H : P l /\ forall x, P (x :: l)).
  { induction l as [|y l [IHl IHyl]]; split; auto. }
  apply H.
Qed.

Lemma utf16_decode_cons (x : N) (s : JsString) :
  Url.utf16_decode (x :: s) =
  if Url.is_high_surrogate x then
    match s with
    | d :: s' =>
        if Url.is_low_surrogate d
        then (0x10000 + (x - 0xD800) * 0x400 + (d - 0xDC00)) :: Url.utf16_decode s'
        else Url.REPLACEMENT :: Url.utf16_decode s
    | [] => [Url.REPLACEMENT]
    end
  else if Url.is_low_surrogate x then Url.REPLACEMENT :: Url.utf16_decode s
  else x :: Url.utf16_decode s.
Proof. reflexivity. Qed.

(** The code points of a string of 16-bit units are scalar values. *)
Lemma utf16_decode_scalar (s : JsString) :
  code_units s = true -> forallb is_scalar_value (Url.utf16_decode s) = true.
Proof.
  unfold code_units.
  induction s as [| x | x y l IHl IHyl] using pair_induction; intros H.
  - reflexivity.
  - rewrite utf16_decode_cons.
    destruct (Url.is_high_surrogate x) eqn:Eh; [reflexivity|].
    destruct (Url.is_low_surrogate x) eqn:El; [reflexivity|].
    cbn [forallb Url.utf16_decode] in *. rewrite andb_true_r in *.
    unfold Url.is_high_surrogate, Url.is_low_surrogate, is_scalar_value in *.
    tests_in_hyps; decide_tests; reflexivity.
  - cbn [forallb] in H. apply andb_true_iff in H as [Hx H].
    assert (Hl : forallb (fun c => c <? 0x10000) l = true).
    { cbn [forallb] in H. now apply andb_true_iff in H as [_ H]. }
    specialize (IHl Hl). specialize (IHyl H).
    rewrite utf16_decode_cons.
    destruct (Url.is_high_surrogate x) eqn:Eh.
    + destruct (Url.is_low_surrogate y) eqn:El.
      * cbn [forallb]. rewrite IHl, andb_true_r.
        unfold Url.is_high_surrogate, Url.is_low_surrogate, is_scalar_value in *.
        tests_in_hyps. decide_tests; reflexivity.
      * cbn [forallb]. now rewrite IHyl.
    + destruct (Url.is_low_surrogate x) eqn:El.
      * cbn [forallb]. now rewrite IHyl.
      * cbn [forallb]. rewrite IHyl, andb_true_r.
        unfold Url.is_high_surrogate, Url.is_low_surrogate, is_scalar_value in *.
        tests_in_hyps; decide_tests; reflexivity.
Qed.

(** A well-formed string is its own scalar value string. *)
Lemma toUSVString_well_formed (s : JsString) :
  code_units s = true -> isWellFormed s = true -> Url.toUSVString s = s.
Proof.
  unfold code_units, Url.toUSVString, Url.utf16_encode.
  induction s as [| x | x y l IHl IHyl] using pair_induction; intros H Hwf.
  - reflexivity.
  - cbn [isWellFormed] in Hwf. rewrite utf16_decode_cons.
    destruct (Url.is_high_surrogate x) eqn:Eh; [discriminate|].
    destruct (Url.is_low_surrogate x) eqn:El; [discriminate|].
    cbn [forallb] in H. rewrite andb_true_r in H.
    cbn [Url.utf16_decode flat_map app]. unfold Url.utf16_encode_cp.
    rewrite H. reflexivity.
  - cbn [forallb] in H. apply andb_true_iff in H as [Hx H].
    assert (Hl : forallb (fun c => c <? 0x10000) l = true).
    { cbn [forallb] in H. now apply andb_true_iff in H as [_ H]. }
    cbn [isWellFormed] in Hwf. rewrite utf16_decode_cons.
    destruct (Url.is_high_surrogate x) eqn:Eh.
    + apply andb_true_iff in Hwf as [El Hwf]. rewrite El.
      cbn [flat_map]. rewrite (IHl Hl Hwf).
      unfold Url.utf16_encode_cp.
      unfold Url.is_high_surrogate, Url.is_low_surrogate in *.
      tests_in_hyps.
      destruct (N.ltb_spec (0x10000 + (x - 0xD800) * 0x400 + (y - 0xDC00)) 0x10000);
        [lia|].
      cbn [app]. f_equal; [lia|]. f_equal. lia.
    + apply andb_true_iff in Hwf as [El Hwf].
      apply negb_true_iff in El. rewrite El.
      cbn [flat_map]. fold (isWellFormed (y :: l)) in Hwf.
      rewrite (IHyl H Hwf).
      unfold Url.utf16_encode_cp. rewrite Hx. reflexivity.
Qed.

Lemma utf8_encode_cp_bytes (cp : N) :
  is_scalar_value cp = true -> forallb is_byte (Url.utf8_encode_cp cp) = true.
Proof.
  intros H. apply is_scalar_value_spec in H.
  unfold Url.utf8_encode_cp, is_byte.
  destruct (N.ltb_spec cp 0x80); [|destruct (N.ltb_spec cp 0x800);
    [|destruct (N.ltb_spec cp 0x10000)]];
    cbn [forallb]; decide_tests; reflexivity.
Qed.

Lemma utf8_encode_bytes (cps : list N) :
  forallb is_scalar_value cps = true -> forallb is_byte (Url.utf8_encode cps) = true.
Proof.
  unfold Url.utf8_encode.
  induction cps as [|cp cps IH]; [reflexivity|].
  cbn [forallb flat_map]. intros H. apply andb_true_iff in H as [Hcp H].
  rewrite forallb_app, (utf8_encode_cp_bytes _ Hcp). now apply IH.
Qed.

(** The code points of a scalar value string are the scalar values it was
    made of. *)
Lemma utf16_decode_encode (cps : list N) :
  forallb is_scalar_value cps = true ->
  Url.utf16_decode (Url.utf16_encode cps) = cps.
Proof.
  unfold Url.utf16_encode.
  induction cps as [|cp cps IH]; [reflexivity|].
  cbn [forallb flat_map]. intros H. apply andb_true_iff in H as [Hcp H].
  apply is_scalar_value_spec in Hcp. specialize (IH H).
  unfold Url.utf16_encode_cp at 1.
  destruct (N.ltb_spec cp 0x10000) as [Hlow|Hhigh].
  - cbn [app]. rewrite utf16_decode_cons, IH.
    unfold Url.is_high_surrogate, Url.is_low_surrogate.
    decide_tests; reflexivity.
  - cbn [app]. rewrite utf16_decode_cons, IH.
    unfold Url.is_high_surrogate, Url.is_low_surrogate.
    decide_tests; cbn [andb]; f_equal; lia.
Qed.

Lemma serialize_string_toUSVString (s : JsString) :
  code_units s = true ->
  Url.serialize_string (Url.toUSVString s) = Url.serialize_string s.
Proof.
  intros H. unfold Url.serialize_string, Url.toUSVString.
  now rewrite utf16_decode_encode by now apply utf16_decode_scalar.
Qed.

(** *** Percent-encoding *)

Lemma hex_digit_spec (n : N) :
  n < 16 ->
  Url.is_hex (Url.hex_digit n) = true /\
  Url.hex_value (Url.hex_digit n) = n /\
  (Url.hex_digit n =? 0x2B) = false /\
  Url.is_form_safe (Url.hex_digit n) = true.
Proof.
  intros H. unfold Url.is_hex, Url.hex_value, Url.hex_digit, Url.is_form_safe.
  destruct (N.ltb_spec n 10); repeat split; decide_tests; try reflexivity; lia.
Qed.

Lemma percent_decode_serialize_byte (b : N) (rest : list N) :
  is_byte b = true ->
  Url.percent_decode (Url.plus_to_space (Url.serialize_byte b) ++ rest)
  = b :: Url.percent_decode rest.
Proof.
  unfold is_byte. intros Hb. apply N.ltb_lt in Hb.
  unfold Url.serialize_byte.
  destruct (N.eqb_spec b 0x20) as [->|Hsp]; [reflexivity|].
  destruct (Url.is_form_safe b) eqn:Esafe.
  - unfold Url.plus_to_space. cbn [map app Url.percent_decode].
    unfold Url.is_form_safe in Esafe.
    assert (Hplus : (b =? 0x2B) = false).
    { apply N.eqb_neq. intros ->. discriminate. }
    assert (Hpct : (b =? 0x25) = false).
    { apply N.eqb_neq. intros ->. discriminate. }
    now rewrite Hplus, Hpct.
  - destruct (hex_digit_spec (b / 16)) as (Hhex1 & Hval1 & Hplus1 & _); [lia|].
    destruct (hex_digit_spec (b mod 16)) as (Hhex2 & Hval2 & Hplus2 & _); [lia|].
    unfold Url.plus_to_space. cbn [map app].
    rewrite Hplus1, Hplus2.
    change (0x25 =? 0x2B) with false. cbn iota.
    cbn [Url.percent_decode]. change (0x25 =? 0x25) with true. cbn iota.
    rewrite Hhex1, Hhex2, Hval1, Hval2. cbn [andb]. f_equal. lia.
Qed.

Lemma percent_decode_serialize (bs : list N) :
  forallb is_byte bs = true ->
  Url.percent_decode (Url.plus_to_space (flat_map Url.serialize_byte bs)) = bs.
Proof.
  induction bs as [|b bs IH]; [reflexivity|].
  cbn [forallb flat_map]. intros H. apply andb_true_iff in H as [Hb H].
  unfold Url.plus_to_space in *. rewrite map_app.
  rewrite (percent_decode_serialize_byte b _ Hb). now rewrite IH.
Qed.

(** What comes back from a serialized string is its scalar value string. *)
Lemma decode_component_serialize_string (s : JsString) :
  code_units s = true ->
  Url.decode_component (Url.serialize_string s) = Url.toUSVString s.
Proof.
  intros H. unfold Url.decode_component, Url.serialize_string, Url.toUSVString.
  pose proof (utf16_decode_scalar s H) as Hscalar.
  rewrite percent_decode_serialize by now apply utf8_encode_bytes.
  now rewrite utf8_decode_encode.
Qed.

Lemma serialize_byte_form_units (b : N) :
  is_byte b = true -> forallb form_unit (Url.serialize_byte b) = true.
Proof.
  unfold is_byte. intros Hb. apply N.ltb_lt in Hb.
  unfold Url.serialize_byte.
  destruct (N.eqb_spec b 0x20); [reflexivity|].
  destruct (Url.is_form_safe b) eqn:Esafe.
  - cbn [forallb]. unfold form_unit. rewrite Esafe.
    now rewrite !orb_true_r.
  - destruct (hex_digit_spec (b / 16)) as (_ & _ & _ & H1); [lia|].
    destruct (hex_digit_spec (b mod 16)) as (_ & _ & _ & H2); [lia|].
    cbn [forallb]. unfold form_unit at 2 3. rewrite H1, H2.
    now rewrite !orb_true_r.
Qed.

Lemma serialize_string_form_units (s : JsString) :
  code_units s = true -> forallb form_unit (Url.serialize_string s) = true.
Proof.
  intros H. unfold Url.serialize_string.
  pose proof (utf8_encode_bytes _ (utf16_decode_scalar s H)) as Hbytes.
  induction (Url.utf8_encode (Url.utf16_decode s)) as [|b bs IH]; [reflexivity|].
  cbn [forallb flat_map] in *. apply andb_true_iff in Hbytes as [Hb Hbs].
  rewrite forallb_app, (serialize_byte_form_units _ Hb). now apply IH.
Qed.

Lemma form_unit_spec (c : N) :
  form_unit c = true ->
  c < 0x80 /\ c <> 0x26 /\ c <> 0x3D /\ c <> CHAR_QUESTION /\ c <> CHAR_BANG.
Proof.
  unfold form_unit, Url.is_form_safe, CHAR_QUESTION, CHAR_BANG. intros H.
  tests_in_hyps; lia.
Qed.

(** *** The parser reads back what the serializer wrote *)

Lemma forallb_weaken {A} (p q : A -> bool) (l : list A) :
  (forall c, p c = true -> q c = true) ->
  forallb p l = true -> forallb q l = true.
Proof.
  intros Hpq. induction l as [|c l IH]; [reflexivity|].
  cbn [forallb]. intros H. apply andb_true_iff in H as [Hc H].
  now rewrite (Hpq c Hc), IH.
Qed.

Lemma utf8_encode_ascii (s : JsString) :
  forallb (fun c => c <? 0x80) s = true ->
  Url.utf8_encode (Url.utf16_decode s) = s.
Proof.
  unfold Url.utf8_encode.
  induction s as [|c s IH]; [reflexivity|].
  cbn [forallb]. intros H. apply andb_true_iff in H as [Hc H].
  rewrite utf16_decode_cons.
  unfold Url.is_high_surrogate, Url.is_low_surrogate.
  tests_in_hyps.
  destruct (N.leb_spec 0xD800 c); [lia|]. cbn [andb].
  destruct (N.leb_spec 0xDC00 c); [lia|]. cbn [andb].
  cbn [flat_map]. rewrite (IH H). unfold Url.utf8_encode_cp.
  destruct (N.ltb_spec c 0x80); [reflexivity | lia].
Qed.

Lemma split_on_none (sep : N) (a : JsString) :
  forallb (fun c => negb (c =? sep)) a = true -> split_on sep a = [a].
Proof.
  induction a as [|c a IH]; [reflexivity|].
  cbn [forallb split_on]. intros H. apply andb_true_iff in H as [Hc H].
  apply negb_true_iff in Hc. now rewrite Hc, (IH H).
Qed.

Lemma split_on_app (sep : N) (a b : JsString) :
  forallb (fun c => negb (c =? sep)) a = true ->
  split_on sep (a ++ sep :: b) = a :: split_on sep b.
Proof.
  induction a as [|c a IH].
  - intros _. cbn [app split_on]. now rewrite N.eqb_refl.
  - cbn [forallb app split_on]. intros H. apply andb_true_iff in H as [Hc H].
    apply negb_true_iff in Hc. now rewrite Hc, (IH H).
Qed.

Lemma parse_pair_serialized (n v : JsString) :
  code_units n = true -> code_units v = true ->
  Url.parse_pair (Url.serialize_string n ++ 0x3D :: Url.serialize_string v)
  = (Url.toUSVString n, Url.toUSVString v).
Proof.
  intros Hn Hv. unfold Url.parse_pair.
  rewrite (span_app (fun b => negb (b =? 0x3D)) (Url.serialize_string n) 0x3D
             (Url.serialize_string v)); [|  | reflexivity].
  - cbn [tl]. now rewrite !decode_component_serialize_string.
  - apply (forallb_weaken form_unit); [|now apply serialize_string_form_units].
    intros c Hc. apply form_unit_spec in Hc. apply negb_true_iff, N.eqb_neq. lia.
Qed.

Lemma serialized_pair_units (n v : JsString) :
  code_units n = true -> code_units v = true ->
  forallb pair_unit (Url.serialize_string n ++ 0x3D :: Url.serialize_string v) = true.
Proof.
  assert (Hform : forall s, code_units s = true ->
            forallb pair_unit (Url.serialize_string s) = true).
  { intros s Hs.
    apply (forallb_weaken form_unit); [|now apply serialize_string_form_units].
    intros c Hc. apply form_unit_spec in Hc. unfold pair_unit.
    rewrite !andb_true_iff, !negb_true_iff, N.ltb_lt, !N.eqb_neq. lia. }
  intros Hn Hv. rewrite forallb_app. cbn [forallb].
  now rewrite !Hform.
Qed.

Lemma pair_unit_ascii (s : JsString) :
  forallb pair_unit s = true -> forallb (fun c => c <? 0x80) s = true.
Proof.
  apply forallb_weaken. intros c Hc. unfold pair_unit in Hc.
  apply andb_true_iff in Hc as [Hc _]. now apply andb_true_iff in Hc as [Hc _].
Qed.

Lemma pair_unit_no_ampersand (s : JsString) :
  forallb pair_unit s = true -> forallb (fun c => negb (c =? 0x26)) s = true.
Proof.
  apply forallb_weaken. intros c Hc. unfold pair_unit in Hc.
  apply andb_true_iff in Hc as [Hc _]. now apply andb_true_iff in Hc as [_ Hc].
Qed.

Lemma of_string_ascii (q : JsString) :
  forallb (fun c => c <? 0x80) q = true ->
  startsWith q [CHAR_QUESTION] = false ->
  Url.of_string q = Url.parse_bytes q.
Proof.
  intros Hascii Hhead. unfold Url.of_string.
  destruct q as [|c q']; [reflexivity|].
  cbn [startsWith] in Hhead. rewrite andb_true_r in Hhead. rewrite Hhead.
  now rewrite utf8_encode_ascii.
Qed.

(** A string of serialized pairs has no [?] to drop and is its own UTF-8
    encoding. *)
Lemma of_string_pairs (a b : JsString) :
  forallb pair_unit a = true -> forallb pair_unit b = true ->
  Url.of_string (a ++ 0x26 :: b) = Url.parse_bytes (a ++ 0x26 :: b).
Proof.
  intros Ha Hb. apply of_string_ascii.
  - rewrite forallb_app. cbn [forallb].
    now rewrite (pair_unit_ascii _ Ha), (pair_unit_ascii _ Hb).
  - destruct a as [|c a']; [reflexivity|].
    cbn [app forallb startsWith] in Ha |- *. unfold pair_unit at 1 in Ha.
    apply andb_true_iff in Ha as [Ha _]. apply andb_true_iff in Ha as [_ Ha].
    apply negb_true_iff in Ha. now rewrite Ha.
Qed.

(** A query of two pairs, serialized and parsed again, gives the scalar
    value strings of the two pairs. *)
Lemma of_string_toString (n1 v1 n2 v2 : JsString) :
  code_units n1 = true -> code_units v1 = true ->
  code_units n2 = true -> code_units v2 = true ->
  Url.of_string (Url.toString [(n1, v1); (n2, v2)])
  = [(Url.toUSVString n1, Url.toUSVString v1);
     (Url.toUSVString n2, Url.toUSVString v2)].
Proof.
  intros Hn1 Hv1 Hn2 Hv2.
  unfold Url.toString. cbn [map join_with]. unfold Url.serialize_pair.
  cbn [fst snd]. change (lit "=") with [0x3D]. change (lit "&") with [0x26].
  cbn [app].
  pose proof (serialized_pair_units n1 v1 Hn1 Hv1) as HA.
  pose proof (serialized_pair_units n2 v2 Hn2 Hv2) as HB.
  rewrite (of_string_pairs _ _ HA HB). unfold Url.parse_bytes.
  rewrite (split_on_app _ _ _ (pair_unit_no_ampersand _ HA)),
    (split_on_none _ _ (pair_unit_no_ampersand _ HB)).
  cbn [filter].
  rewrite !(is_empty_app_r _ (0x3D :: _) eq_refl).
  cbn [negb map]. now rewrite !parse_pair_serialized.
Qed.

(** ** Virtualized requests *)

Lemma virtualLoaderMatch_unfold (s : JsString) :
  FactoryTap.virtualLoaderMatch s =
  let prefix := virtualLoaderName ++ lit "?" in
  let here :=
    if startsWith s prefix then
      let run := fst (span not_bang (skipn (length prefix) s)) in
      if is_empty run then None else Some run
    else None in
  match here with
  | Some q => Some q
  | None =>
      match s with
      | [] => None
      | _ :: s' => FactoryTap.virtualLoaderMatch s'
      end
  end.
Proof. destruct s; reflexivity. Qed.

Lemma startsWith_prefix (p x : JsString) : startsWith (p ++ x) p = true.
Proof.
  induction p as [|c p IH]; [reflexivity|].
  cbn [app startsWith]. now rewrite N.eqb_refl, IH.
Qed.

Lemma skipn_prefix {A} (p x : list A) : skipn (length p) (p ++ x) = x.
Proof. induction p as [|c p IH]; [reflexivity | exact IH]. Qed.

(** The pattern of the fallback resolver finds the query that follows the
    name of the virtual loader. *)
Lemma virtualLoaderMatch_here (q rest : JsString) :
  is_empty q = false -> forallb not_bang q = true ->
  FactoryTap.virtualLoaderMatch
    ((virtualLoaderName ++ lit "?") ++ q ++ CHAR_BANG :: rest) = Some q.
Proof.
  intros Hne Hq. rewrite virtualLoaderMatch_unfold. cbv zeta.
  rewrite startsWith_prefix, skipn_prefix.
  rewrite (span_app not_bang q CHAR_BANG rest Hq eq_refl).
  cbn [fst]. now rewrite Hne.
Qed.

(** It skips what cannot start the name of the virtual loader. *)
Lemma virtualLoaderMatch_skip (prefix rest : JsString) :
  forallb (fun c => negb (c =? CHAR_AT)) prefix = true ->
  FactoryTap.virtualLoaderMatch (prefix ++ rest) = FactoryTap.virtualLoaderMatch rest.
Proof.
  induction prefix as [|c prefix IH]; [reflexivity|].
  cbn [forallb]. intros H. apply andb_true_iff in H as [Hc H].
  apply negb_true_iff in Hc.
  rewrite virtualLoaderMatch_unfold. cbv zeta.
  replace (startsWith ((c :: prefix) ++ rest) (virtualLoaderName ++ lit "?"))
    with false.
  - cbn [app]. now apply IH.
  - change (virtualLoaderName ++ lit "?")
      with (CHAR_AT :: tl (virtualLoaderName ++ lit "?")).
    cbn [app startsWith]. now rewrite Hc.
Qed.

(** The query that [virtualize] writes. *)
Lemma virtualize_params (filename root : JsString) :
  code_units filename = true -> code_units root = true ->
  Url.toString (Url.set (Url.set [] (lit "f") filename) (lit "a") root)
  = virtual_query filename root.
Proof.
  intros Hf Ha.
  unfold Url.set. cbn [Url.set_first app].
  change (Url.toUSVString (lit "f")) with (lit "f").
  change (Url.toUSVString (lit "a")) with (lit "a").
  change (str_eqb (lit "f") (lit "a")) with false. cbn iota.
  cbn [option_map]. unfold virtual_query, Url.toString, Url.serialize_pair.
  cbn [app map join_with fst snd].
  rewrite (serialize_string_toUSVString _ Hf), (serialize_string_toUSVString _ Ha).
  change (Url.serialize_string (lit "f")) with (lit "f").
  change (Url.serialize_string (lit "a")) with (lit "a").
  change (lit "f=") with (lit "f" ++ lit "=").
  change (lit "&a=") with (lit "&" ++ lit "a" ++ lit "=").
  now rewrite <- !app_assoc.
Qed.

(** Parsing the query of a virtualized specifier gives the scalar value
    strings of the filename and of the app root. *)
Lemma virtual_query_parsed (filename root : JsString) :
  code_units filename = true -> code_units root = true ->
  Url.of_string (virtual_query filename root)
  = [(lit "f", Url.toUSVString filename); (lit "a", Url.toUSVString root)].
Proof.
  intros Hf Ha.
  assert (Hquery :
    virtual_query filename root
    = Url.toString [(lit "f", filename); (lit "a", root)]).
  { unfold virtual_query, Url.toString, Url.serialize_pair.
    cbn [map join_with fst snd].
    change (Url.serialize_string (lit "f")) with (lit "f").
    change (Url.serialize_string (lit "a")) with (lit "a").
    change (lit "f=") with (lit "f" ++ lit "=").
    change (lit "&a=") with (lit "&" ++ lit "a" ++ lit "=").
    now rewrite <- !app_assoc. }
  rewrite Hquery, of_string_toString by (auto; reflexivity).
  reflexivity.
Qed.

Lemma virtual_query_not_bang (filename root : JsString) :
  code_units filename = true -> code_units root = true ->
  forallb not_bang (virtual_query filename root) = true.
Proof.
  assert (Hser : forall s, code_units s = true ->
            forallb not_bang (Url.serialize_string s) = true).
  { intros s Hs.
    apply (forallb_weaken form_unit); [|now apply serialize_string_form_units].
    intros c Hc. apply form_unit_spec in Hc. unfold not_bang.
    apply negb_true_iff, N.eqb_neq. lia. }
  intros Hf Ha. unfold virtual_query. rewrite !forallb_app.
  now rewrite !Hser.
Qed.

(** The pattern of the fallback resolver extracts the query of a
    virtualized specifier, when the loader prefix has no [@]. *)
Lemma virtualLoaderMatch_virtual_query (prefix filename root rest : JsString) :
  forallb (fun c => negb (c =? CHAR_AT)) prefix = true ->
  code_units filename = true -> code_units root = true ->
  FactoryTap.virtualLoaderMatch
    (prefix ++ virtualLoaderName ++ lit "?" ++
     virtual_query filename root ++ lit "!" ++ rest)
  = Some (virtual_query filename root).
Proof.
  intros Hprefix Hf Ha.
  rewrite (virtualLoaderMatch_skip _ _ Hprefix).
  rewrite app_assoc. change (lit "!" ++ rest) with (CHAR_BANG :: rest).
  apply virtualLoaderMatch_here; [reflexivity|].
  now apply virtual_query_not_bang.
Qed.

(** C9 (as amended).  [virtualize] gives an instance marked virtual whose
    specifier, also written to the record, is the loader prefix, the name
    of the virtual loader, [?], the query [f=..&a=..] of the serialized
    filename and app root, and [!].  When the filename and the app root are
    well-formed strings (no unpaired surrogate), parsing the query gives
    back the filename as [f] and the app root as [a].  When the loader
    prefix has no [@], the pattern of the fallback resolver extracts that
    query from the specifier. *)
Theorem virtualize_round_trip
    (this : RspackModuleRequest) (filename : JsString) (state : State) :
  code_units filename = true ->
  code_units (appRoot this) = true ->
  let next := fst (virtualize this filename state) in
  let state' := snd (virtualize this filename state) in
  let query := lit "f=" ++ Url.serialize_string filename ++
               lit "&a=" ++ Url.serialize_string (appRoot this) in
  specifier next
    = babelLoaderPrefix this ++ virtualLoaderName ++ lit "?" ++ query ++ lit "!" /\
  state' = set_request state (specifier next) /\
  isVirtual next = true /\
  (isWellFormed filename = true -> isWellFormed (appRoot this) = true ->
   Url.get (Url.of_string query) (lit "f") = Some filename /\
   Url.get (Url.of_string query) (lit "a") = Some (appRoot this)) /\
  (forallb (fun c => negb (c =? CHAR_AT)) (babelLoaderPrefix this) = true ->
   FactoryTap.virtualLoaderMatch (specifier next) = Some query).
Proof.
  intros Hf Ha next state' query.
  fold (virtual_query filename (appRoot this)) in query.
  assert (Hspec :
    specifier next
    = babelLoaderPrefix this ++ virtualLoaderName ++ lit "?" ++ query ++ lit "!").
  { subst next query. unfold virtualize, alias.
    rewrite (virtualize_params _ _ Hf Ha). reflexivity. }
  split; [exact Hspec|].
  split; [subst next state'; unfold virtualize, alias; reflexivity|].
  split; [subst next; unfold virtualize, alias; reflexivity|].
  split.
  - intros Hfwf Hawf. subst query.
    rewrite virtual_query_parsed by assumption.
    rewrite (toUSVString_well_formed _ Hf Hfwf), (toUSVString_well_formed _ Ha Hawf).
    split; reflexivity.
  - intros Hprefix. rewrite Hspec. subst query.
    rewrite <- (app_nil_r (lit "!")).
    now apply virtualLoaderMatch_virtual_query.
Qed.

Lemma virtualize_round_trip_witness :
  let state := Examples.import (lit "./foo") (lit "/app/main.js") in
  let next := fst (virtualize (Examples.request_of state) (lit "/app/foo bar.js") state) in
  specifier next
    = lit "babel-loader!@embroider/rspack/src/virtual-loader?f=%2Fapp%2Ffoo+bar.js&a=%2Fapp!" /\
  isVirtual next = true /\
  Url.get (Url.of_string (lit "f=%2Fapp%2Ffoo+bar.js&a=%2Fapp")) (lit "f")
    = Some (lit "/app/foo bar.js") /\
  Url.get (Url.of_string (lit "f=%2Fapp%2Ffoo+bar.js&a=%2Fapp")) (lit "a")
    = Some (lit "/app").
Proof.
  intros state next.
  destruct (virtualize_round_trip (Examples.request_of state) (lit "/app/foo bar.js")
              state eq_refl eq_refl)
    as (Hspec & _ & Hvirtual & Hparse & _).
  split; [exact Hspec|]. split; [exact Hvirtual|].
  exact (Hparse eq_refl eq_refl).
Defined.

(** C9 (counterexample).  A filename that is an unpaired surrogate: the
    query holds U+FFFD in its place, and parsing gives U+FFFD back. *)
Lemma virtualize_unpaired_surrogate :
  let state := Examples.import (lit "./foo") (lit "/app/main.js") in
  let filename := [0xD800] in
  let next := fst (virtualize (Examples.request_of state) filename state) in
  specifier next
    = lit "babel-loader!@embroider/rspack/src/virtual-loader?f=%EF%BF%BD&a=%2Fapp!" /\
  Url.get (Url.of_string (lit "f=%EF%BF%BD&a=%2Fapp")) (lit "f") = Some [0xFFFD] /\
  Url.get (Url.of_string (lit "f=%EF%BF%BD&a=%2Fapp")) (lit "f") <> Some filename.
Proof.
  split; [vm_compute; reflexivity|].
  split; [vm_compute; reflexivity | vm_compute; discriminate].
Qed.

(** ** Loader requests *)

Lemma virtualLoaderMatch_includes (s q : JsString) :
  FactoryTap.virtualLoaderMatch s = Some q -> includes s virtualLoaderName = true.
Proof.
  induction s as [|c s IH]; intros H.
  - discriminate.
  - cbn [FactoryTap.virtualLoaderMatch] in H. cbn [includes].
    destruct (startsWith (c :: s) (virtualLoaderName ++ lit "?")) eqn:E.
    + apply startsWith_app in E. rewrite E. reflexivity.
    + rewrite (IH H). apply orb_true_r.
Qed.

(** C7.  A request whose current specifier contains [!] is reported
    [found] at once: the fallback resolver asks nothing of its environment
    (the native resolver is not called) and leaves the record alone.  When
    the pattern of the virtual loader finds in the specifier a query whose
    [f] is a non-empty filename, the directory of that filename is mapped
    to it in the tracker; this is the case of the specifiers that
    [virtualize] writes for a non-empty well-formed filename (after a
    loader prefix without [@]); so for [f=/app/foo.js], whatever the
    tracker held, it then maps [/app] to [/app/foo.js]. *)
Theorem loader_requests_accepted
    (w : FactoryTap.World) (req : RspackModuleRequest) (state : State)
    (tracker : Tracker) :
  includes (request state) (lit "!") = true ->
  let f := FactoryTap.getAdaptedResolve w req state tracker in
  FactoryTap.resolution f = found /\
  FactoryTap.events f = [] /\
  FactoryTap.state_after f = state /\
  (forall q filename,
      FactoryTap.virtualLoaderMatch (request state) = Some q ->
      Url.get (Url.of_string q) (lit "f") = Some filename ->
      is_empty filename = false ->
      FactoryTap.tracker_after f
        = map_set tracker (Path.dirname filename) filename) /\
  (forall prefix filename root rest,
      request state
        = prefix ++ virtualLoaderName ++ lit "?" ++
          virtual_query filename root ++ lit "!" ++ rest ->
      forallb (fun c => negb (c =? CHAR_AT)) prefix = true ->
      code_units filename = true -> isWellFormed filename = true ->
      is_empty filename = false ->
      code_units root = true ->
      map_get (FactoryTap.tracker_after f) (Path.dirname filename) = Some filename) /\
  (request state
     = lit "babel-loader!@embroider/rspack/src/virtual-loader?f=%2Fapp%2Ffoo.js&a=%2Fapp!" ->
   FactoryTap.tracker_after f
     = map_set tracker (Path.dirname (lit "/app/foo.js")) (lit "/app/foo.js") /\
   map_get (FactoryTap.tracker_after f) (Path.dirname (lit "/app/foo.js"))
     = Some (lit "/app/foo.js")).
Proof.
  intros Hbang f.
  assert (Htrack : forall q filename,
      FactoryTap.virtualLoaderMatch (request state) = Some q ->
      Url.get (Url.of_string q) (lit "f") = Some filename ->
      is_empty filename = false ->
      FactoryTap.tracker_after f
        = map_set tracker (Path.dirname filename) filename).
  { intros q filename Hq Hf Hne. subst f. unfold FactoryTap.getAdaptedResolve.
    rewrite Hbang. cbn [FactoryTap.tracker_after].
    rewrite (virtualLoaderMatch_includes _ _ Hq), Hq.
    unfold track_virtual_module. now rewrite Hf, Hne. }
  assert (Hfound : FactoryTap.resolution f = found /\ FactoryTap.events f = [] /\
                   FactoryTap.state_after f = state).
  { subst f. unfold FactoryTap.getAdaptedResolve. rewrite Hbang. auto. }
  destruct Hfound as (Hres & Hevents & Hstate).
  split; [exact Hres|]. split; [exact Hevents|]. split; [exact Hstate|].
  split; [exact Htrack|].
  split.
  - intros prefix filename root rest Hreq Hprefix Hf Hfwf Hne Ha.
    rewrite (Htrack (virtual_query filename root) filename).
    + apply map_get_set_same.
    + rewrite Hreq. now apply virtualLoaderMatch_virtual_query.
    + rewrite virtual_query_parsed by assumption.
      now rewrite (toUSVString_well_formed _ Hf Hfwf).
    + exact Hne.
  - intros Hreq.
    assert (Hafter : FactoryTap.tracker_after f
              = map_set tracker (Path.dirname (lit "/app/foo.js")) (lit "/app/foo.js")).
    { apply (Htrack (lit "f=%2Fapp%2Ffoo.js&a=%2Fapp")).
      - rewrite Hreq. vm_compute. reflexivity.
      - vm_compute. reflexivity.
      - reflexivity. }
    split; [exact Hafter|]. rewrite Hafter. apply map_get_set_same.
Qed.

Lemma loader_requests_accepted_witness :
  let w := Examples.failing_world [] Examples.no_manifest Examples.cannot_resolve in
  let state :=
    Examples.import
      (lit "babel-loader!@embroider/rspack/src/virtual-loader?f=%2Fapp%2Ffoo.js&a=%2Fapp!")
      (lit "/app/main.js") in
  let f := FactoryTap.getAdaptedResolve w (Examples.request_of state) state [] in
  FactoryTap.resolution f = found /\
  FactoryTap.events f = [] /\
  FactoryTap.tracker_after f = [(lit "/app", lit "/app/foo.js")].
Proof.
  intros w state f.
  destruct (loader_requests_accepted w (Examples.request_of state) state []
              eq_refl) as (Hfound & Hevents & _ & _ & _ & Htracked).
  split; [exact Hfound | split; [exact Hevents |]].
  exact (proj1 (Htracked eq_refl)).
Defined.

(** ** Paths in normal form *)

Lemma split_on_not_nil (sep : N) (s : JsString) : split_on sep s <> [].
Proof.
  destruct s as [|c s]; cbn [split_on]; [discriminate|].
  destruct (c =? sep); [discriminate|].
  destruct (split_on sep s); discriminate.
Qed.

Lemma split_on_app_sep (sep : N) (a b : JsString) :
  split_on sep (a ++ sep :: b) = split_on sep a ++ split_on sep b.
Proof.
  induction a as [|c a IH].
  - cbn [app split_on]. now rewrite N.eqb_refl.
  - cbn [app split_on]. rewrite IH.
    destruct (c =? sep); [reflexivity|].
    pose proof (split_on_not_nil sep a) as Hne.
    destruct (split_on sep a) as [|h t]; [congruence | reflexivity].
Qed.

Lemma join_split (sep : N) (s : JsString) :
  join_with [sep] (split_on sep s) = s.
Proof.
  induction s as [|c s IH]; [reflexivity|].
  cbn [split_on].
  pose proof (split_on_not_nil sep s) as Hne.
  destruct (N.eqb_spec c sep) as [->|Hc].
  - destruct (split_on sep s) as [|h t]; [congruence|].
    cbn [join_with app] in *. now rewrite IH.
  - destruct (split_on sep s) as [|h t]; [congruence|].
    destruct t as [|h' t]; cbn [join_with app] in *; now rewrite <- IH.
Qed.

Lemma split_on_segments (sep : N) (s : JsString) :
  forallb (forallb (fun c => negb (c =? sep))) (split_on sep s) = true.
Proof.
  induction s as [|c s IH]; [reflexivity|].
  cbn [split_on]. destruct (c =? sep) eqn:E; [exact IH|].
  destruct (split_on sep s) as [|h t]; cbn [forallb] in *; rewrite E; auto.
Qed.

Lemma split_join (sep : N) (segs : list JsString) :
  segs <> [] ->
  forallb (forallb (fun c => negb (c =? sep))) segs = true ->
  split_on sep (join_with [sep] segs) = segs.
Proof.
  induction segs as [|seg segs IH]; [congruence|]. intros _.
  cbn [forallb]. intros H. apply andb_true_iff in H as [Hseg H].
  destruct segs as [|seg' segs].
  - cbn [join_with]. now apply split_on_none.
  - change (join_with [sep] (seg :: seg' :: segs))
      with (seg ++ sep :: join_with [sep] (seg' :: segs)).
    rewrite (split_on_app _ _ _ Hseg). f_equal. apply IH; [discriminate | exact H].
Qed.

Lemma join_with_app (sep : JsString) (segs more : list JsString) :
  segs <> [] -> more <> [] ->
  join_with sep (segs ++ more) = join_with sep segs ++ sep ++ join_with sep more.
Proof.
  induction segs as [|seg segs IH]; [congruence|]. intros _ Hmore.
  destruct segs as [|seg' segs].
  - destruct more; [congruence | reflexivity].
  - change (join_with sep ((seg :: seg' :: segs) ++ more))
      with (seg ++ sep ++ join_with sep ((seg' :: segs) ++ more)).
    rewrite IH by (discriminate || exact Hmore).
    change (join_with sep (seg :: seg' :: segs))
      with (seg ++ sep ++ join_with sep (seg' :: segs)).
    now rewrite <- !app_assoc.
Qed.

Lemma normalize_segment_normal (stack : list JsString) (seg : JsString) :
  normal_segment seg = true ->
  Path.normalize_segment false stack seg = seg :: stack.
Proof.
  unfold normal_segment, Path.normalize_segment. intros H.
  tests_in_hyps.
  repeat match goal with H : _ = false |- _ => rewrite H; clear H end.
  reflexivity.
Qed.

Lemma fold_normal_segments (segs stack : list JsString) :
  forallb normal_segment segs = true ->
  fold_left (Path.normalize_segment false) segs stack = rev segs ++ stack.
Proof.
  revert stack. induction segs as [|seg segs IH]; intros stack; [reflexivity|].
  cbn [forallb fold_left rev]. intros H. apply andb_true_iff in H as [Hseg H].
  rewrite (normalize_segment_normal _ _ Hseg), (IH _ H).
  now rewrite <- app_assoc.
Qed.

(** Below the root, the stack of [normalizeString] holds normal segments
    only. *)
Lemma fold_keeps_normal (segs stack : list JsString) :
  forallb (forallb FactoryTap.not_slash) segs = true ->
  forallb normal_segment stack = true ->
  forallb normal_segment (fold_left (Path.normalize_segment false) segs stack) = true.
Proof.
  revert stack. induction segs as [|seg segs IH]; intros stack; [auto|].
  cbn [forallb fold_left]. intros H Hstack. apply andb_true_iff in H as [Hseg H].
  apply IH; [exact H|].
  unfold Path.normalize_segment.
  destruct (is_empty seg || str_eqb seg (lit ".")) eqn:E1; [exact Hstack|].
  destruct (str_eqb seg (lit "..")) eqn:E2.
  - destruct stack as [|top below]; [reflexivity|].
    cbn [forallb] in Hstack. apply andb_true_iff in Hstack as [Htop Hbelow].
    destruct (str_eqb top (lit "..")); [|exact Hbelow].
    cbn [forallb]. now rewrite Htop.
  - cbn [forallb]. rewrite Hstack, andb_true_r.
    unfold normal_segment. apply orb_false_iff in E1 as [-> ->].
    now rewrite E2, Hseg.
Qed.

Lemma last_app_cons {A} (a : list A) (x : A) (b : list A) (d : A) :
  last (a ++ x :: b) d = last (x :: b) d.
Proof.
  induction a as [|y a IH]; [reflexivity|].
  cbn [app]. rewrite <- IH. cbn [last].
  destruct (a ++ x :: b) eqn:E; [|reflexivity].
  destruct a; discriminate.
Qed.

Lemma normal_segment_no_slash (segs : list JsString) :
  forallb normal_segment segs = true ->
  forallb (forallb (fun c => negb (c =? CHAR_FORWARD_SLASH))) segs = true.
Proof.
  apply forallb_weaken. intros seg H. unfold normal_segment in H.
  now apply andb_true_iff in H as [_ H].
Qed.

(** [normalizeString] of a normal absolute path followed by [/] and more:
    the segments of the path stay, those that follow are pushed on them. *)
Lemma normalizeString_under (rest t : JsString) (more : list JsString) :
  forallb normal_segment (split_on CHAR_FORWARD_SLASH rest) = true ->
  fold_left (Path.normalize_segment false) (split_on CHAR_FORWARD_SLASH t)
            (rev (split_on CHAR_FORWARD_SLASH rest))
    = rev more ++ rev (split_on CHAR_FORWARD_SLASH rest) ->
  more <> [] ->
  Path.normalizeString (CHAR_FORWARD_SLASH :: rest ++ CHAR_FORWARD_SLASH :: t) false
  = rest ++ lit "/" ++ join_with (lit "/") more.
Proof.
  intros Hrest Hfold Hmore. unfold Path.normalizeString.
  change (split_on CHAR_FORWARD_SLASH
            (CHAR_FORWARD_SLASH :: rest ++ CHAR_FORWARD_SLASH :: t))
    with ([] :: split_on CHAR_FORWARD_SLASH (rest ++ CHAR_FORWARD_SLASH :: t)).
  rewrite split_on_app_sep. cbn [fold_left].
  change (Path.normalize_segment false [] []) with (@nil JsString).
  rewrite fold_left_app, (fold_normal_segments _ _ Hrest), app_nil_r, Hfold.
  rewrite rev_app_distr, !rev_involutive.
  rewrite join_with_app by (exact Hmore || apply split_on_not_nil).
  change (lit "/") with [CHAR_FORWARD_SLASH]. now rewrite join_split.
Qed.

(** An entry point [./index.js] resolves, from a package directory in
    normal form, to [index.js] in that directory. *)
Lemma resolve_index (cwd packageDir : JsString) :
  normal_absolute packageDir = true ->
  Path.resolve cwd [packageDir; lit "./index.js"] = packageDir ++ lit "/index.js".
Proof.
  destruct packageDir as [|c rest]; [discriminate|].
  cbn [normal_absolute]. intros H. apply andb_true_iff in H as [Hc Hrest].
  apply N.eqb_eq in Hc. subst c.
  unfold Path.resolve. cbn [rev app].
  change (lit "./index.js") with (46 :: lit "/index.js").
  cbn [Path.resolve_loop]. change (is_slash 46) with false. cbn iota.
  change (is_slash CHAR_FORWARD_SLASH) with true. cbn iota.
  change ((CHAR_FORWARD_SLASH :: rest) ++ lit "/" ++ (46 :: lit "/index.js") ++ lit "/" ++ [])
    with (CHAR_FORWARD_SLASH :: rest ++ CHAR_FORWARD_SLASH :: lit "./index.js/").
  cbn [negb].
  rewrite (normalizeString_under rest (lit "./index.js/") [lit "index.js"] Hrest);
    [reflexivity | | discriminate].
  change (split_on CHAR_FORWARD_SLASH (lit "./index.js/"))
    with [lit "."; lit "index.js"; []].
  reflexivity.
Qed.

(** A candidate [src/<file>] of a package directory in normal form is
    that path below the directory, when the segments of [file] are normal. *)
Lemma join_src (packageDir file : JsString) :
  normal_absolute packageDir = true ->
  forallb normal_segment (split_on CHAR_FORWARD_SLASH file) = true ->
  is_slash (last (CHAR_FORWARD_SLASH :: file) 0) = false ->
  Path.join [packageDir; lit "src"; file] = packageDir ++ lit "/src/" ++ file.
Proof.
  destruct packageDir as [|c rest]; [discriminate|].
  cbn [normal_absolute]. intros H. apply andb_true_iff in H as [Hc Hrest].
  apply N.eqb_eq in Hc. subst c. intros Hfile Hlast.
  assert (Hne : is_empty file = false).
  { destruct file; [discriminate | reflexivity]. }
  unfold Path.join. cbn [filter]. rewrite Hne.
  change (negb (is_empty (CHAR_FORWARD_SLASH :: rest))) with true.
  change (negb (is_empty (lit "src"))) with true. cbn [negb]. cbn iota.
  change (join_with (lit "/") [CHAR_FORWARD_SLASH :: rest; lit "src"; file])
    with (CHAR_FORWARD_SLASH :: rest ++ CHAR_FORWARD_SLASH :: lit "src" ++ CHAR_FORWARD_SLASH :: file).
  unfold Path.normalize.
  change (is_slash CHAR_FORWARD_SLASH) with true. cbn [negb].
  rewrite (normalizeString_under rest (lit "src" ++ CHAR_FORWARD_SLASH :: file)
             (lit "src" :: split_on CHAR_FORWARD_SLASH file) Hrest);
    [ | | discriminate].
  - replace (last (CHAR_FORWARD_SLASH :: rest ++ CHAR_FORWARD_SLASH :: lit "src" ++
                   CHAR_FORWARD_SLASH :: file) 0)
      with (last (CHAR_FORWARD_SLASH :: file) 0).
    + rewrite Hlast, (is_empty_app_r rest) by reflexivity.
      assert (Hjoin :
        join_with (lit "/") (lit "src" :: split_on CHAR_FORWARD_SLASH file)
        = lit "src" ++ CHAR_FORWARD_SLASH :: file).
      { pose proof (join_split CHAR_FORWARD_SLASH file) as Hj.
        pose proof (split_on_not_nil CHAR_FORWARD_SLASH file) as Hsplit.
        destruct (split_on CHAR_FORWARD_SLASH file) as [|h t]; [congruence|].
        change (join_with (lit "/") (lit "src" :: h :: t))
          with (lit "src" ++ [CHAR_FORWARD_SLASH] ++
                join_with [CHAR_FORWARD_SLASH] (h :: t)).
        now rewrite Hj. }
      rewrite Hjoin. reflexivity.
    + replace (CHAR_FORWARD_SLASH :: rest ++ CHAR_FORWARD_SLASH :: lit "src" ++
               CHAR_FORWARD_SLASH :: file)
        with ((CHAR_FORWARD_SLASH :: rest ++ CHAR_FORWARD_SLASH :: lit "src") ++
              CHAR_FORWARD_SLASH :: file)
        by (cbn [app]; rewrite <- app_assoc; reflexivity).
      now rewrite last_app_cons.
  - rewrite split_on_app_sep.
    change (split_on CHAR_FORWARD_SLASH (lit "src")) with [lit "src"].
    rewrite fold_normal_segments; [reflexivity|].
    cbn [app forallb]. now rewrite Hfile.
Qed.

Lemma forallb_rev {A} (p : A -> bool) (l : list A) :
  forallb p (rev l) = forallb p l.
Proof.
  induction l as [|x l IH]; [reflexivity|].
  cbn [rev forallb]. rewrite forallb_app, IH. cbn [forallb].
  rewrite andb_true_r. apply andb_comm.
Qed.

Lemma join_with_not_empty (sep : JsString) (segs : list JsString) :
  segs <> [] -> forallb normal_segment segs = true ->
  is_empty (join_with sep segs) = false.
Proof.
  destruct segs as [|seg segs]; [congruence|]. intros _.
  cbn [forallb]. intros H. apply andb_true_iff in H as [Hseg _].
  unfold normal_segment in Hseg. tests_in_hyps.
  destruct seg; [discriminate|]. now destruct segs.
Qed.

(** A path that ends in [/node_modules/@scope/pkg] normalizes, from the
    root, to a normal absolute path. *)
Lemma normalize_candidate (x : JsString) :
  normal_absolute
    (Path.normalize (CHAR_FORWARD_SLASH :: x ++ lit "/node_modules/@scope/pkg")) = true.
Proof.
  set (stack := fold_left (Path.normalize_segment false)
                          (split_on CHAR_FORWARD_SLASH x) []).
  set (segs := rev stack ++ [lit "node_modules"; lit "@scope"; lit "pkg"]).
  assert (Hstack : forallb normal_segment stack = true).
  { apply fold_keeps_normal; [apply split_on_segments | reflexivity]. }
  assert (Hsegs : forallb normal_segment segs = true).
  { subst segs. now rewrite forallb_app, forallb_rev, Hstack. }
  assert (Hne : segs <> []).
  { subst segs. destruct (rev stack); discriminate. }
  assert (Hnorm :
    Path.normalizeString
      (CHAR_FORWARD_SLASH :: x ++ lit "/node_modules/@scope/pkg") false
    = join_with (lit "/") segs).
  { unfold Path.normalizeString.
    change (lit "/node_modules/@scope/pkg")
      with (CHAR_FORWARD_SLASH :: lit "node_modules/@scope/pkg").
    change (split_on CHAR_FORWARD_SLASH
              (CHAR_FORWARD_SLASH :: x ++ CHAR_FORWARD_SLASH :: lit "node_modules/@scope/pkg"))
      with ([] :: split_on CHAR_FORWARD_SLASH
                    (x ++ CHAR_FORWARD_SLASH :: lit "node_modules/@scope/pkg")).
    rewrite split_on_app_sep. cbn [fold_left].
    change (Path.normalize_segment false [] []) with (@nil JsString).
    rewrite fold_left_app. fold stack.
    change (split_on CHAR_FORWARD_SLASH (lit "node_modules/@scope/pkg"))
      with [lit "node_modules"; lit "@scope"; lit "pkg"].
    rewrite fold_normal_segments by reflexivity.
    subst segs. now rewrite rev_app_distr, rev_involutive. }
  unfold Path.normalize.
  change (is_slash CHAR_FORWARD_SLASH) with true. cbn [negb].
  rewrite Hnorm, (join_with_not_empty _ _ Hne Hsegs).
  change (lit "/node_modules/@scope/pkg")
    with (CHAR_FORWARD_SLASH :: lit "node_modules/@scope/pkg").
  change (CHAR_FORWARD_SLASH :: x ++ CHAR_FORWARD_SLASH :: lit "node_modules/@scope/pkg")
    with ((CHAR_FORWARD_SLASH :: x) ++ CHAR_FORWARD_SLASH :: lit "node_modules/@scope/pkg").
  rewrite last_app_cons.
  change (is_slash (last (CHAR_FORWARD_SLASH :: lit "node_modules/@scope/pkg") 0))
    with false.
  change (lit "/") with [CHAR_FORWARD_SLASH].
  cbn [app normal_absolute].
  change (is_slash CHAR_FORWARD_SLASH) with true. cbn [andb].
  rewrite split_join; [exact Hsegs | exact Hne |].
  now apply normal_segment_no_slash.
Qed.

(** The candidate directories of [@scope/pkg], from an absolute context,
    are normal absolute paths. *)
Lemma candidatePackageDirs_normal (context : JsString) :
  startsWith context (lit "/") = true ->
  forallb normal_absolute
    (FactoryTap.candidatePackageDirs context (lit "@scope/pkg")) = true.
Proof.
  destruct context as [|c rest]; [discriminate|].
  change (lit "/") with [CHAR_FORWARD_SLASH]. cbn [startsWith].
  rewrite andb_true_r. intros Hc. apply N.eqb_eq in Hc. subst c.
  unfold FactoryTap.candidatePackageDirs, Path.join.
  cbn [forallb].
  change (filter (fun a => negb (is_empty a))
            [CHAR_FORWARD_SLASH :: rest; lit "node_modules"; lit "@scope/pkg"])
    with [CHAR_FORWARD_SLASH :: rest; lit "node_modules"; lit "@scope/pkg"].
  change (filter (fun a => negb (is_empty a))
            [CHAR_FORWARD_SLASH :: rest; lit ".."; lit "node_modules"; lit "@scope/pkg"])
    with [CHAR_FORWARD_SLASH :: rest; lit ".."; lit "node_modules"; lit "@scope/pkg"].
  change (filter (fun a => negb (is_empty a))
            [CHAR_FORWARD_SLASH :: rest; lit ".."; lit ".."; lit "node_modules";
             lit "@scope/pkg"])
    with [CHAR_FORWARD_SLASH :: rest; lit ".."; lit ".."; lit "node_modules";
          lit "@scope/pkg"].
  cbn iota.
  change (join_with (lit "/")
            [CHAR_FORWARD_SLASH :: rest; lit "node_modules"; lit "@scope/pkg"])
    with (CHAR_FORWARD_SLASH :: rest ++ lit "/node_modules/@scope/pkg").
  change (join_with (lit "/")
            [CHAR_FORWARD_SLASH :: rest; lit ".."; lit "node_modules"; lit "@scope/pkg"])
    with (CHAR_FORWARD_SLASH :: rest ++ lit "/.." ++ lit "/node_modules/@scope/pkg").
  change (join_with (lit "/")
            [CHAR_FORWARD_SLASH :: rest; lit ".."; lit ".."; lit "node_modules";
             lit "@scope/pkg"])
    with (CHAR_FORWARD_SLASH :: rest ++ lit "/../.." ++ lit "/node_modules/@scope/pkg").
  rewrite !app_assoc, !normalize_candidate. reflexivity.
Qed.

(** ** Manual resolution *)

Lemma two_segments_at (s pkg r : JsString) :
  FactoryTap.two_segments s = Some (pkg, r) ->
  FactoryTap.two_segments (CHAR_AT :: s) = Some (CHAR_AT :: pkg, r).
Proof.
  unfold FactoryTap.two_segments. cbn [span].
  change (FactoryTap.not_slash CHAR_AT) with true. cbn iota.
  destruct (span FactoryTap.not_slash s) as [a rest].
  destruct a as [|x a]; [discriminate|].
  destruct rest as [|c rest]; [discriminate|].
  destruct (span FactoryTap.not_slash rest) as [b rest'].
  destruct (is_empty b); [discriminate|].
  intros H. injection H as <- <-. reflexivity.
Qed.

(** The optional [@] of the two patterns changes nothing: [@] is one of
    the units that [[^/]] matches. *)
Lemma package_then_two_segments {A} (tail : JsString -> option A) (s : JsString) :
  FactoryTap.package_then tail s =
  match FactoryTap.two_segments s with
  | Some (pkg, r) => option_map (pair pkg) (tail r)
  | None => None
  end.
Proof.
  unfold FactoryTap.package_then.
  destruct s as [|c s'].
  - reflexivity.
  - destruct (c =? CHAR_AT) eqn:E.
    + apply N.eqb_eq in E. subst c.
      destruct (FactoryTap.two_segments s') as [[pkg r]|] eqn:E'.
      * rewrite (two_segments_at _ _ _ E').
        destruct (tail r); reflexivity.
      * destruct (FactoryTap.two_segments (CHAR_AT :: s')) as [[pkg r]|];
          [destruct (tail r)|]; reflexivity.
    + destruct (FactoryTap.two_segments (c :: s')) as [[pkg r]|];
        [destruct (tail r)|]; reflexivity.
Qed.

Lemma rootMatch_not_subpath (s packageName : JsString) :
  FactoryTap.rootMatch s = Some packageName -> FactoryTap.subpathMatch s = None.
Proof.
  unfold FactoryTap.rootMatch, FactoryTap.subpathMatch.
  rewrite !package_then_two_segments.
  destruct (FactoryTap.two_segments s) as [[pkg r]|]; [|discriminate].
  destruct r; [reflexivity | discriminate].
Qed.

Lemma probe_paths_find (w : FactoryTap.World) (paths : list JsString) :
  fst (FactoryTap.probe_paths w paths) = find (FactoryTap.existsSync w) paths.
Proof.
  induction paths as [|p paths IH]; simpl; [reflexivity|].
  destruct (FactoryTap.existsSync w p); [reflexivity|].
  destruct (FactoryTap.probe_paths w paths). exact IH.
Qed.

Lemma find_app {A} (f : A -> bool) (l1 l2 : list A) :
  find f (l1 ++ l2) = match find f l1 with Some x => Some x | None => find f l2 end.
Proof.
  induction l1 as [|x l1 IH]; simpl; [reflexivity|].
  destruct (f x); [reflexivity | exact IH].
Qed.

Lemma probe_subpath_find (w : FactoryTap.World) (dirs : list JsString)
    (subpath : JsString) :
  fst (FactoryTap.probe_subpath w dirs subpath)
  = find (FactoryTap.existsSync w) (subpath_candidates w dirs subpath).
Proof.
  unfold subpath_candidates.
  induction dirs as [|d dirs IH]; [reflexivity|].
  cbn [FactoryTap.probe_subpath flat_map].
  destruct (FactoryTap.existsSync w d).
  - rewrite find_app, <- probe_paths_find.
    destruct (FactoryTap.probe_paths w (FactoryTap.candidatePaths d subpath))
      as [[p|] t]; [reflexivity|].
    destruct (FactoryTap.probe_subpath w dirs subpath). exact IH.
  - destruct (FactoryTap.probe_subpath w dirs subpath). exact IH.
Qed.

Lemma subpath_candidates_skip (w : FactoryTap.World) (before rest : list JsString)
    (subpath : JsString) :
  forallb (missing w) before = true ->
  subpath_candidates w (before ++ rest) subpath = subpath_candidates w rest subpath.
Proof.
  unfold subpath_candidates, missing.
  induction before as [|d before IH]; [reflexivity|].
  cbn [forallb app flat_map].
  intros H. apply andb_true_iff in H as [Hd H].
  apply negb_true_iff in Hd. rewrite Hd. now apply IH.
Qed.

(** What the fallback resolver answers to a subpath import that the
    native resolver failed with [PackagePathNotExported]. *)
Lemma getAdaptedResolve_subpath w req state tracker e r packageName subpath :
  includes (request state) (lit "!") = false ->
  FactoryTap.resolver w (Path.dirname (fromFile req)) (request state) = (Some e, r) ->
  FactoryTap.is_PackagePathNotExported (Some e) = true ->
  FactoryTap.subpathMatch (request state) = Some (packageName, subpath) ->
  let f := FactoryTap.getAdaptedResolve w req state tracker in
  match find (FactoryTap.existsSync w)
          (subpath_candidates w
             (FactoryTap.candidatePackageDirs (Path.dirname (fromFile req)) packageName)
             subpath) with
  | Some p => FactoryTap.resolution f = found /\
              FactoryTap.state_after f = set_request state p
  | None => FactoryTap.resolution f = not_found (Some e) /\
            FactoryTap.state_after f = state
  end.
Proof.
  intros Hbang Hnative Hsig Hmatch. unfold FactoryTap.getAdaptedResolve.
  rewrite Hbang, Hnative. cbn [orb]. rewrite Hsig.
  unfold FactoryTap.manual_resolution. rewrite Hmatch.
  rewrite <- probe_subpath_find.
  destruct (FactoryTap.probe_subpath w _ subpath) as [[p|] t]; cbn; auto.
Qed.

(** C4.  The specifier [@scope/pkg/deep/path], failed by the native
    resolver with [PackagePathNotExported], from an absolute context
    directory: the candidate package directories are
    [node_modules/@scope/pkg] under the context directory, under its parent
    and under its grandparent, in that order; when [packageDir] is the
    first of them that exists, and in it [src/deep/path.ts] exists while
    the candidate before it, [src/deep/path.js], does not, the specifier of
    the record becomes the absolute path [<packageDir>/src/deep/path.ts]
    (the [request] field of the record is that path afterwards, while its
    context and its [contextInfo] are as they were) and the outcome is
    [found].  In general the first existing file of the ordered candidates
    wins and is written to the [request] field, and the candidates of a
    package directory are ordered by prefix ([src/] first), then by form
    (the plain file before the directory with an index), then by extension
    ([.js] before [.ts]). *)
Theorem subpath_import_manual_resolution
    (w : FactoryTap.World) (req : RspackModuleRequest) (state : State)
    (tracker : Tracker) (e : Error) (r : FactoryTap.NativeResult) :
  includes (request state) (lit "!") = false ->
  FactoryTap.resolver w (Path.dirname (fromFile req)) (request state) = (Some e, r) ->
  FactoryTap.is_PackagePathNotExported (Some e) = true ->
  let directory := Path.dirname (fromFile req) in
  let f := FactoryTap.getAdaptedResolve w req state tracker in
  (request state = lit "@scope/pkg/deep/path" ->
   startsWith directory (lit "/") = true ->
   forall before packageDir after,
     [ Path.join [directory; lit "node_modules"; lit "@scope/pkg"];
       Path.join [directory; lit ".."; lit "node_modules"; lit "@scope/pkg"];
       Path.join [directory; lit ".."; lit ".."; lit "node_modules"; lit "@scope/pkg"] ]
       = before ++ packageDir :: after ->
     forallb (missing w) before = true ->
     FactoryTap.existsSync w packageDir = true ->
     FactoryTap.existsSync w (packageDir ++ lit "/src/deep/path.js") = false ->
     FactoryTap.existsSync w (packageDir ++ lit "/src/deep/path.ts") = true ->
     FactoryTap.resolution f = found /\
     request (FactoryTap.state_after f) = packageDir ++ lit "/src/deep/path.ts" /\
     context (FactoryTap.state_after f) = context state /\
     contextInfo (FactoryTap.state_after f) = contextInfo state) /\
  (forall packageName subpath,
     FactoryTap.subpathMatch (request state) = Some (packageName, subpath) ->
     match find (FactoryTap.existsSync w)
             (subpath_candidates w
                (FactoryTap.candidatePackageDirs directory packageName) subpath) with
     | Some p => FactoryTap.resolution f = found /\
                 request (FactoryTap.state_after f) = p /\
                 context (FactoryTap.state_after f) = context state /\
                 contextInfo (FactoryTap.state_after f) = contextInfo state
     | None => FactoryTap.resolution f = not_found (Some e) /\
               FactoryTap.state_after f = state
     end) /\
  (forall packageDir subpath,
     FactoryTap.candidatePaths packageDir subpath
     = flat_map (fun prefix =>
         flat_map (fun form =>
           map (fun extension => Path.join (packageDir :: prefix ++ form extension))
               [lit ".js"; lit ".ts"])
           [ (fun extension => [subpath ++ extension]);
             (fun extension => [subpath; lit "index" ++ extension]) ])
         [ [lit "src"]; [] ]).
Proof.
  intros Hbang Hnative Hsig directory f.
  assert (Hwritten := getAdaptedResolve_subpath w req state tracker e r).
  cbv zeta in Hwritten. fold directory f in Hwritten.
  assert (Hgeneral : forall packageName subpath,
     FactoryTap.subpathMatch (request state) = Some (packageName, subpath) ->
     match find (FactoryTap.existsSync w)
             (subpath_candidates w
                (FactoryTap.candidatePackageDirs directory packageName) subpath) with
     | Some p => FactoryTap.resolution f = found /\
                 request (FactoryTap.state_after f) = p /\
                 context (FactoryTap.state_after f) = context state /\
                 contextInfo (FactoryTap.state_after f) = contextInfo state
     | None => FactoryTap.resolution f = not_found (Some e) /\
               FactoryTap.state_after f = state
     end).
  { intros packageName subpath Hmatch.
    specialize (Hwritten packageName subpath Hbang Hnative Hsig Hmatch).
    destruct (find _ _) as [p|]; [|exact Hwritten].
    destruct Hwritten as [Hfound Hstate]. rewrite Hstate.
    split; [exact Hfound|]. cbn [set_request request context contextInfo].
    repeat split. }
  split; [|split].
  - intros Hreq Habsolute before packageDir after Hdirs Hbefore Hdir Hjs Hts.
    assert (Hnormal : normal_absolute packageDir = true).
    { pose proof (candidatePackageDirs_normal directory Habsolute) as Hall.
      unfold FactoryTap.candidatePackageDirs in Hall. rewrite Hdirs in Hall.
      rewrite forallb_app in Hall. apply andb_true_iff in Hall as [_ Hall].
      cbn [forallb] in Hall. now apply andb_true_iff in Hall as [Hall _]. }
    change (packageDir ++ lit "/src/deep/path.js")
      with (packageDir ++ lit "/src/" ++ lit "deep/path.js") in Hjs.
    change (packageDir ++ lit "/src/deep/path.ts")
      with (packageDir ++ lit "/src/" ++ lit "deep/path.ts") in Hts |- *.
    rewrite <- (join_src packageDir (lit "deep/path.js") Hnormal eq_refl eq_refl) in Hjs.
    rewrite <- (join_src packageDir (lit "deep/path.ts") Hnormal eq_refl eq_refl) in Hts.
    rewrite <- (join_src packageDir (lit "deep/path.ts") Hnormal eq_refl eq_refl).
    specialize (Hgeneral (lit "@scope/pkg") (lit "deep/path")).
    rewrite Hreq in Hgeneral. specialize (Hgeneral eq_refl).
    unfold FactoryTap.candidatePackageDirs in Hgeneral.
    rewrite Hdirs, (subpath_candidates_skip _ _ _ _ Hbefore) in Hgeneral.
    unfold subpath_candidates in Hgeneral. cbn [flat_map] in Hgeneral.
    rewrite Hdir in Hgeneral. unfold FactoryTap.candidatePaths in Hgeneral.
    change (lit "deep/path" ++ lit ".js") with (lit "deep/path.js") in Hgeneral.
    change (lit "deep/path" ++ lit ".ts") with (lit "deep/path.ts") in Hgeneral.
    cbn [app find] in Hgeneral. unfold JsString in *.
    rewrite Hjs, Hts in Hgeneral.
    exact Hgeneral.
  - exact Hgeneral.
  - intros packageDir subpath. reflexivity.
Qed.

Lemma subpath_import_manual_resolution_witness :
  let w := Examples.failing_world
             [lit "/app/node_modules/@scope/pkg";
              lit "/app/node_modules/@scope/pkg/src/deep/path.ts"]
             Examples.no_manifest Examples.not_exported in
  let state := Examples.import (lit "@scope/pkg/deep/path") (lit "/app/lib/main.js") in
  let f := FactoryTap.getAdaptedResolve w (Examples.request_of state) state [] in
  FactoryTap.resolution f = found /\
  request (FactoryTap.state_after f)
    = lit "/app/node_modules/@scope/pkg/src/deep/path.ts" /\
  context (FactoryTap.state_after f) = context state /\
  contextInfo (FactoryTap.state_after f) = contextInfo state.
Proof.
  intros w state f.
  destruct (subpath_import_manual_resolution w (Examples.request_of state) state []
              Examples.not_exported FactoryTap.ResultUndefined
              eq_refl eq_refl eq_refl) as [Hscenario _].
  apply (Hscenario eq_refl eq_refl
           [lit "/app/lib/node_modules/@scope/pkg"]
           (lit "/app/node_modules/@scope/pkg")
           [lit "/node_modules/@scope/pkg"]);
    reflexivity.
Defined.

Lemma probe_entry_points_find (w : FactoryTap.World) (packageDir : JsString)
    (entries : list JsString) :
  fst (FactoryTap.probe_entry_points w packageDir (map FactoryTap.Text entries))
  = find (FactoryTap.existsSync w)
      (map (fun entryPoint => Path.resolve (FactoryTap.cwd w) [packageDir; entryPoint])
           entries).
Proof.
  induction entries as [|entryPoint entries IH]; [reflexivity|].
  cbn [map FactoryTap.probe_entry_points find].
  destruct (FactoryTap.existsSync w _); [reflexivity|].
  destruct (FactoryTap.probe_entry_points w packageDir _). exact IH.
Qed.

Lemma probe_root_skip (w : FactoryTap.World) (before rest : list JsString) :
  forallb (missing w) before = true ->
  fst (FactoryTap.probe_root w (before ++ rest)) = fst (FactoryTap.probe_root w rest).
Proof.
  unfold missing.
  induction before as [|d before IH]; [reflexivity|].
  cbn [forallb app FactoryTap.probe_root].
  intros H. apply andb_true_iff in H as [Hd H].
  apply negb_true_iff in Hd. rewrite Hd.
  destruct (FactoryTap.probe_root w (before ++ rest)). now apply IH.
Qed.

(** What the fallback resolver answers to a root import that the native
    resolver failed with [PackagePathNotExported], when the first existing
    package directory has a manifest whose entry points are strings. *)
Lemma getAdaptedResolve_root w req state tracker e r packageName
    before packageDir after packageJson entries p :
  includes (request state) (lit "!") = false ->
  FactoryTap.resolver w (Path.dirname (fromFile req)) (request state) = (Some e, r) ->
  FactoryTap.is_PackagePathNotExported (Some e) = true ->
  FactoryTap.rootMatch (request state) = Some packageName ->
  FactoryTap.candidatePackageDirs (Path.dirname (fromFile req)) packageName
    = before ++ packageDir :: after ->
  forallb (missing w) before = true ->
  FactoryTap.existsSync w packageDir = true ->
  FactoryTap.existsSync w (Path.join [packageDir; lit "package.json"]) = true ->
  FactoryTap.readPackageJson w (Path.join [packageDir; lit "package.json"])
    = Some packageJson ->
  FactoryTap.entryPoints packageJson = map FactoryTap.Text entries ->
  find (FactoryTap.existsSync w)
    (map (fun entryPoint => Path.resolve (FactoryTap.cwd w) [packageDir; entryPoint])
         entries) = Some p ->
  let f := FactoryTap.getAdaptedResolve w req state tracker in
  FactoryTap.resolution f = found /\ FactoryTap.state_after f = set_request state p.
Proof.
  intros Hbang Hnative Hsig Hroot Hdirs Hbefore Hdir Hjson Hread Hentries Hfind.
  unfold FactoryTap.getAdaptedResolve.
  rewrite Hbang, Hnative. cbn [orb]. rewrite Hsig.
  unfold FactoryTap.manual_resolution.
  rewrite (rootMatch_not_subpath _ _ Hroot), Hroot, Hdirs.
  assert (Hprobe : fst (FactoryTap.probe_root w (before ++ packageDir :: after)) = Some p).
  { rewrite (probe_root_skip _ _ _ Hbefore).
    cbn [FactoryTap.probe_root]. rewrite Hdir.
    unfold FactoryTap.probe_manifest. rewrite Hjson, Hread, Hentries.
    rewrite <- probe_entry_points_find in Hfind.
    destruct (FactoryTap.probe_entry_points w packageDir _) as [found_path t].
    cbn [fst] in Hfind. subst found_path. reflexivity. }
  destruct (FactoryTap.probe_root w _) as [found_path t].
  cbn [fst] in Hprobe. subst found_path. cbn. auto.
Qed.

(** C6.  A root import that the native resolver failed with
    [PackagePathNotExported]: in the first candidate package directory
    that exists, the manifest is read and its entry points are probed in
    the order [module], [main], [src/index.js], [src/index.ts], [index.js],
    [index.ts] (a missing or empty field is skipped); the first one that
    resolves, from the package directory, to an existing file becomes the
    specifier of the record (the [request] field of the record is that
    file afterwards, while its context and its [contextInfo] are as they
    were), and the outcome is [found].  So for [@scope/pkg], imported from
    an absolute context directory, with the manifest
    [{"main": "./index.js"}]: the [request] field becomes
    [<packageDir>/index.js], when that file exists. *)
Theorem root_import_manual_resolution
    (w : FactoryTap.World) (req : RspackModuleRequest) (state : State)
    (tracker : Tracker) (e : Error) (r : FactoryTap.NativeResult)
    (packageName : JsString) (before : list JsString) (packageDir : JsString)
    (after : list JsString) (packageJson : FactoryTap.PackageJson) :
  includes (request state) (lit "!") = false ->
  FactoryTap.resolver w (Path.dirname (fromFile req)) (request state) = (Some e, r) ->
  FactoryTap.is_PackagePathNotExported (Some e) = true ->
  FactoryTap.rootMatch (request state) = Some packageName ->
  let directory := Path.dirname (fromFile req) in
  [ Path.join [directory; lit "node_modules"; packageName];
    Path.join [directory; lit ".."; lit "node_modules"; packageName];
    Path.join [directory; lit ".."; lit ".."; lit "node_modules"; packageName] ]
    = before ++ packageDir :: after ->
  forallb (missing w) before = true ->
  FactoryTap.existsSync w packageDir = true ->
  FactoryTap.existsSync w (Path.join [packageDir; lit "package.json"]) = true ->
  FactoryTap.readPackageJson w (Path.join [packageDir; lit "package.json"])
    = Some packageJson ->
  let f := FactoryTap.getAdaptedResolve w req state tracker in
  (forall entries p,
      filter FactoryTap.truthy
        [ FactoryTap.module packageJson; FactoryTap.main packageJson;
          FactoryTap.Text (lit "src/index.js"); FactoryTap.Text (lit "src/index.ts");
          FactoryTap.Text (lit "index.js"); FactoryTap.Text (lit "index.ts") ]
        = map FactoryTap.Text entries ->
      find (FactoryTap.existsSync w)
        (map (fun entryPoint => Path.resolve (FactoryTap.cwd w) [packageDir; entryPoint])
             entries) = Some p ->
      FactoryTap.resolution f = found /\
      request (FactoryTap.state_after f) = p /\
      context (FactoryTap.state_after f) = context state /\
      contextInfo (FactoryTap.state_after f) = contextInfo state) /\
  (request state = lit "@scope/pkg" ->
   startsWith directory (lit "/") = true ->
   packageJson = {| FactoryTap.module := FactoryTap.Absent;
                    FactoryTap.main := FactoryTap.Text (lit "./index.js") |} ->
   FactoryTap.existsSync w (packageDir ++ lit "/index.js") = true ->
   FactoryTap.resolution f = found /\
   request (FactoryTap.state_after f) = packageDir ++ lit "/index.js" /\
   context (FactoryTap.state_after f) = context state /\
   contextInfo (FactoryTap.state_after f) = contextInfo state).
Proof.
  intros Hbang Hnative Hsig Hroot directory Hdirs Hbefore Hdir Hjson Hread f.
  assert (Hgeneral : forall entries p,
      FactoryTap.entryPoints packageJson = map FactoryTap.Text entries ->
      find (FactoryTap.existsSync w)
        (map (fun entryPoint => Path.resolve (FactoryTap.cwd w) [packageDir; entryPoint])
             entries) = Some p ->
      FactoryTap.resolution f = found /\
      request (FactoryTap.state_after f) = p /\
      context (FactoryTap.state_after f) = context state /\
      contextInfo (FactoryTap.state_after f) = contextInfo state).
  { intros entries p Hentries Hfind.
    destruct (getAdaptedResolve_root w req state tracker e r packageName
                before packageDir after packageJson entries p
                Hbang Hnative Hsig Hroot Hdirs Hbefore Hdir Hjson Hread Hentries Hfind)
      as [Hfound Hstate].
    subst f. rewrite Hstate.
    split; [exact Hfound|]. cbn [set_request request context contextInfo].
    repeat split. }
  split.
  - exact Hgeneral.
  - intros Hreq Habsolute -> Hexists.
    assert (Hname : packageName = lit "@scope/pkg").
    { rewrite Hreq in Hroot.
      change (FactoryTap.rootMatch (lit "@scope/pkg"))
        with (Some (lit "@scope/pkg")) in Hroot.
      now injection Hroot. }
    subst packageName.
    assert (Hnormal : normal_absolute packageDir = true).
    { pose proof (candidatePackageDirs_normal directory Habsolute) as Hall.
      unfold FactoryTap.candidatePackageDirs in Hall. rewrite Hdirs in Hall.
      rewrite forallb_app in Hall. apply andb_true_iff in Hall as [_ Hall].
      cbn [forallb] in Hall. now apply andb_true_iff in Hall as [Hall _]. }
    rewrite <- (resolve_index (FactoryTap.cwd w) packageDir Hnormal) in Hexists.
    rewrite <- (resolve_index (FactoryTap.cwd w) packageDir Hnormal).
    apply (Hgeneral [lit "./index.js"; lit "src/index.js"; lit "src/index.ts";
                     lit "index.js"; lit "index.ts"]).
    + reflexivity.
    + cbn [map find]. unfold JsString in *. rewrite Hexists. reflexivity.
Qed.

Lemma root_import_manual_resolution_witness :
  let w := Examples.failing_world
             [lit "/app/node_modules/@scope/pkg";
              lit "/app/node_modules/@scope/pkg/package.json";
              lit "/app/node_modules/@scope/pkg/index.js"]
             {| FactoryTap.module := FactoryTap.Absent;
                FactoryTap.main := FactoryTap.Text (lit "./index.js") |}
             Examples.not_exported in
  let state := Examples.import (lit "@scope/pkg") (lit "/app/lib/main.js") in
  let f := FactoryTap.getAdaptedResolve w (Examples.request_of state) state [] in
  FactoryTap.resolution f = found /\
  request (FactoryTap.state_after f) = lit "/app/node_modules/@scope/pkg/index.js" /\
  context (FactoryTap.state_after f) = context state /\
  contextInfo (FactoryTap.state_after f) = contextInfo state.
Proof.
  intros w state f.
  destruct (root_import_manual_resolution w (Examples.request_of state) state []
              Examples.not_exported FactoryTap.ResultUndefined (lit "@scope/pkg")
              [lit "/app/lib/node_modules/@scope/pkg"]
              (lit "/app/node_modules/@scope/pkg")
              [lit "/node_modules/@scope/pkg"]
              {| FactoryTap.module := FactoryTap.Absent;
                 FactoryTap.main := FactoryTap.Text (lit "./index.js") |}
              eq_refl eq_refl eq_refl eq_refl eq_refl eq_refl eq_refl eq_refl eq_refl)
    as [_ Hscenario].
  apply Hscenario; reflexivity.
Defined.

(** * Further properties *)

(** ** The request model *)

(** X1.  Rehoming twice to the same file is rehoming once: the second
    call returns the instance it is given and leaves the record alone. *)
Theorem rehome_idempotent
    (this : RspackModuleRequest) (newFromFile : JsString) (state : State) :
  rehome (fst (rehome this newFromFile state)) newFromFile
         (snd (rehome this newFromFile state))
  = rehome this newFromFile state.
Proof.
  unfold rehome at 2 3 4.
  destruct (str_eqb (fromFile this) newFromFile) eqn:E.
  - cbn [fst snd]. unfold rehome. now rewrite E.
  - cbn [fst snd]. unfold rehome.
    cbn [new_RspackModuleRequest fromFile contextInfo issuer].
    now rewrite str_eqb_refl.
Qed.

(** X2.  The instance a transformation returns reflects the record it
    leaves: always for [alias], [withMeta] and [virtualize], and for
    [rehome] when the instance it is called on did. *)
Theorem transformations_in_sync
    (this : RspackModuleRequest) (state : State) :
  (forall newSpecifier,
      in_sync (fst (alias this newSpecifier state)) (snd (alias this newSpecifier state))) /\
  (forall m,
      in_sync (fst (withMeta this m state)) (snd (withMeta this m state))) /\
  (forall filename,
      in_sync (fst (virtualize this filename state))
              (snd (virtualize this filename state))) /\
  (forall newFromFile,
      in_sync this state ->
      in_sync (fst (rehome this newFromFile state))
              (snd (rehome this newFromFile state))).
Proof.
  repeat split; try reflexivity.
  all: unfold rehome; destruct (str_eqb (fromFile this) newFromFile);
    cbn [fst snd]; try reflexivity; apply H.
Qed.

Lemma transformations_in_sync_witness :
  let state := Examples.import (lit "./foo") (lit "/app/main.js") in
  in_sync (fst (rehome (Examples.request_of state) (lit "/lib/other.js") state))
          (snd (rehome (Examples.request_of state) (lit "/lib/other.js") state)).
Proof.
  intros state.
  destruct (transformations_in_sync (Examples.request_of state) state)
    as (_ & _ & _ & Hrehome).
  apply Hrehome. repeat split.
Defined.

(** X3.  The virtual flag belongs to the instance [virtualize] returns
    and to no instance derived from it: [alias], [withMeta] and a [rehome]
    to another file give instances that are not marked virtual, while
    [withMeta] and [rehome] keep the specifier of the virtual loader. *)
Theorem virtual_flag_not_carried
    (this : RspackModuleRequest) (filename : JsString) (state : State) :
  let v := fst (virtualize this filename state) in
  let state' := snd (virtualize this filename state) in
  isVirtual v = true /\
  (forall newSpecifier, isVirtual (fst (alias v newSpecifier state')) = false) /\
  (forall m,
      isVirtual (fst (withMeta v m state')) = false /\
      specifier (fst (withMeta v m state')) = specifier v) /\
  (forall newFromFile,
      str_eqb (fromFile v) newFromFile = false ->
      isVirtual (fst (rehome v newFromFile state')) = false /\
      specifier (fst (rehome v newFromFile state')) = specifier v).
Proof.
  intros v state'. subst v state'. unfold virtualize, alias. cbn [fst snd].
  split; [reflexivity|]. split; [reflexivity|]. split; [split; reflexivity|].
  intros newFromFile H. unfold rehome. cbn [fromFile] in *. rewrite H.
  split; reflexivity.
Qed.

Lemma virtual_flag_not_carried_witness :
  let state := Examples.import (lit "./foo") (lit "/app/main.js") in
  let v := fst (virtualize (Examples.request_of state) (lit "/app/foo.js") state) in
  let state' := snd (virtualize (Examples.request_of state) (lit "/app/foo.js") state) in
  isVirtual (fst (rehome v (lit "/lib/other.js") state')) = false /\
  specifier (fst (rehome v (lit "/lib/other.js") state')) = specifier v.
Proof.
  intros state v state'.
  destruct (virtual_flag_not_carried (Examples.request_of state) (lit "/app/foo.js") state)
    as (_ & _ & _ & Hrehome).
  apply Hrehome. reflexivity.
Defined.

(** X4.  The transformations write different fields of the record and
    can be applied in either order: [alias] and [withMeta] commute, and so
    do [alias] and [rehome], and [withMeta] and [rehome], when called on an
    instance whose file is the issuer of the record. *)
Theorem transformations_commute
    (this : RspackModuleRequest) (state : State)
    (newSpecifier newFromFile : JsString) (m : option Meta) :
  (let (r, s) := alias this newSpecifier state in withMeta r m s)
  = (let (r, s) := withMeta this m state in alias r newSpecifier s) /\
  (fromFile this = issuer (contextInfo state) ->
   (let (r, s) := alias this newSpecifier state in rehome r newFromFile s)
   = (let (r, s) := rehome this newFromFile state in alias r newSpecifier s) /\
   (let (r, s) := withMeta this m state in rehome r newFromFile s)
   = (let (r, s) := rehome this newFromFile state in withMeta r m s)).
Proof.
  split; [reflexivity|]. intros Hfile.
  destruct state as [rq cx [iss mt]]. cbn [contextInfo issuer] in Hfile.
  subst iss. unfold alias, withMeta, rehome.
  cbn [new_RspackModuleRequest fromFile contextInfo issuer set_request
       babelLoaderPrefix appRoot].
  destruct (str_eqb (fromFile this) newFromFile); split; reflexivity.
Qed.

Lemma transformations_commute_witness :
  let state := Examples.import (lit "./foo") (lit "/app/main.js") in
  let this := Examples.request_of state in
  (let (r, s) := alias this (lit "./bar") state in rehome r (lit "/lib/other.js") s)
  = (let (r, s) := rehome this (lit "/lib/other.js") state in alias r (lit "./bar") s).
Proof.
  intros state this.
  destruct (transformations_commute this state (lit "./bar") (lit "/lib/other.js") None)
    as [_ Hrehome].
  exact (proj1 (Hrehome eq_refl)).
Defined.

(** ** More on construction in the factory-level tap *)

Lemma fix_missing_issuer_fields req ctx state tracker st :
  FactoryTap.fix_missing_issuer req ctx state tracker = Some st ->
  request st = request state /\ context st = context state.
Proof.
  unfold FactoryTap.fix_missing_issuer.
  destruct (match contextInfo state with
            | Some ci => is_empty (issuer ci)
            | None => true
            end).
  - destruct (includes req _).
    + destruct (FactoryTap.fallbackIssuer ctx tracker);
        intros H; injection H as <-; split; reflexivity.
    + destruct (map_get tracker ctx) as [vm|]; [|discriminate].
      destruct (is_empty vm); [discriminate|].
      intros H; injection H as <-; split; reflexivity.
  - intros H; injection H as <-; split; reflexivity.
Qed.

(** X5.  A record that has an issuer, and whose specifier neither names
    the virtual loader nor starts with [!], is constructed as it stands:
    the request is from that issuer, whatever the tracker holds, and
    neither the record nor the tracker changes. *)
Theorem from_with_issuer
    (state : RawState) (req ctx prefix root : JsString) (ci : ContextInfo)
    (tracker : Tracker) :
  request state = Str req ->
  context state = Str ctx ->
  contextInfo state = Some ci ->
  is_empty (issuer ci) = false ->
  includes req virtualLoaderName = false ->
  startsWith req (lit "!") = false ->
  let typed := {| request := req; context := ctx; contextInfo := ci |} in
  FactoryTap.from state prefix root tracker
  = (Constructed (new_RspackModuleRequest prefix root typed false) typed,
     state, tracker) /\
  fromFile (new_RspackModuleRequest prefix root typed false) = issuer ci.
Proof.
  intros Hreq Hctx Hci Hissuer Hvirtual Hbang typed.
  split; [|reflexivity].
  unfold FactoryTap.from, FactoryTap.fix_missing_issuer.
  rewrite Hreq, Hctx, Hvirtual, Hbang, Hci, Hissuer. cbn iota.
  rewrite Hci, Hissuer. reflexivity.
Qed.

Lemma from_with_issuer_witness :
  let state := Examples.import (lit "./foo") (lit "/app/main.js") in
  FactoryTap.from (to_raw state) (lit "babel-loader!") (lit "/app")
    [(lit "/app", lit "/app/virtual.js")]
  = (Constructed (Examples.request_of state) state, to_raw state,
     [(lit "/app", lit "/app/virtual.js")]) /\
  fromFile (Examples.request_of state) = lit "/app/main.js".
Proof.
  intros state.
  apply (from_with_issuer (to_raw state) (lit "./foo") (Path.dirname (lit "/app/main.js"))
           (lit "babel-loader!") (lit "/app") (contextInfo state)
           [(lit "/app", lit "/app/virtual.js")]);
    reflexivity.
Defined.

(** X6.  [from] throws in one situation only: a request for an
    implicit-modules file whose record has no [contextInfo], when neither
    the tracker nor the context supplies a fallback issuer.  A record with
    a [contextInfo] never makes it throw. *)
Theorem from_throws_only_without_contextInfo
    (state : RawState) (prefix root : JsString) (tracker : Tracker)
    (raw : RawState) (tracker' : Tracker) :
  FactoryTap.from state prefix root tracker = (Thrown, raw, tracker') ->
  contextInfo state = None /\
  (exists req ctx,
      request state = Str req /\ context state = Str ctx /\
      includes req (lit "-embroider-implicit-") = true /\
      FactoryTap.fallbackIssuer ctx tracker = None) /\
  raw = state /\ tracker' = tracker.
Proof.
  unfold FactoryTap.from.
  destruct (request state) as [rq|] eqn:Hreq; [|discriminate].
  destruct (context state) as [ctx|] eqn:Hctx; [|discriminate].
  destruct (includes rq virtualLoaderName); [discriminate|].
  destruct (startsWith rq (lit "!")); [discriminate|].
  unfold FactoryTap.fix_missing_issuer.
  destruct (contextInfo state) as [ci|] eqn:Hci.
  - destruct (is_empty (issuer ci)) eqn:Hissuer.
    + destruct (includes rq (lit "-embroider-implicit-")).
      * destruct (FactoryTap.fallbackIssuer ctx tracker).
        -- cbn [set_issuer contextInfo]. destruct (_ || _); discriminate.
        -- rewrite Hci. destruct (_ || _); discriminate.
      * destruct (map_get tracker ctx) as [vm|]; [|discriminate].
        destruct (is_empty vm); [discriminate|].
        cbn [set_issuer contextInfo]. destruct (_ || _); discriminate.
    + rewrite Hci. destruct (_ || _); discriminate.
  - destruct (includes rq (lit "-embroider-implicit-")) eqn:Himplicit.
    + destruct (FactoryTap.fallbackIssuer ctx tracker) eqn:Hfallback.
      * cbn [set_issuer contextInfo]. destruct (_ || _); discriminate.
      * rewrite Hci. cbn [orb]. intros H. injection H as <- <-.
        split; [reflexivity|]. split; [|split; reflexivity].
        exists rq, ctx. auto.
    + destruct (map_get tracker ctx) as [vm|]; [|discriminate].
      destruct (is_empty vm); [discriminate|].
      cbn [set_issuer contextInfo]. destruct (_ || _); discriminate.
Qed.

Lemma from_throws_only_without_contextInfo_witness :
  let state : RawState :=
                {| request := Str (lit "./-embroider-implicit-modules.js");
                  context := Str (lit "/app");
                  contextInfo := None |} in
  contextInfo state = None /\
  (exists req ctx,
      request state = Str req /\ context state = Str ctx /\
      includes req (lit "-embroider-implicit-") = true /\
      FactoryTap.fallbackIssuer ctx [] = None) /\
  state = state /\ @nil (JsString * JsString) = [].
Proof.
  intros state.
  apply (from_throws_only_without_contextInfo state (lit "babel-loader!") (lit "/app") []).
  reflexivity.
Defined.

(** X7.  What holds of every request [from] constructs: its specifier is
    the specifier of the record, does not name the virtual loader and does
    not start with [!]; it is not marked virtual and keeps the prefix and
    the app root it was given; it reflects its record, which is the
    host's record as [from] leaves it; the tracker is unchanged; and its
    file is not empty unless the request is for an implicit-modules
    file. *)
Theorem from_constructed_postcondition
    (state : RawState) (prefix root : JsString) (tracker : Tracker)
    (r : RspackModuleRequest) (typed : State) (raw : RawState) (tracker' : Tracker) :
  FactoryTap.from state prefix root tracker = (Constructed r typed, raw, tracker') ->
  request state = Str (specifier r) /\
  context state = Str (context typed) /\
  includes (specifier r) virtualLoaderName = false /\
  startsWith (specifier r) (lit "!") = false /\
  isVirtual r = false /\ babelLoaderPrefix r = prefix /\ appRoot r = root /\
  in_sync r typed /\
  raw = to_raw typed /\
  tracker' = tracker /\
  (is_empty (fromFile r) = false \/
   includes (specifier r) (lit "-embroider-implicit-") = true).
Proof.
  unfold FactoryTap.from.
  destruct (request state) as [rq|] eqn:Hreq; [|discriminate].
  destruct (context state) as [ctx|] eqn:Hctx; [|discriminate].
  destruct (includes rq virtualLoaderName) eqn:Hvirtual; [discriminate|].
  destruct (startsWith rq (lit "!")) eqn:Hbang; [discriminate|].
  destruct (FactoryTap.fix_missing_issuer rq ctx state tracker) as [st|] eqn:Hfix;
    [|discriminate].
  apply fix_missing_issuer_fields in Hfix as [Hreq' Hctx'].
  destruct (contextInfo st) as [ci|] eqn:Hci.
  - destruct (negb (is_empty (issuer ci)) || _) eqn:Hvalid; [|discriminate].
    intros H. injection H as <- <- <- <-.
    cbn [new_RspackModuleRequest specifier isVirtual babelLoaderPrefix appRoot
         fromFile request context contextInfo].
    repeat (split; [first [reflexivity | assumption]|]).
    split; [repeat split|].
    split.
    { destruct st as [rq' cx' ci']. cbn [request context contextInfo] in *.
      unfold to_raw. cbn [request context contextInfo]. congruence. }
    split; [reflexivity|].
    apply orb_true_iff in Hvalid as [Hvalid|Hvalid]; [left|right; exact Hvalid].
    now apply negb_true_iff in Hvalid.
  - destruct (false || _); discriminate.
Qed.

Lemma from_constructed_postcondition_witness :
  let state := Examples.import (lit "./foo") (lit "/app/main.js") in
  let r := Examples.request_of state in
  request (to_raw state) = Str (specifier r) /\
  context (to_raw state) = Str (context state) /\
  includes (specifier r) virtualLoaderName = false /\
  startsWith (specifier r) (lit "!") = false /\
  isVirtual r = false /\ babelLoaderPrefix r = lit "babel-loader!" /\
  appRoot r = lit "/app" /\
  in_sync r state /\
  to_raw state = to_raw state /\
  @nil (JsString * JsString) = [] /\
  (is_empty (fromFile r) = false \/
   includes (specifier r) (lit "-embroider-implicit-") = true).
Proof.
  intros state r.
  apply (from_constructed_postcondition (to_raw state) (lit "babel-loader!") (lit "/app") []).
  reflexivity.
Defined.

(** ** The tracker over time *)

Lemma keys_kept_set (m : Tracker) (k v : JsString) : keys_kept m (map_set m k v).
Proof.
  intros k' v' H. destruct (str_eqb k k') eqn:E.
  - apply str_eqb_eq in E as <-. exists v. apply map_get_set_same.
  - exists v'. now rewrite map_get_set_other.
Qed.

Lemma tracked_at_most_one_track (q : JsString) (m : Tracker) :
  tracked_at_most_one m (track_virtual_module q m).
Proof.
  unfold track_virtual_module.
  destruct (Url.get _ _) as [filename|]; [|now left].
  destruct (is_empty filename) eqn:E; [now left|].
  right. now exists filename.
Qed.

Lemma tracked_at_most_one_spec (m m' : Tracker) :
  tracked_at_most_one m m' ->
  (tracker_ok m -> tracker_ok m') /\ keys_kept m m'.
Proof.
  intros [->|(filename & Hne & ->)].
  - split; [auto|]. intros k v H. now exists v.
  - split; [intros Hok; now apply tracker_ok_set | apply keys_kept_set].
Qed.

Lemma from_tracker (state : RawState) (prefix root : JsString) (tracker : Tracker) :
  snd (FactoryTap.from state prefix root tracker) = tracker \/
  exists q, snd (FactoryTap.from state prefix root tracker)
            = track_virtual_module q tracker.
Proof.
  unfold FactoryTap.from.
  destruct (request state) as [rq|]; [|now left].
  destruct (context state) as [ctx|]; [|now left].
  destruct (includes rq virtualLoaderName).
  { destruct (FactoryTap.queryMatch rq) as [q|]; [right; now exists q | now left]. }
  destruct (startsWith rq (lit "!")); [now left|].
  destruct (FactoryTap.fix_missing_issuer rq ctx state tracker) as [st|]; [|now left].
  destruct (_ || _); [|now left].
  destruct (contextInfo st); now left.
Qed.

Lemma getAdaptedResolve_tracker (w : FactoryTap.World) (req : RspackModuleRequest)
    (state : State) (tracker : Tracker) :
  FactoryTap.tracker_after (FactoryTap.getAdaptedResolve w req state tracker) = tracker \/
  exists q, FactoryTap.tracker_after (FactoryTap.getAdaptedResolve w req state tracker)
            = track_virtual_module q tracker.
Proof.
  unfold FactoryTap.getAdaptedResolve.
  destruct (includes (request state) (lit "!")).
  { cbn [FactoryTap.tracker_after].
    destruct (includes (request state) virtualLoaderName); [|now left].
    destruct (FactoryTap.virtualLoaderMatch (request state)) as [q|];
      [right; now exists q | now left]. }
  destruct (FactoryTap.resolver w _ _) as [err result].
  destruct (_ || _); [|now left].
  destruct (FactoryTap.is_PackagePathNotExported err); [|now left].
  unfold FactoryTap.manual_resolution.
  destruct (FactoryTap.subpathMatch (request state)) as [[packageName subpath]|].
  { destruct (FactoryTap.probe_subpath w _ subpath) as [[p|] t]; now left. }
  destruct (FactoryTap.rootMatch (request state)) as [packageName|]; [|now left].
  destruct (FactoryTap.probe_root w _) as [[p|] t]; now left.
Qed.

(** X8.  Whatever the record, one call of [from] or of the fallback
    resolver leaves the tracker as it was or records one non-empty
    filename under its directory.  So the tracker never loses a key, and
    never holds an empty filename if it held none before. *)
Theorem tracker_only_grows :
  (forall state prefix root tracker,
      let tracker' := snd (FactoryTap.from state prefix root tracker) in
      tracked_at_most_one tracker tracker' /\
      (tracker_ok tracker -> tracker_ok tracker') /\
      keys_kept tracker tracker') /\
  (forall w req state tracker,
      let tracker' :=
        FactoryTap.tracker_after (FactoryTap.getAdaptedResolve w req state tracker) in
      tracked_at_most_one tracker tracker' /\
      (tracker_ok tracker -> tracker_ok tracker') /\
      keys_kept tracker tracker').
Proof.
  assert (H : forall m m', (m' = m \/ exists q, m' = track_virtual_module q m) ->
                           tracked_at_most_one m m').
  { intros m m' [->|[q ->]]; [now left | apply tracked_at_most_one_track]. }
  split.
  - intros state prefix root tracker tracker'.
    assert (Hone : tracked_at_most_one tracker tracker')
      by apply H, from_tracker.
    split; [exact Hone | now apply tracked_at_most_one_spec].
  - intros w req state tracker tracker'.
    assert (Hone : tracked_at_most_one tracker tracker')
      by apply H, getAdaptedResolve_tracker.
    split; [exact Hone | now apply tracked_at_most_one_spec].
Qed.

Lemma tracker_only_grows_witness :
  let state :=
    {| request := Str (lit "babel-loader!@embroider/rspack/src/virtual-loader?f=%2Fapp%2Ffoo.js&a=%2Fapp!");
       context := Str (lit "/app");
       contextInfo := Some {| issuer := lit "/app/main.js"; _embroiderMeta := None |} |} in
  tracker_ok (snd (FactoryTap.from state (lit "babel-loader!") (lit "/app")
                     [(lit "/lib", lit "/lib/bar.js")])).
Proof.
  intros state.
  destruct tracker_only_grows as [Hfrom _].
  destruct (Hfrom state (lit "babel-loader!") (lit "/app")
              [(lit "/lib", lit "/lib/bar.js")]) as (_ & Hok & _).
  apply Hok.
  apply (tracker_ok_set [] (lit "/lib") (lit "/lib/bar.js"));
    [apply tracker_ok_nil | reflexivity].
Defined.

(** ** From [virtualize] back to [from] *)

Lemma includes_app (p n x : JsString) : includes (p ++ n ++ x) n = true.
Proof.
  induction p as [|c p IH].
  - cbn [app]. destruct (n ++ x) eqn:E; cbn [includes]; rewrite <- ?E;
      now rewrite startsWith_prefix.
  - cbn [app includes]. rewrite IH. apply orb_true_r.
Qed.

Lemma queryMatch_first (p q rest : JsString) :
  forallb not_question p = true ->
  is_empty q = false -> forallb not_bang q = true ->
  FactoryTap.queryMatch (p ++ lit "?" ++ q ++ lit "!" ++ rest) = Some q.
Proof.
  intros Hp Hq Hbang. induction p as [|c p IH].
  - change (FactoryTap.queryMatch (CHAR_QUESTION :: q ++ CHAR_BANG :: rest) = Some q).
    cbn [FactoryTap.queryMatch]. rewrite N.eqb_refl.
    rewrite (span_app not_bang q CHAR_BANG rest Hbang eq_refl).
    cbn [fst]. now rewrite Hq.
  - cbn [forallb] in Hp. apply andb_true_iff in Hp as [Hc Hp].
    cbn [app FactoryTap.queryMatch]. unfold not_question in Hc.
    apply negb_true_iff in Hc. rewrite Hc. now apply IH.
Qed.

Lemma virtual_query_not_empty (filename root : JsString) :
  is_empty (virtual_query filename root) = false.
Proof. reflexivity. Qed.

Lemma virtualize_specifier (this : RspackModuleRequest) (filename : JsString)
    (state : State) :
  code_units filename = true -> code_units (appRoot this) = true ->
  snd (virtualize this filename state)
  = set_request state
      (babelLoaderPrefix this ++ virtualLoaderName ++ lit "?" ++
       virtual_query filename (appRoot this) ++ lit "!").
Proof.
  intros Hf Ha. unfold virtualize, alias.
  rewrite (virtualize_params _ _ Hf Ha). reflexivity.
Qed.

Lemma track_virtual_query (filename root : JsString) (tracker : Tracker) :
  code_units filename = true -> code_units root = true ->
  track_virtual_module (virtual_query filename root) tracker
  = if is_empty (Url.toUSVString filename) then tracker
    else map_set tracker (Path.dirname (Url.toUSVString filename))
                 (Url.toUSVString filename).
Proof.
  intros Hf Ha. unfold track_virtual_module.
  rewrite virtual_query_parsed by assumption. reflexivity.
Qed.

Lemma from_virtualized (this : RspackModuleRequest) (filename : JsString)
    (state : State) (prefix root : JsString) (tracker : Tracker) :
  forallb not_question (babelLoaderPrefix this) = true ->
  code_units filename = true ->
  code_units (appRoot this) = true ->
  FactoryTap.from (to_raw (snd (virtualize this filename state))) prefix root tracker
  = (Declined, to_raw (snd (virtualize this filename state)),
     if is_empty (Url.toUSVString filename) then tracker
     else map_set tracker (Path.dirname (Url.toUSVString filename))
                  (Url.toUSVString filename)).
Proof.
  intros Hprefix Hf Ha. rewrite (virtualize_specifier _ _ _ Hf Ha).
  unfold FactoryTap.from. cbn [to_raw set_request request context].
  rewrite includes_app.
  replace (babelLoaderPrefix this ++ virtualLoaderName ++ lit "?" ++
           virtual_query filename (appRoot this) ++ lit "!")
    with ((babelLoaderPrefix this ++ virtualLoaderName) ++ lit "?" ++
          virtual_query filename (appRoot this) ++ lit "!" ++ [])
    by (rewrite <- app_assoc; reflexivity).
  rewrite queryMatch_first.
  - now rewrite track_virtual_query.
  - rewrite forallb_app, Hprefix. reflexivity.
  - reflexivity.
  - now apply virtual_query_not_bang.
Qed.

(** X9.  The specifier [virtualize] writes, when it comes back to [from]
    as a record of its own: if the loader prefix has no [?], [from]
    declines the record, leaves it untouched, and records the filename
    (as [URLSearchParams] gives it back) under its directory; for a
    well-formed non-empty filename the tracker then maps the directory of
    the file to the file. *)
Theorem virtualized_request_tracked
    (this : RspackModuleRequest) (filename : JsString) (state : State)
    (prefix root : JsString) (tracker : Tracker) :
  forallb not_question (babelLoaderPrefix this) = true ->
  code_units filename = true ->
  code_units (appRoot this) = true ->
  let state' := snd (virtualize this filename state) in
  let f := Url.toUSVString filename in
  FactoryTap.from (to_raw state') prefix root tracker
  = (Declined, to_raw state',
     if is_empty f then tracker else map_set tracker (Path.dirname f) f) /\
  (isWellFormed filename = true -> is_empty filename = false ->
   map_get (snd (FactoryTap.from (to_raw state') prefix root tracker))
           (Path.dirname filename) = Some filename).
Proof.
  intros Hprefix Hf Ha state' f. subst state' f.
  rewrite (from_virtualized _ _ _ _ _ _ Hprefix Hf Ha).
  split; [reflexivity|].
  intros Hwf Hne. cbn [snd].
  rewrite (toUSVString_well_formed _ Hf Hwf), Hne. apply map_get_set_same.
Qed.

Lemma virtualized_request_tracked_witness :
  let state := Examples.import (lit "./foo") (lit "/app/main.js") in
  let state' := snd (virtualize (Examples.request_of state) (lit "/app/foo.js") state) in
  map_get (snd (FactoryTap.from (to_raw state') (lit "babel-loader!") (lit "/app") []))
          (Path.dirname (lit "/app/foo.js")) = Some (lit "/app/foo.js").
Proof.
  intros state state'.
  destruct (virtualized_request_tracked (Examples.request_of state) (lit "/app/foo.js")
              state (lit "babel-loader!") (lit "/app") [] eq_refl eq_refl eq_refl)
    as [_ H].
  exact (H eq_refl eq_refl).
Defined.

(** X10.  When the loader prefix carries a query of its own, [p?q!...]
    with no [?] in [p] and a non-empty [q] without [!], the pattern of
    [from] stops at that query: what [from] records for a virtualized
    specifier is read from [q], not from the query of the virtual loader.
    If [q] has no [f], [from] records nothing for the request. *)
Theorem loader_prefix_query_shadows
    (this : RspackModuleRequest) (filename : JsString) (state : State)
    (prefix root p q rest : JsString) (tracker : Tracker) :
  babelLoaderPrefix this = p ++ lit "?" ++ q ++ lit "!" ++ rest ->
  forallb not_question p = true ->
  is_empty q = false ->
  forallb not_bang q = true ->
  let state' := snd (virtualize this filename state) in
  FactoryTap.from (to_raw state') prefix root tracker
  = (Declined, to_raw state', track_virtual_module q tracker) /\
  (Url.get (Url.of_string q) (lit "f") = None ->
   FactoryTap.from (to_raw state') prefix root tracker
   = (Declined, to_raw state', tracker)).
Proof.
  intros Hprefix Hp Hq Hbang state'.
  assert (Hfrom :
    FactoryTap.from (to_raw state') prefix root tracker
    = (Declined, to_raw state', track_virtual_module q tracker)).
  { subst state'. unfold virtualize, alias. cbn [snd].
    unfold FactoryTap.from. cbn [to_raw set_request request context].
    rewrite includes_app. rewrite Hprefix.
    repeat rewrite <- app_assoc.
    now rewrite queryMatch_first. }
  split; [exact Hfrom|].
  intros Hnone. rewrite Hfrom. unfold track_virtual_module. now rewrite Hnone.
Qed.

Lemma loader_prefix_query_shadows_witness :
  let state := Examples.import (lit "./foo") (lit "/app/main.js") in
  let this :=
    new_RspackModuleRequest (lit "babel-loader?cacheDirectory=true!") (lit "/app")
      state false in
  let state' := snd (virtualize this (lit "/app/foo.js") state) in
  FactoryTap.from (to_raw state') (lit "babel-loader?cacheDirectory=true!") (lit "/app") []
  = (Declined, to_raw state', []).
Proof.
  intros state this state'.
  destruct (loader_prefix_query_shadows this (lit "/app/foo.js") state
              (lit "babel-loader?cacheDirectory=true!") (lit "/app")
              (lit "babel-loader") (lit "cacheDirectory=true") [] []
              eq_refl eq_refl eq_refl eq_refl) as [_ H].
  apply H. vm_compute. reflexivity.
Defined.

Lemma from_repairs (second : RawState) (req ctx filename prefix root : JsString)
    (tracker : Tracker) :
  request second = Str req ->
  context second = Str ctx ->
  issuer_missing second = true ->
  ordinary_specifier req = true ->
  includes req (lit "-embroider-implicit-") = false ->
  map_get tracker ctx = Some filename ->
  is_empty filename = false ->
  let typed := {| request := req; context := ctx;
                  contextInfo := {| issuer := filename;
                                    _embroiderMeta :=
                                      match contextInfo second with
                                      | Some ci => _embroiderMeta ci
                                      | None => None
                                      end |} |} in
  FactoryTap.from second prefix root tracker
  = (Constructed (new_RspackModuleRequest prefix root typed false) typed,
     set_issuer second filename, tracker).
Proof.
  intros Hreq Hctx Hmissing Hordinary Himplicit Hget Hne typed.
  apply andb_true_iff in Hordinary as [Hvirtual Hbang].
  apply negb_true_iff in Hvirtual, Hbang.
  unfold FactoryTap.from, FactoryTap.fix_missing_issuer.
  unfold issuer_missing in Hmissing.
  rewrite Hreq, Hctx, Hvirtual, Hbang, Hmissing, Himplicit, Hget, Hne.
  cbn [set_issuer contextInfo issuer]. rewrite Hne. reflexivity.
Qed.

(** X11.  Two calls of the hook, one after the other.  First the
    virtualized specifier of a well-formed non-empty [filename] is seen,
    by [from] (loader prefix without [?]) or by the fallback resolver
    (loader prefix without [@]).  Then a record without issuer arrives
    whose context is the directory of [filename], with an ordinary
    specifier that is not an implicit-modules one: [from] constructs it as
    a request from [filename], and writes [filename] as the issuer of the
    record. *)
Theorem import_from_virtual_module
    (w : FactoryTap.World)
    (this : RspackModuleRequest) (filename : JsString) (state : State)
    (second : RawState) (req prefix root : JsString) (tracker : Tracker) :
  code_units filename = true ->
  code_units (appRoot this) = true ->
  isWellFormed filename = true ->
  is_empty filename = false ->
  request second = Str req ->
  context second = Str (Path.dirname filename) ->
  issuer_missing second = true ->
  ordinary_specifier req = true ->
  includes req (lit "-embroider-implicit-") = false ->
  let v := fst (virtualize this filename state) in
  let state' := snd (virtualize this filename state) in
  let constructed_from (tracker1 : Tracker) :=
    exists r typed,
      FactoryTap.from second prefix root tracker1
      = (Constructed r typed, set_issuer second filename, tracker1) /\
      fromFile r = filename /\ specifier r = req /\
      context typed = Path.dirname filename in
  (forallb not_question (babelLoaderPrefix this) = true ->
   constructed_from (snd (FactoryTap.from (to_raw state') prefix root tracker))) /\
  (forallb (fun c => negb (c =? CHAR_AT)) (babelLoaderPrefix this) = true ->
   constructed_from
     (FactoryTap.tracker_after (FactoryTap.getAdaptedResolve w v state' tracker))).
Proof.
  intros Hf Ha Hwf Hne Hreq Hctx Hmissing Hordinary Himplicit v state' constructed_from.
  assert (Hrepair : forall tracker1,
             tracker1 = map_set tracker (Path.dirname filename) filename ->
             constructed_from tracker1).
  { intros tracker1 ->. eexists _, _. split.
    - apply (from_repairs second req (Path.dirname filename) filename);
        try assumption. apply map_get_set_same.
    - repeat split. }
  split; intros Hprefix; apply Hrepair.
  - subst state'. rewrite (from_virtualized _ _ _ _ _ _ Hprefix Hf Ha). cbn [snd].
    rewrite (toUSVString_well_formed _ Hf Hwf), Hne. reflexivity.
  - subst v state'. rewrite (virtualize_specifier _ _ _ Hf Ha).
    unfold FactoryTap.getAdaptedResolve. cbn [set_request request].
    replace (includes _ (lit "!")) with true.
    2:{ symmetry.
        replace (babelLoaderPrefix this ++ virtualLoaderName ++ lit "?" ++
                 virtual_query filename (appRoot this) ++ lit "!")
          with ((babelLoaderPrefix this ++ virtualLoaderName ++ lit "?" ++
                 virtual_query filename (appRoot this)) ++ lit "!" ++ [])
          by (repeat rewrite <- app_assoc; reflexivity).
        apply includes_app. }
    cbn [FactoryTap.tracker_after]. rewrite includes_app.
    rewrite <- (app_nil_r (lit "!")).
    rewrite virtualLoaderMatch_virtual_query by assumption.
    rewrite track_virtual_query by assumption.
    rewrite (toUSVString_well_formed _ Hf Hwf), Hne. reflexivity.
Qed.

Lemma import_from_virtual_module_witness :
  let state := Examples.import (lit "./foo") (lit "/app/main.js") in
  let state' := snd (virtualize (Examples.request_of state) (lit "/app/foo.js") state) in
  let second : RawState :=
    {| request := Str (lit "./helper");
       context := Str (lit "/app");
       contextInfo := Some {| issuer := lit ""; _embroiderMeta := None |} |} in
  let tracker1 :=
    snd (FactoryTap.from (to_raw state') (lit "babel-loader!") (lit "/app") []) in
  exists r typed,
    FactoryTap.from second (lit "babel-loader!") (lit "/app") tracker1
    = (Constructed r typed, set_issuer second (lit "/app/foo.js"), tracker1) /\
    fromFile r = lit "/app/foo.js" /\ specifier r = lit "./helper" /\
    context typed = Path.dirname (lit "/app/foo.js").
Proof.
  intros state state' second tracker1.
  destruct (import_from_virtual_module
              (Examples.failing_world [] Examples.no_manifest Examples.cannot_resolve)
              (Examples.request_of state) (lit "/app/foo.js") state second
              (lit "./helper") (lit "babel-loader!") (lit "/app") []
              eq_refl eq_refl eq_refl eq_refl eq_refl eq_refl eq_refl eq_refl eq_refl)
    as [H _].
  exact (H eq_refl).
Defined.

(** ** Implicit-modules requests *)

(** X12.  A request for an implicit-modules file whose record has no
    issuer.  If the tracker holds an implicit-modules file of the
    rewritten app, the first such file in insertion order becomes the
    issuer, whatever the context is.  Otherwise, a context inside the
    rewritten app gives the issuer [<context>/-embroider-implicit-modules.js].
    In both cases a missing [contextInfo] is created and the request is
    constructed.  With neither, a record that has a [contextInfo] is
    constructed as a request from the empty file, unchanged. *)
Theorem implicit_modules_issuer
    (state : RawState) (req ctx prefix root : JsString) (tracker : Tracker) :
  request state = Str req ->
  context state = Str ctx ->
  issuer_missing state = true ->
  ordinary_specifier req = true ->
  includes req (lit "-embroider-implicit-") = true ->
  let constructed_from (f : JsString) (raw : RawState) :=
    exists r typed,
      FactoryTap.from state prefix root tracker = (Constructed r typed, raw, tracker) /\
      fromFile r = f /\ specifier r = req /\ raw = to_raw typed in
  match find (fun e => FactoryTap.is_implicit_modules_file (snd e)) tracker with
  | Some (_, filename) => constructed_from filename (set_issuer state filename)
  | None =>
      if includes ctx (lit "rewritten-app") then
        constructed_from (ctx ++ lit "/-embroider-implicit-modules.js")
          (set_issuer state (ctx ++ lit "/-embroider-implicit-modules.js"))
      else
        forall ci, contextInfo state = Some ci -> constructed_from (lit "") state
  end.
Proof.
  intros Hreq Hctx Hmissing Hordinary Himplicit constructed_from.
  apply andb_true_iff in Hordinary as [Hvirtual Hbang].
  apply negb_true_iff in Hvirtual, Hbang.
  unfold issuer_missing in Hmissing.
  assert (Hset : forall f,
             FactoryTap.fallbackIssuer ctx tracker = Some f ->
             constructed_from f (set_issuer state f)).
  { intros f Hfallback. unfold constructed_from.
    unfold FactoryTap.from, FactoryTap.fix_missing_issuer.
    rewrite Hreq, Hctx, Hvirtual, Hbang, Hmissing, Himplicit, Hfallback.
    cbn [set_issuer contextInfo issuer]. rewrite orb_true_r.
    eexists _, _. split; [reflexivity|].
    unfold to_raw, set_issuer. cbn. now rewrite Hreq, Hctx. }
  destruct (find _ tracker) as [[k filename]|] eqn:Hfind.
  - apply Hset. unfold FactoryTap.fallbackIssuer. now rewrite Hfind.
  - destruct (includes ctx (lit "rewritten-app")) eqn:Hinside.
    + apply Hset. unfold FactoryTap.fallbackIssuer. now rewrite Hfind, Hinside.
    + intros ci Hci. unfold constructed_from.
      unfold FactoryTap.from, FactoryTap.fix_missing_issuer, FactoryTap.fallbackIssuer.
      rewrite Hreq, Hctx, Hvirtual, Hbang, Hmissing, Himplicit, Hfind, Hinside.
      rewrite Hci in *. rewrite orb_true_r.
      eexists _, _. split; [reflexivity|].
      cbn [new_RspackModuleRequest fromFile specifier contextInfo].
      split; [now destruct (issuer ci)|]. split; [reflexivity|].
      destruct state as [rq cx oci]. cbn in *. unfold to_raw. cbn. congruence.
Qed.

Lemma implicit_modules_issuer_witness :
  let state : RawState :=
    {| request := Str (lit "./-embroider-implicit-modules.js");
       context := Str (lit "/elsewhere");
       contextInfo := None |} in
  let tracker :=
    [ (lit "/app", lit "/app/foo.js");
      (lit "/tmp/rewritten-app", lit "/tmp/rewritten-app/-embroider-implicit-modules.js") ] in
  exists r typed,
    FactoryTap.from state (lit "babel-loader!") (lit "/app") tracker
    = (Constructed r typed,
       set_issuer state (lit "/tmp/rewritten-app/-embroider-implicit-modules.js"),
       tracker) /\
    fromFile r = lit "/tmp/rewritten-app/-embroider-implicit-modules.js" /\
    specifier r = lit "./-embroider-implicit-modules.js" /\
    set_issuer state (lit "/tmp/rewritten-app/-embroider-implicit-modules.js")
    = to_raw typed.
Proof.
  intros state tracker.
  exact (implicit_modules_issuer state (lit "./-embroider-implicit-modules.js")
           (lit "/elsewhere") (lit "babel-loader!") (lit "/app") tracker
           eq_refl eq_refl eq_refl eq_refl eq_refl).
Defined.

(** ** More on the fallback resolver *)

Lemma probe_entry_points_exists w packageDir entries p :
  fst (FactoryTap.probe_entry_points w packageDir entries) = Some p ->
  FactoryTap.existsSync w p = true.
Proof.
  induction entries as [|[|entryPoint|b] entries IH];
    cbn [FactoryTap.probe_entry_points fst]; try discriminate.
  cbv zeta. destruct (FactoryTap.existsSync w (Path.resolve _ _)) eqn:E.
  - cbn [fst]. intros H. injection H as <-. exact E.
  - destruct (FactoryTap.probe_entry_points w packageDir entries). exact IH.
Qed.

Lemma probe_manifest_exists w packageDir p :
  fst (FactoryTap.probe_manifest w packageDir) = Some p ->
  FactoryTap.existsSync w p = true.
Proof.
  unfold FactoryTap.probe_manifest.
  destruct (FactoryTap.existsSync w (Path.join _)); [|discriminate].
  destruct (FactoryTap.readPackageJson w _) as [packageJson|]; [|discriminate].
  pose proof (probe_entry_points_exists w packageDir
                (FactoryTap.entryPoints packageJson) p) as H.
  destruct (FactoryTap.probe_entry_points w packageDir _). exact H.
Qed.

Lemma probe_root_exists w dirs p :
  fst (FactoryTap.probe_root w dirs) = Some p -> FactoryTap.existsSync w p = true.
Proof.
  induction dirs as [|d dirs IH]; cbn [FactoryTap.probe_root fst]; [discriminate|].
  destruct (FactoryTap.existsSync w d).
  - pose proof (probe_manifest_exists w d p) as H.
    destruct (FactoryTap.probe_manifest w d) as [[q|] t]; [exact H|].
    destruct (FactoryTap.probe_root w dirs). exact IH.
  - destruct (FactoryTap.probe_root w dirs). exact IH.
Qed.

Lemma probe_subpath_exists w dirs subpath p :
  fst (FactoryTap.probe_subpath w dirs subpath) = Some p ->
  FactoryTap.existsSync w p = true.
Proof.
  rewrite probe_subpath_find. intros H. now apply find_some in H.
Qed.

(** X13.  What the fallback resolver never does.  It never touches the
    context or the [contextInfo] of the record.  It rewrites the specifier
    only when it answers [found], and only to a file that exists.  When it
    answers [not_found] it always gives an error, and leaves the record and
    the tracker as they were.  It changes the tracker only for a specifier
    with a [!]. *)
Theorem fallback_resolver_frame
    (w : FactoryTap.World) (req : RspackModuleRequest) (state : State)
    (tracker : Tracker) :
  let f := FactoryTap.getAdaptedResolve w req state tracker in
  context (FactoryTap.state_after f) = context state /\
  contextInfo (FactoryTap.state_after f) = contextInfo state /\
  (FactoryTap.state_after f = state \/
   FactoryTap.resolution f = found /\
   FactoryTap.existsSync w (request (FactoryTap.state_after f)) = true) /\
  (forall err,
      FactoryTap.resolution f = not_found err ->
      err <> None /\ FactoryTap.state_after f = state /\
      FactoryTap.tracker_after f = tracker) /\
  (includes (request state) (lit "!") = false -> FactoryTap.tracker_after f = tracker).
Proof.
  intros f. subst f. unfold FactoryTap.getAdaptedResolve.
  destruct (includes (request state) (lit "!")).
  { cbn. split; [reflexivity|]. split; [reflexivity|].
    split; [left; reflexivity|]. split; discriminate. }
  destruct (FactoryTap.resolver w _ _) as [err result].
  assert (Hfailed : forall e evs,
    let f := {| FactoryTap.resolution := not_found (Some e);
                FactoryTap.state_after := state;
                FactoryTap.tracker_after := tracker;
                FactoryTap.events := evs |} in
    context (FactoryTap.state_after f) = context state /\
    contextInfo (FactoryTap.state_after f) = contextInfo state /\
    (FactoryTap.state_after f = state \/
     FactoryTap.resolution f = found /\
     FactoryTap.existsSync w (request (FactoryTap.state_after f)) = true) /\
    (forall err,
        FactoryTap.resolution f = not_found err ->
        err <> None /\ FactoryTap.state_after f = state /\
        FactoryTap.tracker_after f = tracker) /\
    (false = false -> FactoryTap.tracker_after f = tracker)).
  { intros e evs. cbn. split; [reflexivity|]. split; [reflexivity|].
    split; [left; reflexivity|]. split; [|reflexivity].
    intros err' H. injection H as <-. repeat split. discriminate. }
  assert (Hfound : forall p evs,
    FactoryTap.existsSync w p = true ->
    let f := {| FactoryTap.resolution := found;
                FactoryTap.state_after := set_request state p;
                FactoryTap.tracker_after := tracker;
                FactoryTap.events := evs |} in
    context (FactoryTap.state_after f) = context state /\
    contextInfo (FactoryTap.state_after f) = contextInfo state /\
    (FactoryTap.state_after f = state \/
     FactoryTap.resolution f = found /\
     FactoryTap.existsSync w (request (FactoryTap.state_after f)) = true) /\
    (forall err,
        FactoryTap.resolution f = not_found err ->
        err <> None /\ FactoryTap.state_after f = state /\
        FactoryTap.tracker_after f = tracker) /\
    (false = false -> FactoryTap.tracker_after f = tracker)).
  { intros p evs Hp. cbn. split; [reflexivity|]. split; [reflexivity|].
    split; [right; auto|]. split; [discriminate|reflexivity]. }
  destruct (_ || _).
  2:{ cbn. split; [reflexivity|]. split; [reflexivity|].
      split; [left; reflexivity|]. split; [discriminate|reflexivity]. }
  destruct (FactoryTap.is_PackagePathNotExported err); [|apply Hfailed].
  unfold FactoryTap.manual_resolution.
  destruct (FactoryTap.subpathMatch (request state)) as [[packageName subpath]|].
  { pose proof (probe_subpath_exists w
                  (FactoryTap.candidatePackageDirs (Path.dirname (fromFile req)) packageName)
                  subpath) as Hexists.
    destruct (FactoryTap.probe_subpath w _ subpath) as [[p|] t];
      [apply Hfound, Hexists; reflexivity | apply Hfailed]. }
  destruct (FactoryTap.rootMatch (request state)) as [packageName|]; [|apply Hfailed].
  pose proof (probe_root_exists w
                (FactoryTap.candidatePackageDirs (Path.dirname (fromFile req)) packageName))
    as Hexists.
  destruct (FactoryTap.probe_root w _) as [[p|] t];
    [apply Hfound, Hexists; reflexivity | apply Hfailed].
Qed.

Lemma fallback_resolver_frame_witness :
  let w := Examples.failing_world [] Examples.no_manifest Examples.not_exported in
  let state := Examples.import (lit "@scope/pkg/deep/path") (lit "/app/main.js") in
  let f := FactoryTap.getAdaptedResolve w (Examples.request_of state) state [] in
  Some Examples.not_exported <> None /\ FactoryTap.state_after f = state /\
  FactoryTap.tracker_after f = [].
Proof.
  intros w state f.
  destruct (fallback_resolver_frame w (Examples.request_of state) state [])
    as (_ & _ & _ & H & _).
  apply (H (Some Examples.not_exported)). reflexivity.
Defined.

(** X14.  The fallback resolver reads two things only: the current
    specifier of the record and the file of the request it is given.  The
    context and the issuer of the record, and the specifier the request
    was constructed with, have no influence on its answer, on what it asks
    of its environment, on the tracker, or on the specifier it leaves. *)
Theorem fallback_resolver_reads
    (w : FactoryTap.World) (req req' : RspackModuleRequest) (state state' : State)
    (tracker : Tracker) :
  fromFile req = fromFile req' ->
  request state = request state' ->
  let f := FactoryTap.getAdaptedResolve w req state tracker in
  let f' := FactoryTap.getAdaptedResolve w req' state' tracker in
  FactoryTap.resolution f = FactoryTap.resolution f' /\
  FactoryTap.events f = FactoryTap.events f' /\
  FactoryTap.tracker_after f = FactoryTap.tracker_after f' /\
  request (FactoryTap.state_after f) = request (FactoryTap.state_after f').
Proof.
  intros Hfile Hreq f f'. subst f f'. unfold FactoryTap.getAdaptedResolve.
  rewrite Hfile, Hreq.
  destruct (includes (request state') (lit "!")); [cbn; auto|].
  destruct (FactoryTap.resolver w _ _) as [err result].
  destruct (_ || _); [|cbn; auto].
  destruct (FactoryTap.is_PackagePathNotExported err); [|cbn; auto].
  unfold FactoryTap.manual_resolution.
  destruct (FactoryTap.subpathMatch (request state')) as [[packageName subpath]|].
  { destruct (FactoryTap.probe_subpath w _ subpath) as [[p|] t]; cbn; auto. }
  destruct (FactoryTap.rootMatch (request state')) as [packageName|]; [|cbn; auto].
  destruct (FactoryTap.probe_root w _) as [[p|] t]; cbn; auto.
Qed.

Lemma fallback_resolver_reads_witness :
  let w := Examples.failing_world [lit "/app/node_modules/@scope/pkg";
                                   lit "/app/node_modules/@scope/pkg/src/deep/path.ts"]
             Examples.no_manifest Examples.not_exported in
  let state := Examples.import (lit "@scope/pkg/deep/path") (lit "/app/main.js") in
  let state' :=
    {| request := lit "@scope/pkg/deep/path";
       context := lit "/somewhere/else";
       contextInfo := {| issuer := lit "/lib/other.js"; _embroiderMeta := None |} |} in
  let req := Examples.request_of (Examples.import (lit "./stale") (lit "/app/main.js")) in
  FactoryTap.resolution (FactoryTap.getAdaptedResolve w req state [])
  = FactoryTap.resolution (FactoryTap.getAdaptedResolve w req state' []) /\
  FactoryTap.events (FactoryTap.getAdaptedResolve w req state [])
  = FactoryTap.events (FactoryTap.getAdaptedResolve w req state' []) /\
  FactoryTap.tracker_after (FactoryTap.getAdaptedResolve w req state [])
  = FactoryTap.tracker_after (FactoryTap.getAdaptedResolve w req state' []) /\
  request (FactoryTap.state_after (FactoryTap.getAdaptedResolve w req state []))
  = request (FactoryTap.state_after (FactoryTap.getAdaptedResolve w req state' [])).
Proof.
  intros w state state' req.
  apply (fallback_resolver_reads w req req state state' []); reflexivity.
Defined.

(** X15.  When the native resolver succeeds (no error, a non-empty
    path), the answer is [found] and the native resolver is all that was
    asked; the path it resolved to is dropped: the record keeps its
    specifier.  When it fails with [PackagePathNotExported] a specifier
    that matches neither pattern, the answer is [not_found] with that
    error and nothing is probed. *)
Theorem native_resolver_outcomes
    (w : FactoryTap.World) (req : RspackModuleRequest) (state : State)
    (tracker : Tracker) :
  includes (request state) (lit "!") = false ->
  let context := Path.dirname (fromFile req) in
  let f := FactoryTap.getAdaptedResolve w req state tracker in
  (forall path,
      FactoryTap.resolver w context (request state) = (None, FactoryTap.ResolvedTo path) ->
      is_empty path = false ->
      f = {| FactoryTap.resolution := found;
             FactoryTap.state_after := state;
             FactoryTap.tracker_after := tracker;
             FactoryTap.events := [FactoryTap.NativeResolve context (request state)] |}) /\
  (forall e r,
      FactoryTap.resolver w context (request state) = (Some e, r) ->
      FactoryTap.is_PackagePathNotExported (Some e) = true ->
      FactoryTap.subpathMatch (request state) = None ->
      FactoryTap.rootMatch (request state) = None ->
      f = {| FactoryTap.resolution := not_found (Some e);
             FactoryTap.state_after := state;
             FactoryTap.tracker_after := tracker;
             FactoryTap.events := [FactoryTap.NativeResolve context (request state)] |}).
Proof.
  intros Hbang context f. subst context f. unfold FactoryTap.getAdaptedResolve.
  rewrite Hbang. split.
  - intros path -> Hpath. cbn [orb FactoryTap.result_is_falsy]. now rewrite Hpath.
  - intros e r -> Hsig Hsub Hroot. cbn [orb]. rewrite Hsig.
    unfold FactoryTap.manual_resolution. now rewrite Hsub, Hroot.
Qed.

Lemma native_resolver_outcomes_witness :
  let w := {| FactoryTap.resolver :=
                fun _ _ => (None, FactoryTap.ResolvedTo (lit "/app/foo.js"));
              FactoryTap.existsSync := fun _ => true;
              FactoryTap.readPackageJson := fun _ => None;
              FactoryTap.cwd := lit "/cwd" |} in
  let state := Examples.import (lit "./foo") (lit "/app/main.js") in
  FactoryTap.getAdaptedResolve w (Examples.request_of state) state []
  = {| FactoryTap.resolution := found;
       FactoryTap.state_after := state;
       FactoryTap.tracker_after := [];
       FactoryTap.events :=
         [FactoryTap.NativeResolve (Path.dirname (lit "/app/main.js")) (lit "./foo")] |}.
Proof.
  intros w state.
  destruct (native_resolver_outcomes w (Examples.request_of state) state [] eq_refl)
    as [H _].
  apply (H (lit "/app/foo.js")); reflexivity.
Defined.

(** ** How much the manual resolution probes *)

Lemma probe_paths_length (w : FactoryTap.World) (paths : list JsString) :
  (length (snd (FactoryTap.probe_paths w paths)) <= length paths)%nat.
Proof.
  induction paths as [|p paths IH]; cbn [FactoryTap.probe_paths]; [cbn; lia|].
  destruct (FactoryTap.existsSync w p); [cbn; lia|].
  destruct (FactoryTap.probe_paths w paths). cbn in *. lia.
Qed.

Lemma probe_subpath_length (w : FactoryTap.World) (dirs : list JsString)
    (subpath : JsString) :
  (length (snd (FactoryTap.probe_subpath w dirs subpath)) <= 9 * length dirs)%nat.
Proof.
  induction dirs as [|d dirs IH]; cbn [FactoryTap.probe_subpath]; [cbn; lia|].
  destruct (FactoryTap.existsSync w d).
  - pose proof (probe_paths_length w (FactoryTap.candidatePaths d subpath)) as H.
    change (length (FactoryTap.candidatePaths d subpath)) with 8%nat in H.
    destruct (FactoryTap.probe_paths w _) as [[p|] t].
    + cbn [snd length] in *. lia.
    + destruct (FactoryTap.probe_subpath w dirs subpath).
      cbn [snd length] in *. rewrite length_app. lia.
  - destruct (FactoryTap.probe_subpath w dirs subpath). cbn [snd length] in *. lia.
Qed.

Lemma probe_entry_points_length (w : FactoryTap.World) (packageDir : JsString)
    (entries : list FactoryTap.Field) :
  (length (snd (FactoryTap.probe_entry_points w packageDir entries))
   <= length entries)%nat.
Proof.
  induction entries as [|[|entryPoint|b] entries IH];
    cbn [FactoryTap.probe_entry_points]; try (cbn; lia).
  cbv zeta. destruct (FactoryTap.existsSync w (Path.resolve _ _)); [cbn; lia|].
  destruct (FactoryTap.probe_entry_points w packageDir entries). cbn in *. lia.
Qed.

Lemma probe_manifest_length (w : FactoryTap.World) (packageDir : JsString) :
  (length (snd (FactoryTap.probe_manifest w packageDir)) <= 8)%nat.
Proof.
  unfold FactoryTap.probe_manifest.
  destruct (FactoryTap.existsSync w (Path.join _)); [|cbn; lia].
  destruct (FactoryTap.readPackageJson w _) as [packageJson|]; [|cbn; lia].
  pose proof (probe_entry_points_length w packageDir
                (FactoryTap.entryPoints packageJson)) as H.
  assert (Hsix : (length (FactoryTap.entryPoints packageJson) <= 6)%nat).
  { unfold FactoryTap.entryPoints. etransitivity; [apply filter_length_le|]. cbn. lia. }
  destruct (FactoryTap.probe_entry_points w packageDir _).
  cbn [snd length] in *. lia.
Qed.

Lemma probe_root_length (w : FactoryTap.World) (dirs : list JsString) :
  (length (snd (FactoryTap.probe_root w dirs)) <= 9 * length dirs)%nat.
Proof.
  induction dirs as [|d dirs IH]; cbn [FactoryTap.probe_root]; [cbn; lia|].
  destruct (FactoryTap.existsSync w d).
  - pose proof (probe_manifest_length w d) as H.
    destruct (FactoryTap.probe_manifest w d) as [[p|] t].
    + cbn [snd length] in *. lia.
    + destruct (FactoryTap.probe_root w dirs).
      cbn [snd length] in *. rewrite length_app. lia.
  - destruct (FactoryTap.probe_root w dirs). cbn [snd length] in *. lia.
Qed.

(** X16.  One call of the fallback resolver asks at most 28 things of
    its environment: the native resolver once, and for each of the three
    candidate package directories one probe of the directory and at most
    eight more (the eight candidate paths, or the manifest, its reading
    and six entry points). *)
Theorem fallback_resolver_probes_bounded
    (w : FactoryTap.World) (req : RspackModuleRequest) (state : State)
    (tracker : Tracker) :
  (length (FactoryTap.events (FactoryTap.getAdaptedResolve w req state tracker))
   <= 28)%nat.
Proof.
  unfold FactoryTap.getAdaptedResolve.
  destruct (includes (request state) (lit "!")); [cbn; lia|].
  destruct (FactoryTap.resolver w _ _) as [err result].
  destruct (_ || _); [|cbn; lia].
  destruct (FactoryTap.is_PackagePathNotExported err); [|cbn; lia].
  unfold FactoryTap.manual_resolution.
  destruct (FactoryTap.subpathMatch (request state)) as [[packageName subpath]|].
  { pose proof (probe_subpath_length w
                  (FactoryTap.candidatePackageDirs (Path.dirname (fromFile req)) packageName)
                  subpath) as H.
    change (length (FactoryTap.candidatePackageDirs _ _)) with 3%nat in H.
    destruct (FactoryTap.probe_subpath w _ subpath) as [[p|] t];
      cbn [snd FactoryTap.events length app] in *; lia. }
  destruct (FactoryTap.rootMatch (request state)) as [packageName|]; [|cbn; lia].
  pose proof (probe_root_length w
                (FactoryTap.candidatePackageDirs (Path.dirname (fromFile req)) packageName))
    as H.
  change (length (FactoryTap.candidatePackageDirs _ _)) with 3%nat in H.
  destruct (FactoryTap.probe_root w _) as [[p|] t];
    cbn [snd FactoryTap.events length app] in *; lia.
Qed.

Lemma probe_subpath_missing (w : FactoryTap.World) (dirs : list JsString)
    (subpath : JsString) :
  forallb (missing w) dirs = true ->
  FactoryTap.probe_subpath w dirs subpath = (None, map FactoryTap.ExistsSync dirs).
Proof.
  unfold missing. induction dirs as [|d dirs IH]; [reflexivity|].
  cbn [forallb FactoryTap.probe_subpath map]. intros H.
  apply andb_true_iff in H as [Hd H]. apply negb_true_iff in Hd.
  now rewrite Hd, (IH H).
Qed.

Lemma probe_root_missing (w : FactoryTap.World) (dirs : list JsString) :
  forallb (missing w) dirs = true ->
  FactoryTap.probe_root w dirs = (None, map FactoryTap.ExistsSync dirs).
Proof.
  unfold missing. induction dirs as [|d dirs IH]; [reflexivity|].
  cbn [forallb FactoryTap.probe_root map]. intros H.
  apply andb_true_iff in H as [Hd H]. apply negb_true_iff in Hd.
  now rewrite Hd, (IH H).
Qed.

(** X17.  A root or subpath import failed with [PackagePathNotExported],
    when none of the three candidate package directories exists: the
    answer is [not_found] with the error of the native resolver, the
    record is untouched, and after the native resolver exactly the three
    directories were probed, in order. *)
Theorem package_directory_missing
    (w : FactoryTap.World) (req : RspackModuleRequest) (state : State)
    (tracker : Tracker) (e : Error) (r : FactoryTap.NativeResult)
    (packageName : JsString) :
  includes (request state) (lit "!") = false ->
  let context := Path.dirname (fromFile req) in
  FactoryTap.resolver w context (request state) = (Some e, r) ->
  FactoryTap.is_PackagePathNotExported (Some e) = true ->
  (exists subpath, FactoryTap.subpathMatch (request state) = Some (packageName, subpath)) \/
  FactoryTap.rootMatch (request state) = Some packageName ->
  forallb (missing w) (FactoryTap.candidatePackageDirs context packageName) = true ->
  FactoryTap.getAdaptedResolve w req state tracker
  = {| FactoryTap.resolution := not_found (Some e);
       FactoryTap.state_after := state;
       FactoryTap.tracker_after := tracker;
       FactoryTap.events :=
         FactoryTap.NativeResolve context (request state) ::
         map FactoryTap.ExistsSync
           [ Path.join [context; lit "node_modules"; packageName];
             Path.join [context; lit ".."; lit "node_modules"; packageName];
             Path.join [context; lit ".."; lit ".."; lit "node_modules"; packageName] ] |}.
Proof.
  intros Hbang context Hnative Hsig Hmatch Hmissing. subst context.
  unfold FactoryTap.getAdaptedResolve.
  rewrite Hbang, Hnative. cbn [orb]. rewrite Hsig.
  unfold FactoryTap.manual_resolution.
  destruct Hmatch as [[subpath Hsub]|Hroot].
  - rewrite Hsub, (probe_subpath_missing _ _ _ Hmissing). reflexivity.
  - rewrite (rootMatch_not_subpath _ _ Hroot), Hroot,
      (probe_root_missing _ _ Hmissing). reflexivity.
Qed.

Lemma package_directory_missing_witness :
  let w := Examples.failing_world [] Examples.no_manifest Examples.not_exported in
  let state := Examples.import (lit "@scope/pkg/deep/path") (lit "/app/src/main.js") in
  FactoryTap.getAdaptedResolve w (Examples.request_of state) state []
  = {| FactoryTap.resolution := not_found (Some Examples.not_exported);
       FactoryTap.state_after := state;
       FactoryTap.tracker_after := [];
       FactoryTap.events :=
         [ FactoryTap.NativeResolve (lit "/app/src") (lit "@scope/pkg/deep/path");
           FactoryTap.ExistsSync (lit "/app/src/node_modules/@scope/pkg");
           FactoryTap.ExistsSync (lit "/app/node_modules/@scope/pkg");
           FactoryTap.ExistsSync (lit "/node_modules/@scope/pkg") ] |}.
Proof.
  intros w state.
  apply (package_directory_missing w (Examples.request_of state) state []
           Examples.not_exported FactoryTap.ResultUndefined (lit "@scope/pkg"));
    [reflexivity | reflexivity | reflexivity | | reflexivity].
  left. exists (lit "deep/path"). reflexivity.
Defined.

Lemma probe_manifest_unusable (w : FactoryTap.World) (packageDir : JsString) :
  FactoryTap.existsSync w (Path.join [packageDir; lit "package.json"]) = false \/
  FactoryTap.readPackageJson w (Path.join [packageDir; lit "package.json"]) = None \/
  (exists packageJson,
      FactoryTap.readPackageJson w (Path.join [packageDir; lit "package.json"])
        = Some packageJson /\
      FactoryTap.module packageJson = FactoryTap.Other true) ->
  fst (FactoryTap.probe_manifest w packageDir) = None.
Proof.
  unfold FactoryTap.probe_manifest.
  intros [-> | [Hread | (packageJson & Hread & Hmodule)]]; [reflexivity | |].
  - rewrite Hread. now destruct (FactoryTap.existsSync w _).
  - rewrite Hread. destruct (FactoryTap.existsSync w _); [|reflexivity].
    unfold FactoryTap.entryPoints. rewrite Hmodule. reflexivity.
Qed.

(** X18.  In a root import, a package directory that exists but has no
    manifest, or a manifest that cannot be parsed, or a manifest whose
    [module] field is a truthy value that is not a string, yields nothing:
    neither its [main] nor its [index.js] is tried, and the search goes on
    with the directories after it, which alone decide the answer. *)
Theorem unusable_manifest_skipped
    (w : FactoryTap.World) (req : RspackModuleRequest) (state : State)
    (tracker : Tracker) (e : Error) (r : FactoryTap.NativeResult)
    (packageName : JsString) (before : list JsString) (packageDir : JsString)
    (after : list JsString) :
  includes (request state) (lit "!") = false ->
  let context := Path.dirname (fromFile req) in
  FactoryTap.resolver w context (request state) = (Some e, r) ->
  FactoryTap.is_PackagePathNotExported (Some e) = true ->
  FactoryTap.rootMatch (request state) = Some packageName ->
  FactoryTap.candidatePackageDirs context packageName = before ++ packageDir :: after ->
  forallb (missing w) before = true ->
  FactoryTap.existsSync w packageDir = true ->
  FactoryTap.existsSync w (Path.join [packageDir; lit "package.json"]) = false \/
  FactoryTap.readPackageJson w (Path.join [packageDir; lit "package.json"]) = None \/
  (exists packageJson,
      FactoryTap.readPackageJson w (Path.join [packageDir; lit "package.json"])
        = Some packageJson /\
      FactoryTap.module packageJson = FactoryTap.Other true) ->
  let f := FactoryTap.getAdaptedResolve w req state tracker in
  match fst (FactoryTap.probe_root w after) with
  | Some p => FactoryTap.resolution f = found /\
              FactoryTap.state_after f = set_request state p
  | None => FactoryTap.resolution f = not_found (Some e) /\
            FactoryTap.state_after f = state
  end.
Proof.
  intros Hbang context Hnative Hsig Hroot Hdirs Hbefore Hdir Hunusable f.
  subst context f. unfold FactoryTap.getAdaptedResolve.
  rewrite Hbang, Hnative. cbn [orb]. rewrite Hsig.
  unfold FactoryTap.manual_resolution.
  rewrite (rootMatch_not_subpath _ _ Hroot), Hroot, Hdirs.
  assert (Hprobe : fst (FactoryTap.probe_root w (before ++ packageDir :: after))
                   = fst (FactoryTap.probe_root w after)).
  { rewrite (probe_root_skip _ _ _ Hbefore).
    cbn [FactoryTap.probe_root]. rewrite Hdir.
    pose proof (probe_manifest_unusable w packageDir Hunusable) as Hnone.
    destruct (FactoryTap.probe_manifest w packageDir) as [found_path t].
    cbn [fst] in Hnone. subst found_path.
    now destruct (FactoryTap.probe_root w after). }
  rewrite <- Hprobe.
  destruct (FactoryTap.probe_root w (before ++ packageDir :: after)) as [[p|] t];
    cbn; auto.
Qed.

Lemma unusable_manifest_skipped_witness :
  let w :=
    {| FactoryTap.resolver := fun _ _ => (Some Examples.not_exported, FactoryTap.ResultUndefined);
       FactoryTap.existsSync :=
         fun p => existsb (str_eqb p)
                    [ lit "/app/src/node_modules/@scope/pkg";
                      lit "/app/src/node_modules/@scope/pkg/package.json";
                      lit "/app/src/node_modules/@scope/pkg/index.js";
                      lit "/app/node_modules/@scope/pkg";
                      lit "/app/node_modules/@scope/pkg/package.json";
                      lit "/app/node_modules/@scope/pkg/index.js" ];
       FactoryTap.readPackageJson :=
         fun p => if str_eqb p (lit "/app/src/node_modules/@scope/pkg/package.json")
                  then None else Some Examples.no_manifest;
       FactoryTap.cwd := lit "/cwd" |} in
  let state := Examples.import (lit "@scope/pkg") (lit "/app/src/main.js") in
  let f := FactoryTap.getAdaptedResolve w (Examples.request_of state) state [] in
  FactoryTap.resolution f = found /\
  FactoryTap.state_after f
  = set_request state (lit "/app/node_modules/@scope/pkg/index.js").
Proof.
  intros w state f.
  apply (unusable_manifest_skipped w (Examples.request_of state) state []
           Examples.not_exported FactoryTap.ResultUndefined (lit "@scope/pkg")
           [] (lit "/app/src/node_modules/@scope/pkg")
           [lit "/app/node_modules/@scope/pkg"; lit "/node_modules/@scope/pkg"]);
    try reflexivity.
  right. left. reflexivity.
Defined.

(** ** What the two patterns accept *)

Lemma span_spec (p : N -> bool) (s a b : JsString) :
  span p s = (a, b) ->
  s = a ++ b /\ forallb p a = true /\
  match b with c :: _ => p c = false | [] => True end.
Proof.
  revert a b. induction s as [|c s IH]; intros a b; cbn [span].
  - intros H. injection H as <- <-. auto.
  - destruct (p c) eqn:E.
    + destruct (span p s) as [a' b'] eqn:Hs. intros H. injection H as <- <-.
      destruct (IH a' b' eq_refl) as (-> & Ha & Hb).
      cbn [forallb app]. rewrite E, Ha. auto.
    + intros H. injection H as <- <-. cbn. auto.
Qed.

Lemma two_segments_spec (s pkg r : JsString) :
  FactoryTap.two_segments s = Some (pkg, r) ->
  s = pkg ++ r /\
  (exists a b,
      pkg = a ++ CHAR_FORWARD_SLASH :: b /\
      forallb FactoryTap.not_slash a = true /\ is_empty a = false /\
      forallb FactoryTap.not_slash b = true /\ is_empty b = false) /\
  match r with c :: _ => is_slash c = true | [] => True end.
Proof.
  unfold FactoryTap.two_segments.
  destruct (span FactoryTap.not_slash s) as [a r1] eqn:Ha.
  apply span_spec in Ha as (-> & Ha & Hc).
  destruct a as [|x a]; [discriminate|].
  destruct r1 as [|c r1]; [discriminate|].
  destruct (span FactoryTap.not_slash r1) as [b r2] eqn:Hb.
  apply span_spec in Hb as (-> & Hb & Hd).
  destruct (is_empty b) eqn:Hne; [discriminate|].
  intros H. injection H as <- <-.
  unfold FactoryTap.not_slash in Hc. apply negb_false_iff in Hc.
  assert (c = CHAR_FORWARD_SLASH) as -> by now apply N.eqb_eq.
  split; [cbn [app]; f_equal; now rewrite <- app_assoc|]. split.
  - exists (x :: a), b. auto.
  - destruct r2; [exact I|]. unfold FactoryTap.not_slash in Hd.
    now apply negb_false_iff in Hd.
Qed.

(** X19.  What a match of the two patterns says about the specifier.  A
    subpath match splits the specifier into package name, [/] and a
    non-empty subpath.  A root match gives the whole specifier as package
    name.  In both cases the package name is two non-empty segments with
    one [/] between them, so it matches the root pattern itself; and no
    specifier matches both patterns. *)
Theorem patterns_decompose (s : JsString) :
  (forall packageName subpath,
      FactoryTap.subpathMatch s = Some (packageName, subpath) ->
      s = packageName ++ lit "/" ++ subpath /\
      is_empty subpath = false /\
      FactoryTap.rootMatch packageName = Some packageName /\
      FactoryTap.rootMatch s = None) /\
  (forall packageName,
      FactoryTap.rootMatch s = Some packageName ->
      packageName = s /\
      FactoryTap.subpathMatch s = None /\
      exists a b,
        s = a ++ lit "/" ++ b /\
        forallb FactoryTap.not_slash a = true /\ is_empty a = false /\
        forallb FactoryTap.not_slash b = true /\ is_empty b = false).
Proof.
  split.
  - intros packageName subpath H.
    assert (Hroot : FactoryTap.rootMatch s = None).
    { destruct (FactoryTap.rootMatch s) as [p|] eqn:E; [|reflexivity].
      rewrite (rootMatch_not_subpath _ _ E) in H. discriminate. }
    unfold FactoryTap.subpathMatch in H. rewrite package_then_two_segments in H.
    destruct (FactoryTap.two_segments s) as [[pkg r]|] eqn:Hs; [|discriminate].
    apply two_segments_spec in Hs as (-> & (a & b & -> & Ha & Hane & Hb & Hbne) & _).
    destruct r as [|c rest]; [discriminate|].
    destruct (is_slash c) eqn:Hc; [|discriminate].
    destruct (is_empty rest) eqn:Hrest; [discriminate|].
    destruct (forallb FactoryTap.not_line_terminator rest); [|discriminate].
    cbn in H. injection H as <- <-.
    assert (c = CHAR_FORWARD_SLASH) as -> by now apply N.eqb_eq.
    split; [reflexivity|]. split; [exact Hrest|]. split; [|exact Hroot].
    unfold FactoryTap.rootMatch. rewrite package_then_two_segments.
    now rewrite (two_segments_pair a b Ha Hane Hb Hbne).
  - intros packageName H. split; [|split].
    + unfold FactoryTap.rootMatch in H. rewrite package_then_two_segments in H.
      destruct (FactoryTap.two_segments s) as [[pkg r]|] eqn:Hs; [|discriminate].
      apply two_segments_spec in Hs as (-> & _).
      destruct r; [|discriminate]. cbn in H. injection H as <-.
      now rewrite app_nil_r.
    + exact (rootMatch_not_subpath _ _ H).
    + unfold FactoryTap.rootMatch in H. rewrite package_then_two_segments in H.
      destruct (FactoryTap.two_segments s) as [[pkg r]|] eqn:Hs; [|discriminate].
      apply two_segments_spec in Hs as (-> & (a & b & -> & Hab) & _).
      destruct r; [|discriminate]. exists a, b. rewrite app_nil_r. auto.
Qed.

Lemma patterns_decompose_witness :
  lit "@scope/pkg/deep/path" = lit "@scope/pkg" ++ lit "/" ++ lit "deep/path" /\
  is_empty (lit "deep/path") = false /\
  FactoryTap.rootMatch (lit "@scope/pkg") = Some (lit "@scope/pkg") /\
  FactoryTap.rootMatch (lit "@scope/pkg/deep/path") = None.
Proof.
  destruct (patterns_decompose (lit "@scope/pkg/deep/path")) as [H _].
  apply H. reflexivity.
Defined.

(** ** Construction in the compilation-level tap *)

Lemma adjust_issuer_app (path : JsString) (a b : list CompilationTap.Dependency)
    (state : RawState) :
  CompilationTap.adjust_issuer path (a ++ b) state
  = match CompilationTap.adjust_issuer path a state with
    | Some st => CompilationTap.adjust_issuer path b st
    | None => None
    end.
Proof.
  revert state. induction a as [|dep a IH]; intros state; [reflexivity|].
  cbn [app CompilationTap.adjust_issuer].
  destruct (CompilationTap.virtualRequestPattern_exec _ _) as [query|]; [|apply IH].
  destruct (contextInfo state) as [ci|]; [|reflexivity].
  destruct (Url.get _ _) as [f|]; [apply IH | reflexivity].
Qed.

Lemma adjust_issuer_fields (path : JsString) (deps : list CompilationTap.Dependency)
    (state st : RawState) (ci : ContextInfo) :
  contextInfo state = Some ci ->
  CompilationTap.adjust_issuer path deps state = Some st ->
  request st = request state /\
  exists ci', contextInfo st = Some ci' /\ _embroiderMeta ci' = _embroiderMeta ci.
Proof.
  revert state ci. induction deps as [|dep deps IH]; intros state ci Hci;
    cbn [CompilationTap.adjust_issuer].
  - intros H. injection H as <-. split; [reflexivity|]. now exists ci.
  - destruct (CompilationTap.virtualRequestPattern_exec _ _) as [query|];
      [|now apply IH].
    rewrite Hci. destruct (Url.get _ _) as [f|]; [|discriminate].
    intros H. eapply IH in H; [|reflexivity]. exact H.
Qed.

(** X20.  A record without issuer, in the compilation-level tap.  When
    the last dependency whose parent module is a request to the virtual
    loader names the non-empty file [f] in its query (and no earlier
    dependency makes the loop throw), the issuer of the record becomes [f]
    and its context the directory of [f], whatever the context was; a
    request from [f] is constructed for an ordinary specifier. *)
Theorem issuer_from_last_virtual_parent
    (path : JsString) (state : RawState)
    (before : list CompilationTap.Dependency) (dep : CompilationTap.Dependency)
    (after : list CompilationTap.Dependency)
    (prefix root req query f : JsString) (ci : ContextInfo) :
  request state = Str req ->
  contextInfo state = Some ci ->
  is_empty (issuer ci) = true ->
  ordinary_specifier req = true ->
  CompilationTap.adjust_issuer path before state <> None ->
  CompilationTap.virtualRequestPattern_exec path (CompilationTap.exec_argument dep)
    = Some query ->
  Url.get (Url.of_string query) (lit "f") = Some f ->
  is_empty f = false ->
  existsb (fun dep =>
             match CompilationTap.virtualRequestPattern_exec path
                     (CompilationTap.exec_argument dep) with
             | Some _ => true
             | None => false
             end) after = false ->
  let typed := {| request := req;
                  context := Path.dirname f;
                  contextInfo := {| issuer := f;
                                    _embroiderMeta := _embroiderMeta ci |} |} in
  CompilationTap.from path state (Some (before ++ dep :: after)) prefix root
  = (Constructed (new_RspackModuleRequest prefix root typed false) typed,
     to_raw typed).
Proof.
  intros Hreq Hci Hissuer Hordinary Hbefore Hexec Hget Hne Hafter typed.
  apply andb_true_iff in Hordinary as [Hvirtual Hbang].
  unfold CompilationTap.from. rewrite Hci, Hissuer.
  rewrite adjust_issuer_app.
  destruct (CompilationTap.adjust_issuer path before state) as [st|] eqn:Hst;
    [|congruence].
  destruct (adjust_issuer_fields _ _ _ _ _ Hci Hst) as (Hreq' & ci' & Hci' & Hmeta).
  cbn [CompilationTap.adjust_issuer]. rewrite Hexec, Hci', Hget.
  rewrite (adjust_issuer_no_match _ _ _ Hafter).
  cbn [request context contextInfo issuer].
  rewrite Hreq', Hreq, Hne, Hvirtual, Hbang. cbn [negb andb].
  subst typed. rewrite Hmeta. reflexivity.
Qed.

Lemma issuer_from_last_virtual_parent_witness :
  let state : RawState :=
    {| request := Str (lit "./helper");
       context := NotStr;
       contextInfo := Some {| issuer := lit ""; _embroiderMeta := None |} |} in
  let parent (s : JsString) :=
    {| CompilationTap._parentModule := Some {| CompilationTap.userRequest := s |} |} in
  let typed := {| request := lit "./helper";
                  context := Path.dirname (lit "/app/foo.js");
                  contextInfo := {| issuer := lit "/app/foo.js";
                                    _embroiderMeta := None |} |} in
  CompilationTap.from (lit "/plugin/virtual-loader.js") state
    (Some ([parent (lit "babel-loader!/plugin/virtual-loader.js?f=%2Flib%2Fbar.js&a=%2Fapp!")]
           ++ parent (lit "babel-loader!/plugin/virtual-loader.js?f=%2Fapp%2Ffoo.js&a=%2Fapp!")
           :: [parent (lit "/app/main.js")]))
    (lit "babel-loader!") (lit "/app")
  = (Constructed (new_RspackModuleRequest (lit "babel-loader!") (lit "/app") typed false)
       typed,
     to_raw typed).
Proof.
  intros state parent typed.
  apply (issuer_from_last_virtual_parent (lit "/plugin/virtual-loader.js") state
           [parent (lit "babel-loader!/plugin/virtual-loader.js?f=%2Flib%2Fbar.js&a=%2Fapp!")]
           (parent (lit "babel-loader!/plugin/virtual-loader.js?f=%2Fapp%2Ffoo.js&a=%2Fapp!"))
           [parent (lit "/app/main.js")]
           (lit "babel-loader!") (lit "/app") (lit "./helper")
           (lit "f=%2Fapp%2Ffoo.js&a=%2Fapp") (lit "/app/foo.js")
           {| issuer := lit ""; _embroiderMeta := None |});
    try reflexivity.
  vm_compute. discriminate.
Defined.

(** X21.  A record without issuer makes [from] of the compilation-level
    tap throw when the first dependency whose parent module is a request
    to the virtual loader meets a record without [contextInfo], or has a
    query without [f]. *)
Theorem from_throws_on_virtual_parent
    (path : JsString) (state : RawState)
    (before : list CompilationTap.Dependency) (dep : CompilationTap.Dependency)
    (after : list CompilationTap.Dependency) (prefix root query : JsString) :
  issuer_missing state = true ->
  existsb (fun dep =>
             match CompilationTap.virtualRequestPattern_exec path
                     (CompilationTap.exec_argument dep) with
             | Some _ => true
             | None => false
             end) before = false ->
  CompilationTap.virtualRequestPattern_exec path (CompilationTap.exec_argument dep)
    = Some query ->
  contextInfo state = None \/ Url.get (Url.of_string query) (lit "f") = None ->
  fst (CompilationTap.from path state (Some (before ++ dep :: after)) prefix root)
  = Thrown.
Proof.
  intros Hmissing Hbefore Hexec Hcause.
  unfold CompilationTap.from. unfold issuer_missing in Hmissing. rewrite Hmissing.
  rewrite adjust_issuer_app, (adjust_issuer_no_match _ _ _ Hbefore).
  cbn [CompilationTap.adjust_issuer]. rewrite Hexec.
  destruct Hcause as [-> | ->]; [reflexivity|].
  now destruct (contextInfo state).
Qed.

Lemma from_throws_on_virtual_parent_witness :
  let state : RawState :=
    {| request := Str (lit "./helper");
       context := Str (lit "/app");
       contextInfo := Some {| issuer := lit ""; _embroiderMeta := None |} |} in
  let dep :=
    {| CompilationTap._parentModule :=
         Some {| CompilationTap.userRequest :=
                   lit "babel-loader!/plugin/virtual-loader.js?a=%2Fapp!" |} |} in
  fst (CompilationTap.from (lit "/plugin/virtual-loader.js") state
         (Some ([] ++ dep :: [])) (lit "babel-loader!") (lit "/app"))
  = Thrown.
Proof.
  intros state dep.
  apply (from_throws_on_virtual_parent (lit "/plugin/virtual-loader.js") state [] dep []
           (lit "babel-loader!") (lit "/app") (lit "a=%2Fapp"));
    [reflexivity | reflexivity | reflexivity |].
  right. reflexivity.
Defined.

(** X22.  What holds of every request the compilation-level tap
    constructs: its specifier is the specifier of the record as the host
    gave it, does not name the virtual loader and does not start with [!];
    its file is not empty; it is not marked virtual; it reflects its
    record, which is the host's record as [from] leaves it. *)
Theorem compilation_from_postcondition
    (path : JsString) (state : RawState)
    (dependencies : option (list CompilationTap.Dependency))
    (prefix root : JsString) (r : RspackModuleRequest) (typed : State)
    (raw : RawState) :
  CompilationTap.from path state dependencies prefix root = (Constructed r typed, raw) ->
  request state = Str (specifier r) /\
  ordinary_specifier (specifier r) = true /\
  is_empty (fromFile r) = false /\
  isVirtual r = false /\ babelLoaderPrefix r = prefix /\ appRoot r = root /\
  in_sync r typed /\
  raw = to_raw typed.
Proof.
  unfold CompilationTap.from.
  set (missing := match contextInfo state with
                  | Some ci => is_empty (issuer ci)
                  | None => true
                  end).
  assert (Hadjusted : forall st,
    match dependencies with
    | Some deps =>
        if missing then CompilationTap.adjust_issuer path deps state else Some state
    | None => Some state
    end = Some st -> request st = request state).
  { intros st. destruct dependencies as [deps|]; [|congruence].
    destruct missing eqn:Hmissing; [|congruence]. subst missing.
    destruct (contextInfo state) as [ci|] eqn:Hci.
    - intros H. now destruct (adjust_issuer_fields _ _ _ _ _ Hci H).
    - clear Hmissing. revert state Hci.
      induction deps as [|dep deps IH]; intros state Hci;
        cbn [CompilationTap.adjust_issuer]; [congruence|].
      destruct (CompilationTap.virtualRequestPattern_exec _ _); [|now apply IH].
      rewrite Hci. discriminate. }
  destruct (match dependencies with Some _ => _ | None => _ end) as [st|];
    [|discriminate].
  specialize (Hadjusted st eq_refl).
  destruct st as [rq cx oci]. cbn [request context contextInfo] in *.
  destruct rq as [rq|]; [|discriminate].
  destruct cx as [cx|]; [|discriminate].
  destruct oci as [ci|]; [|discriminate].
  destruct (negb (is_empty (issuer ci))) eqn:Hissuer; [|discriminate].
  destruct (negb (includes rq virtualLoaderName)) eqn:Hvirtual; [|discriminate].
  destruct (negb (startsWith rq (lit "!"))) eqn:Hbang; [|discriminate].
  cbn [andb]. intros H. injection H as <- <- <-.
  cbn [new_RspackModuleRequest specifier fromFile isVirtual babelLoaderPrefix appRoot
       request contextInfo].
  split; [now symmetry|].
  split; [unfold ordinary_specifier; now rewrite Hvirtual, Hbang|].
  split; [now apply negb_true_iff in Hissuer|].
  repeat split.
Qed.

Lemma compilation_from_postcondition_witness :
  let state := Examples.import (lit "./foo") (lit "/app/main.js") in
  let r := Examples.request_of state in
  request (to_raw state) = Str (specifier r) /\
  ordinary_specifier (specifier r) = true /\
  is_empty (fromFile r) = false /\
  isVirtual r = false /\ babelLoaderPrefix r = lit "babel-loader!" /\
  appRoot r = lit "/app" /\
  in_sync r state /\
  to_raw state = to_raw state.
Proof.
  intros state r.
  apply (compilation_from_postcondition (lit "/plugin/virtual-loader.js") (to_raw state)
           None (lit "babel-loader!") (lit "/app")).
  reflexivity.
Defined.

(** X23.  For a record that has an issuer the two variants of [from] do
    the same: they construct the same request or both decline, neither
    changes the record, the factory-level one leaves the tracker alone
    unless the specifier names the virtual loader, and the
    compilation-level one does not look at the dependencies. *)
Theorem variants_agree_with_issuer
    (path : JsString) (state : RawState)
    (dependencies : option (list CompilationTap.Dependency))
    (prefix root : JsString) (tracker : Tracker) (ci : ContextInfo) :
  contextInfo state = Some ci ->
  is_empty (issuer ci) = false ->
  let factory := FactoryTap.from state prefix root tracker in
  let compilation := CompilationTap.from path state dependencies prefix root in
  fst (fst factory) = fst compilation /\
  snd (fst factory) = state /\ snd compilation = state /\
  compilation = CompilationTap.from path state None prefix root /\
  (fst compilation <> Declined -> snd factory = tracker).
Proof.
  intros Hci Hissuer factory compilation. subst factory compilation.
  unfold FactoryTap.from, CompilationTap.from, FactoryTap.fix_missing_issuer.
  rewrite Hci, Hissuer.
  replace (match dependencies with Some _ => Some state | None => Some state end)
    with (Some state) by now destruct dependencies.
  rewrite Hci, Hissuer.
  destruct (request state) as [rq|];
    [|cbn; repeat split; intros H; now elim H].
  destruct (context state) as [cx|];
    [|cbn; repeat split; intros H; now elim H].
  destruct (includes rq virtualLoaderName);
    [cbn; repeat split; intros H; now elim H|].
  destruct (startsWith rq (lit "!")); cbn; repeat split; intros H; now elim H.
Qed.

Lemma variants_agree_with_issuer_witness :
  let state := to_raw (Examples.import (lit "./foo") (lit "/app/main.js")) in
  let factory := FactoryTap.from state (lit "babel-loader!") (lit "/app") [] in
  let compilation :=
    CompilationTap.from (lit "/plugin/virtual-loader.js") state (Some [])
      (lit "babel-loader!") (lit "/app") in
  fst (fst factory) = fst compilation /\
  snd (fst factory) = state /\ snd compilation = state /\
  compilation = CompilationTap.from (lit "/plugin/virtual-loader.js") state None
                  (lit "babel-loader!") (lit "/app") /\
  (fst compilation <> Declined -> snd factory = []).
Proof.
  intros state factory compilation.
  apply (variants_agree_with_issuer (lit "/plugin/virtual-loader.js") state (Some [])
           (lit "babel-loader!") (lit "/app") []
           {| issuer := lit "/app/main.js"; _embroiderMeta := None |});
    reflexivity.
Defined.

(** ** Setting the plugin up *)

Lemma map_set_idempotent (m : Tracker) (k v : JsString) :
  map_set (map_set m k v) k v = map_set m k v.
Proof.
  induction m as [|[k' v'] m IH]; cbn [map_set].
  - now rewrite str_eqb_refl.
  - destruct (str_eqb k' k) eqn:E; cbn [map_set]; rewrite E; [reflexivity|].
    now rewrite IH.
Qed.

(** X24.  [#addLoaderAlias] keeps the form and the entries of the
    configuration it finds: an array gets the new entry at its end (once
    more each time the alias is added), an object maps the name to the
    alias and keeps its other keys, and adding the same alias to it again
    changes nothing; a missing configuration becomes an object with that
    one key. *)
Theorem addLoaderAlias_keeps_configuration
    (current : Setup.LoaderAlias) (name alias : JsString) :
  match current with
  | Setup.AliasArray entries =>
      Setup.addLoaderAlias current name alias
        = Setup.AliasArray (entries ++ [(name, alias)]) /\
      Setup.addLoaderAlias (Setup.addLoaderAlias current name alias) name alias
        = Setup.AliasArray (entries ++ [(name, alias); (name, alias)])
  | Setup.AliasObject entries =>
      exists entries',
        Setup.addLoaderAlias current name alias = Setup.AliasObject entries' /\
        map_get entries' name = Some alias /\
        (forall k, str_eqb name k = false -> map_get entries' k = map_get entries k) /\
        Setup.addLoaderAlias (Setup.addLoaderAlias current name alias) name alias
          = Setup.addLoaderAlias current name alias
  | Setup.AliasFalsy =>
      Setup.addLoaderAlias current name alias = Setup.AliasObject [(name, alias)] /\
      Setup.addLoaderAlias (Setup.addLoaderAlias current name alias) name alias
        = Setup.addLoaderAlias current name alias
  end.
Proof.
  destruct current as [entries|entries|]; cbn [Setup.addLoaderAlias].
  - split; [reflexivity|]. now rewrite <- app_assoc.
  - exists (map_set entries name alias). split; [reflexivity|].
    split; [apply map_get_set_same|].
    split; [intros k Hk; now apply map_get_set_other|].
    now rewrite map_set_idempotent.
  - split; [reflexivity|]. cbn [map_set]. now rewrite str_eqb_refl.
Qed.

(** X25.  [getDefaultResolveHook] returns the function of the first tap
    named [NormalModuleFactory], whatever taps come before it under other
    names, and throws exactly when no tap has that name. *)
Theorem getDefaultResolveHook_first {F : Type} (taps : list (Setup.Tap F)) :
  let other (t : Setup.Tap F) :=
    negb (str_eqb (Setup.name t) (lit "NormalModuleFactory")) in
  match Setup.getDefaultResolveHook taps with
  | Some f =>
      exists before t after,
        taps = before ++ t :: after /\
        forallb other before = true /\
        Setup.name t = lit "NormalModuleFactory" /\
        Setup.fn t = f
  | None => forallb other taps = true
  end.
Proof.
  intros other. unfold Setup.getDefaultResolveHook.
  induction taps as [|t taps IH]; [reflexivity|].
  cbn [find forallb]. destruct (str_eqb (Setup.name t) _) eqn:E.
  - cbn [option_map]. exists [], t, taps. repeat split. now apply str_eqb_eq.
  - destruct (find _ taps) as [t'|]; cbn [option_map] in *.
    + destruct IH as (before & t0 & after & -> & Hbefore & Hname & Hfn).
      exists (t :: before), t0, after. repeat split; try assumption.
      cbn [forallb]. unfold other at 1. now rewrite E, Hbefore.
    + unfold other at 1. now rewrite E, IH.
Qed.

(** ** From a virtual module to its imports, in the compilation-level tap *)

Lemma startsWith_too_early (path v r : JsString) :
  forallb not_question v = true ->
  (length path < length v)%nat ->
  startsWith (v ++ r) (path ++ lit "?") = false.
Proof.
  revert v. induction path as [|p path IH]; intros v Hv Hlen.
  - destruct v as [|d v]; [cbn in Hlen; lia|].
    cbn [forallb] in Hv. apply andb_true_iff in Hv as [Hd _].
    unfold not_question in Hd. apply negb_true_iff in Hd.
    change (startsWith ((d :: v) ++ r) [CHAR_QUESTION] = false).
    cbn [app startsWith]. now rewrite Hd.
  - destruct v as [|d v]; [cbn in Hlen; lia|].
    cbn [forallb] in Hv. apply andb_true_iff in Hv as [_ Hv].
    cbn [app startsWith]. rewrite IH; [apply andb_false_r | exact Hv |].
    cbn [length] in Hlen. lia.
Qed.

Lemma startsWith_question (u r path : JsString) (c : N) :
  forallb not_question (c :: u) = true ->
  forallb not_question path = true ->
  startsWith (c :: u ++ path ++ lit "?" ++ r) (path ++ lit "?") = false.
Proof.
  intros Hu Hpath.
  replace (c :: u ++ path ++ lit "?" ++ r)
    with (((c :: u) ++ path) ++ lit "?" ++ r)
    by (cbn [app]; now rewrite <- app_assoc).
  apply startsWith_too_early.
  - now rewrite forallb_app, Hu, Hpath.
  - rewrite length_app. cbn [length]. lia.
Qed.

Lemma query_before_bang_cons (c : N) (run : JsString) :
  CompilationTap.query_before_bang (c :: run)
  = match CompilationTap.query_before_bang run with
    | Some q => Some (c :: q)
    | None =>
        match run with
        | d :: _ => if d =? CHAR_BANG then Some [c] else None
        | [] => None
        end
    end.
Proof. reflexivity. Qed.

Lemma query_before_bang_exact (q : JsString) :
  is_empty q = false -> forallb not_bang q = true ->
  CompilationTap.query_before_bang (q ++ lit "!") = Some q.
Proof.
  induction q as [|c q IH]; [discriminate|]. intros _ H.
  cbn [forallb] in H. apply andb_true_iff in H as [Hc H].
  cbn [app]. rewrite query_before_bang_cons.
  destruct q as [|d q]; [reflexivity|].
  now rewrite (IH eq_refl H).
Qed.

Lemma virtual_query_one_line (filename root : JsString) :
  code_units filename = true -> code_units root = true ->
  forallb (fun c => negb (is_line_terminator c)) (virtual_query filename root) = true.
Proof.
  assert (Hser : forall s, code_units s = true ->
            forallb (fun c => negb (is_line_terminator c)) (Url.serialize_string s) = true).
  { intros s Hs.
    apply (forallb_weaken form_unit); [|now apply serialize_string_form_units].
    intros c Hc. unfold form_unit, Url.is_form_safe in Hc.
    unfold is_line_terminator. tests_in_hyps; decide_tests; lia. }
  intros Hf Ha. unfold virtual_query. rewrite !forallb_app.
  now rewrite !Hser.
Qed.

Lemma virtualRequestPattern_exec_unfold (path s : JsString) :
  CompilationTap.virtualRequestPattern_exec path s
  = match
      (if startsWith s (path ++ lit "?") then
         CompilationTap.query_before_bang
           (fst (span (fun c => negb (is_line_terminator c))
                      (skipn (length (path ++ lit "?")) s)))
       else None)
    with
    | Some q => Some q
    | None =>
        match s with
        | [] => None
        | _ :: s' => CompilationTap.virtualRequestPattern_exec path s'
        end
    end.
Proof. destruct s; reflexivity. Qed.

Lemma virtualRequestPattern_exec_virtual_query (path prefix filename root : JsString) :
  forallb not_question prefix = true ->
  forallb not_question path = true ->
  code_units filename = true -> code_units root = true ->
  CompilationTap.virtualRequestPattern_exec path
    (prefix ++ path ++ lit "?" ++ virtual_query filename root ++ lit "!")
  = Some (virtual_query filename root).
Proof.
  intros Hprefix Hpath Hf Ha. induction prefix as [|c prefix IH].
  - cbn [app]. rewrite virtualRequestPattern_exec_unfold.
    rewrite app_assoc, startsWith_prefix, skipn_prefix.
    rewrite span_all.
    + cbn [fst]. rewrite query_before_bang_exact;
        [reflexivity | reflexivity | now apply virtual_query_not_bang].
    + rewrite forallb_app, virtual_query_one_line by assumption. reflexivity.
  - rewrite virtualRequestPattern_exec_unfold.
    cbn [app]. rewrite (startsWith_question _ _ _ _ Hprefix Hpath).
    cbn [forallb] in Hprefix. apply andb_true_iff in Hprefix as [_ Hprefix].
    now apply IH.
Qed.

(** X26.  Two steps in the compilation-level tap.  A module was loaded
    through the specifier [virtualize] writes for the well-formed non-empty
    file [filename], with the loader resolved to [path] (no [?] in the
    loader prefix or in [path]).  When a record without issuer has that
    module as the parent of its one dependency, [from] gives the record the
    issuer [filename] and the directory of [filename] as context, and
    constructs a request from [filename] for an ordinary specifier. *)
Theorem import_from_virtual_parent
    (path loaders filename root : JsString) (state : RawState)
    (prefix appRoot req : JsString) (ci : ContextInfo) :
  forallb not_question loaders = true ->
  forallb not_question path = true ->
  code_units filename = true ->
  code_units root = true ->
  isWellFormed filename = true ->
  is_empty filename = false ->
  request state = Str req ->
  contextInfo state = Some ci ->
  is_empty (issuer ci) = true ->
  ordinary_specifier req = true ->
  let parent :=
    {| CompilationTap.userRequest :=
         loaders ++ path ++ lit "?" ++ virtual_query filename root ++ lit "!" |} in
  let typed := {| request := req;
                  context := Path.dirname filename;
                  contextInfo := {| issuer := filename;
                                    _embroiderMeta := _embroiderMeta ci |} |} in
  CompilationTap.from path state
    (Some [{| CompilationTap._parentModule := Some parent |}]) prefix appRoot
  = (Constructed (new_RspackModuleRequest prefix appRoot typed false) typed,
     to_raw typed).
Proof.
  intros Hloaders Hpath Hf Ha Hwf Hne Hreq Hci Hissuer Hordinary parent typed.
  apply andb_true_iff in Hordinary as [Hvirtual Hbang].
  unfold CompilationTap.from. rewrite Hci, Hissuer.
  cbn [CompilationTap.adjust_issuer CompilationTap.exec_argument
       CompilationTap._parentModule]. subst parent.
  cbn [CompilationTap.userRequest].
  rewrite virtualRequestPattern_exec_virtual_query by assumption.
  rewrite Hci, virtual_query_parsed by assumption.
  change (Url.get ((lit "f", Url.toUSVString filename) :: _) (lit "f"))
    with (Some (Url.toUSVString filename)).
  rewrite (toUSVString_well_formed _ Hf Hwf).
  cbn [request context contextInfo issuer].
  rewrite Hreq, Hne, Hvirtual, Hbang. reflexivity.
Qed.

Lemma import_from_virtual_parent_witness :
  let state : RawState :=
    {| request := Str (lit "./helper");
       context := Str (lit "/elsewhere");
       contextInfo := Some {| issuer := lit ""; _embroiderMeta := None |} |} in
  let parent :=
    {| CompilationTap.userRequest :=
         lit "babel-loader!" ++ lit "/plugin/virtual-loader.js" ++ lit "?" ++
         virtual_query (lit "/app/foo.js") (lit "/app") ++ lit "!" |} in
  let typed := {| request := lit "./helper";
                  context := Path.dirname (lit "/app/foo.js");
                  contextInfo := {| issuer := lit "/app/foo.js";
                                    _embroiderMeta := None |} |} in
  CompilationTap.from (lit "/plugin/virtual-loader.js") state
    (Some [{| CompilationTap._parentModule := Some parent |}])
    (lit "babel-loader!") (lit "/app")
  = (Constructed (new_RspackModuleRequest (lit "babel-loader!") (lit "/app") typed false)
       typed,
     to_raw typed).
Proof.
  intros state parent typed.
  apply (import_from_virtual_parent (lit "/plugin/virtual-loader.js") (lit "babel-loader!")
           (lit "/app/foo.js") (lit "/app") state (lit "babel-loader!") (lit "/app")
           (lit "./helper") {| issuer := lit ""; _embroiderMeta := None |});
    reflexivity.
Defined.

(** ** The record after a throw, in the compilation-level tap *)

Lemma record_at_throw_app (path : JsString) (a b : list CompilationTap.Dependency)
    (state : RawState) :
  CompilationTap.record_at_throw path (a ++ b) state
  = match CompilationTap.adjust_issuer path a state with
    | Some st => CompilationTap.record_at_throw path b st
    | None => CompilationTap.record_at_throw path a state
    end.
Proof.
  revert state. induction a as [|dep a IH]; intros state; [reflexivity|].
  cbn [app CompilationTap.record_at_throw CompilationTap.adjust_issuer].
  destruct (CompilationTap.virtualRequestPattern_exec _ _) as [query|]; [|apply IH].
  destruct (contextInfo state) as [ci|]; [|reflexivity].
  destruct (Url.get _ _) as [f|]; [apply IH | reflexivity].
Qed.

(** X27.  What [from] of the compilation-level tap leaves in the record
    when it throws.  If the record has no [contextInfo], the first
    dependency with a virtual parent makes it throw before anything is
    written: the record is untouched.  If a dependency with a virtual
    parent has a query without [f], after earlier dependencies that went
    through, the record has been written: its context is the one the
    earlier dependencies set, its issuer is no file any more (the issuer an
    earlier dependency gave it is lost), and its specifier and its meta are
    as they were. *)
Theorem record_after_throw
    (path : JsString) (state : RawState)
    (before : list CompilationTap.Dependency) (dep : CompilationTap.Dependency)
    (after : list CompilationTap.Dependency) (prefix root query : JsString) :
  issuer_missing state = true ->
  CompilationTap.virtualRequestPattern_exec path (CompilationTap.exec_argument dep)
    = Some query ->
  let thrown :=
    CompilationTap.from path state (Some (before ++ dep :: after)) prefix root in
  (contextInfo state = None ->
   existsb (fun dep =>
              match CompilationTap.virtualRequestPattern_exec path
                      (CompilationTap.exec_argument dep) with
              | Some _ => true
              | None => false
              end) before = false ->
   thrown = (Thrown, state)) /\
  (forall ci st,
      contextInfo state = Some ci ->
      CompilationTap.adjust_issuer path before state = Some st ->
      Url.get (Url.of_string query) (lit "f") = None ->
      fst thrown = Thrown /\
      request (snd thrown) = request state /\
      context (snd thrown) = context st /\
      issuer_missing (snd thrown) = true /\
      option_map _embroiderMeta (contextInfo (snd thrown)) = Some (_embroiderMeta ci)).
Proof.
  intros Hmissing Hexec thrown. subst thrown.
  unfold CompilationTap.from. unfold issuer_missing in Hmissing. rewrite Hmissing.
  rewrite adjust_issuer_app, record_at_throw_app. split.
  - intros Hci Hbefore. rewrite (adjust_issuer_no_match _ _ _ Hbefore).
    cbn [CompilationTap.adjust_issuer CompilationTap.record_at_throw].
    now rewrite Hexec, Hci.
  - intros ci st Hci Hst Hget. rewrite Hst.
    destruct (adjust_issuer_fields _ _ _ _ _ Hci Hst) as (Hreq & ci' & Hci' & Hmeta).
    cbn [CompilationTap.adjust_issuer CompilationTap.record_at_throw].
    rewrite Hexec, Hci', Hget. cbn. rewrite Hmeta. auto.
Qed.

Lemma record_after_throw_witness :
  let state : RawState :=
    {| request := Str (lit "./helper");
       context := Str (lit "/elsewhere");
       contextInfo := Some {| issuer := lit ""; _embroiderMeta := None |} |} in
  let parent (s : JsString) :=
    {| CompilationTap._parentModule := Some {| CompilationTap.userRequest := s |} |} in
  let thrown :=
    CompilationTap.from (lit "/plugin/virtual-loader.js") state
      (Some ([parent (lit "babel-loader!/plugin/virtual-loader.js?f=%2Flib%2Fbar.js&a=%2Fapp!")]
             ++ parent (lit "babel-loader!/plugin/virtual-loader.js?a=%2Fapp!") :: []))
      (lit "babel-loader!") (lit "/app") in
  fst thrown = Thrown /\
  request (snd thrown) = Str (lit "./helper") /\
  context (snd thrown) = Str (lit "/lib") /\
  issuer_missing (snd thrown) = true /\
  option_map _embroiderMeta (contextInfo (snd thrown)) = Some None.
Proof.
  intros state parent thrown.
  destruct (record_after_throw (lit "/plugin/virtual-loader.js") state
              [parent (lit "babel-loader!/plugin/virtual-loader.js?f=%2Flib%2Fbar.js&a=%2Fapp!")]
              (parent (lit "babel-loader!/plugin/virtual-loader.js?a=%2Fapp!")) []
              (lit "babel-loader!") (lit "/app") (lit "a=%2Fapp")
              eq_refl eq_refl) as [_ H].
  apply (H {| issuer := lit ""; _embroiderMeta := None |}
           {| request := Str (lit "./helper");
              context := Str (lit "/lib");
              contextInfo := Some {| issuer := lit "/lib/bar.js";
                                     _embroiderMeta := None |} |});
    reflexivity.
Defined.
